(** * Checkmate: the check-in data model and its access contract

    A shallow embedding of the check-in tracker:
    - [Server]: the HTTP handlers of [server.js] (and of its SQLite-only
      predecessor) over the two tables [users] and [checkins];
    - [Client]: the functions of the browser scripts that read and update
      the per-user mapping date -> activities, for the browser-local
      variant (localStorage) and the server-backed variant (a cache of
      [GET /api/users]).

    A JavaScript object used as a dictionary is the finite map of its own
    properties; a lookup of a key that is not among them goes on to the
    prototype, where it finds the properties every object inherits from
    [Object.prototype] ([inherited]).  Arrays are lists.  A statement sent
    to the database either runs, violates a declared constraint, or is
    failed by the environment: the connection carries a fault schedule
    that says which of the coming statements the store fails. *)

From stdpp Require Import gmap strings list fin_maps sorting.
From Stdlib Require Import ZArith Ascii.
From Stdlib Require DecimalString HexadecimalString DecimalNat.

Open Scope string_scope.
Open Scope list_scope.

(** JavaScript truthiness of a string: only the empty string is falsy. *)
Definition truthy (s : string) : bool :=
  match s with
  | EmptyString => false
  | String _ _ => true
  end.

(** The names of the properties of [Object.prototype].  A lookup
    [object[key]] of such a key on an object without an own property [key]
    finds the inherited property: a function, or for [__proto__] the
    prototype itself; all of them are truthy, and none has a property
    [password], [checkins] or [push]. *)
Definition inherited (key : string) : bool :=
  bool_decide
    (key ∈ ["constructor"; "__defineGetter__"; "__defineSetter__";
             "hasOwnProperty"; "__lookupGetter__"; "__lookupSetter__";
             "isPrototypeOf"; "propertyIsEnumerable"; "toString"; "valueOf";
             "__proto__"; "toLocaleString"]).

(** A day's value as it occurs in JSON data: the canonical array of
    activity codes, or the legacy single bare code. *)
Inductive day_value :=
| Legacy (code : string)
| Activities (codes : list string).

(** [Array.isArray(activities) ? activities : [activities]] *)
Definition activityArray (activities : day_value) : list string :=
  match activities with
  | Activities codes => codes
  | Legacy code => [code]
  end.

(** ** JSON documents *)

(** The object kept for one user, [{ password, checkins }], where
    [checkins] maps a date to the day's value.  [V] is [list string] for
    the objects the server assembles and [day_value] for documents that
    may hold legacy values. *)
Module Data.

Record user_data (V : Type) := UserData {
  password : string;
  checkins : gmap string V
}.
Arguments UserData {V} password checkins.
Arguments password {V} u.
Arguments checkins {V} u.

End Data.

(** A user object as it arrives in the body of an import request: either
    field may be missing. *)
Module Body.

Record user_data := UserData {
  password : option string;
  checkins : option (gmap string day_value)
}.

End Body.

(** ** The relational store *)

Module Server.

(** A row of [checkins(id, username, date, activity)].  The [id] column is
    never selected; the position of a row in the table stands for it. *)
Record checkin_row := Checkin {
  username : string;
  date : string;
  activity : string
}.

#[global] Instance checkin_row_eq_dec : EqDecision checkin_row :=
  ltac:(solve_decision).

(** [users(username TEXT PRIMARY KEY, password TEXT NOT NULL)] is a finite
    map from the key to the password; [checkins] is the list of its rows
    in insertion order. *)
Record tables := Tables {
  users : gmap string string;
  checkins : list checkin_row
}.

Definition empty_tables : tables := Tables ∅ [].

(** What a handler's [catch] receives: an error thrown by the driver, or
    a [TypeError] of the handler's own code. *)
Inductive exn :=
| NotNullViolation
| PrimaryKeyViolation
| ForeignKeyViolation
| StoreFault
| TypeError.

(** A connection: the tables, the tables as they were at [BEGIN] while a
    transaction is open, and the fault schedule ([true]: the store fails
    the statement). *)
Record conn := Conn {
  db : tables;
  saved : option tables;
  faults : list bool
}.

Definition open (t : tables) (fs : list bool) : conn := Conn t None fs.

(** Computations on a connection that may throw. *)
Definition M (A : Type) : Type := conn -> (exn + A) * conn.

Definition ret {A} (a : A) : M A := fun c => (inr a, c).
Definition throw {A} (e : exn) : M A := fun c => (inl e, c).
Definition bind {A B} (m : M A) (k : A -> M B) : M B :=
  fun c =>
    match m c with
    | (inr a, c') => k a c'
    | (inl e, c') => (inl e, c')
    end.
Definition try_catch {A} (m : M A) (handler : exn -> M A) : M A :=
  fun c =>
    match m c with
    | (inr a, c') => (inr a, c')
    | (inl e, c') => handler e c'
    end.

Notation "x <- m ;; k" := (bind m (fun x => k))
  (at level 100, m at next level, right associativity).
Notation "m ;;; k" := (bind m (fun _ => k))
  (at level 100, right associativity).

(** [for (const x of xs) { body(x) }] *)
Fixpoint for_of {A} (xs : list A) (body : A -> M unit) : M unit :=
  match xs with
  | [] => ret tt
  | x :: xs' => body x ;;; for_of xs' body
  end.

(** The store takes the next entry of the fault schedule for every
    statement; an exhausted schedule means no more faults. *)
Definition next_fault : M unit :=
  fun c =>
    match faults c with
    | [] => (inr tt, c)
    | false :: fs => (inr tt, Conn (db c) (saved c) fs)
    | true :: fs => (inl StoreFault, Conn (db c) (saved c) fs)
    end.

Definition get_tables : M tables := fun c => (inr (db c), c).
Definition put_tables (t : tables) : M unit :=
  fun c => (inr tt, Conn t (saved c) (faults c)).

(** The statements the handlers send.  A bound parameter is [None] when
    the JavaScript value is [undefined] or [null]. *)
Inductive stmt :=
| InsertUser (u p : option string)
| InsertCheckin (u d a : option string)
| DeleteCheckin (u d a : string)
| DeleteCheckinsOf (u : string)
| DeleteUser (u : string)
| DeleteAllCheckins
| DeleteAllUsers.

(** [WHERE username = ? AND date = ? AND activity = ?] *)
Definition matches (u d a : string) (r : checkin_row) : Prop :=
  username r = u /\ date r = d /\ activity r = a.

#[global] Instance matches_dec u d a r : Decision (matches u d a r) :=
  ltac:(unfold matches; apply _).

(** [WHERE username = ?] *)
Definition belongs_to (u : string) (r : checkin_row) : Prop := username r = u.

#[global] Instance belongs_to_dec u r : Decision (belongs_to u r) :=
  ltac:(unfold belongs_to; apply _).

(** The row references an existing account. *)
Definition has_account (us : gmap string string) (r : checkin_row) : Prop :=
  is_Some (us !! username r).

#[global] Instance has_account_dec us r : Decision (has_account us r) :=
  ltac:(unfold has_account; apply _).

(** The foreign key holds: every check-in row references an account. *)
Definition referential (t : tables) : Prop :=
  Forall (has_account (users t)) (checkins t).

(** The effect of a statement on the tables, with the constraints the
    schema declares: NOT NULL columns, the primary key of [users], and the
    foreign key of [checkins.username] with ON DELETE CASCADE.  Both
    engines enforce the foreign key: PostgreSQL always, and the SQLite
    that better-sqlite3 ships has foreign keys switched on by default. *)
Definition run_stmt (s : stmt) (t : tables) : exn + tables :=
  match s with
  | InsertUser (Some u) (Some p) =>
      match users t !! u with
      | Some _ => inl PrimaryKeyViolation
      | None => inr (Tables (<[u := p]> (users t)) (checkins t))
      end
  | InsertUser _ _ => inl NotNullViolation
  | InsertCheckin (Some u) (Some d) (Some a) =>
      match users t !! u with
      | Some _ => inr (Tables (users t) (checkins t ++ [Checkin u d a]))
      | None => inl ForeignKeyViolation
      end
  | InsertCheckin _ _ _ => inl NotNullViolation
  | DeleteCheckin u d a =>
      inr (Tables (users t)
             (filter (fun r => ~ matches u d a r) (checkins t)))
  | DeleteCheckinsOf u =>
      inr (Tables (users t)
             (filter (fun r => ~ belongs_to u r) (checkins t)))
  | DeleteUser u =>
      inr (Tables (delete u (users t))
             (match users t !! u with
              | Some _ => filter (fun r => ~ belongs_to u r) (checkins t)
              | None => checkins t
              end))
  | DeleteAllCheckins => inr (Tables (users t) [])
  | DeleteAllUsers =>
      inr (Tables ∅
             (filter (fun r => ~ has_account (users t) r) (checkins t)))
  end.

(** [execute(sql, params)] *)
Definition execute (s : stmt) : M unit :=
  next_fault ;;;
  t <- get_tables ;;
  match run_stmt s t with
  | inl e => throw e
  | inr t' => put_tables t'
  end.

(** [query('SELECT username, password FROM users')] *)
Definition query_users : M (list (string * string)) :=
  next_fault ;;;
  t <- get_tables ;;
  ret (map_to_list (users t)).

(** [query('SELECT username, date, activity FROM checkins')] *)
Definition query_checkins : M (list checkin_row) :=
  next_fault ;;;
  t <- get_tables ;;
  ret (checkins t).

(** [queryOne('SELECT * FROM users WHERE username = ?', [username])] *)
Definition queryOne_user (u : string) : M (option string) :=
  next_fault ;;;
  t <- get_tables ;;
  ret (users t !! u).

(** [queryOne('SELECT * FROM checkins WHERE username = ? AND date = ? AND
    activity = ?', ...)]: the first matching row, if any. *)
Definition queryOne_checkin (u d a : string) : M (option checkin_row) :=
  next_fault ;;;
  t <- get_tables ;;
  ret (head (filter (matches u d a) (checkins t))).

(** Transaction control.  [BEGIN] remembers the tables, [ROLLBACK] puts
    them back, [COMMIT] forgets them.  [BEGIN] and [COMMIT] can be failed
    by the store like any statement, and then do nothing; [ROLLBACK] is the
    store's atomicity primitive and always takes effect. *)
Definition begin_transaction : M unit :=
  next_fault ;;;
  fun c => (inr tt, Conn (db c) (Some (db c)) (faults c)).
Definition commit : M unit :=
  next_fault ;;;
  fun c => (inr tt, Conn (db c) None (faults c)).
Definition rollback : M unit :=
  fun c =>
    (inr tt, Conn (match saved c with Some t => t | None => db c end)
               None (faults c)).

(** ** Responses *)

(** What a handler answers: the JSON body of a 200, or one of the error
    answers.  [InvalidInput] is the 400 for a missing field, [Conflict]
    the 400 for a check-in that exists already, [InvalidCredential] the
    401, [StoreFailure] the 500 of the [catch] blocks. *)
Inductive response (A : Type) :=
| Json (body : A)
| InvalidInput
| Conflict
| InvalidCredential
| StoreFailure (e : exn).
Arguments Json {A} body.
Arguments InvalidInput {A}.
Arguments Conflict {A}.
Arguments InvalidCredential {A}.
Arguments StoreFailure {A} e.

(** [{ success: true }] *)
Inductive success := Success.

(** [try { ... } catch (error) { res.status(500).json(...) }] around a
    handler body that computes its answer. *)
Definition handle {A} (body : M (response A)) : conn -> response A * conn :=
  fun c =>
    match body c with
    | (inr r, c') => (r, c')
    | (inl e, c') => (StoreFailure e, c')
    end.

(** ** Handlers *)

(** [app.post('/api/login')] *)
Definition post_login (username password : string)
  : conn -> response success * conn :=
  if negb (truthy username) || negb (truthy password) then
    fun c => (InvalidInput, c)
  else
    handle (
      user <- queryOne_user username ;;
      match user with
      | Some stored =>
          if bool_decide (stored = password) then ret (Json Success)
          else ret InvalidCredential
      | None =>
          execute (InsertUser (Some username) (Some password)) ;;;
          ret (Json Success)
      end).

(** [app.post('/api/checkin')] *)
Definition post_checkin (username date activity : string)
  : conn -> response success * conn :=
  if negb (truthy username) || negb (truthy date) || negb (truthy activity)
  then fun c => (InvalidInput, c)
  else
    handle (
      existing <- queryOne_checkin username date activity ;;
      match existing with
      | Some _ => ret Conflict
      | None =>
          execute (InsertCheckin (Some username) (Some date) (Some activity)) ;;;
          ret (Json Success)
      end).

(** [app.delete('/api/checkin')] *)
Definition delete_checkin (username date activity : string)
  : conn -> response success * conn :=
  if negb (truthy username) || negb (truthy date) || negb (truthy activity)
  then fun c => (InvalidInput, c)
  else
    handle (
      execute (DeleteCheckin username date activity) ;;;
      ret (Json Success)).

(** [app.delete('/api/user/:username')] *)
Definition delete_user (username : string)
  : conn -> response success * conn :=
  handle (
    execute (DeleteCheckinsOf username) ;;;
    execute (DeleteUser username) ;;;
    ret (Json Success)).

(** The assembly shared by [GET /api/users] and [GET /api/export]: an
    object per account row, then every check-in row pushed onto the array
    of its user and date when [usersData[checkin.username]] is truthy.

    [usersData] starts as [{}]: besides its own properties it has a
    prototype.  The assignment [usersData['__proto__'] = {...}] creates no
    property: it makes the assigned object the prototype of [usersData]. *)
Record assembly := Assembly {
  own : gmap string (Data.user_data (list string));
  prototype : option (Data.user_data (list string))
}.

Definition init_user (usersData : assembly) (user : string * string)
  : assembly :=
  if bool_decide (user.1 = "__proto__")
  then Assembly (own usersData) (Some (Data.UserData user.2 ∅))
  else Assembly (<[user.1 := Data.UserData user.2 ∅]> (own usersData))
         (prototype usersData).

(** [if (!checkins[date]) checkins[date] = []; checkins[date].push(activity)]
    on the object [checkins]; [None] when it throws: for a date that
    [checkins] does not have but inherits, the inherited property is truthy
    and has no [push]. *)
Definition push_day (checkins : gmap string (list string))
    (date activity : string) : option (gmap string (list string)) :=
  match checkins !! date with
  | Some activities => Some (<[date := activities ++ [activity]]> checkins)
  | None =>
      if inherited date then None
      else Some (<[date := [activity]]> checkins)
  end.

(** The callback of [checkins.forEach]; [None] when it throws a
    [TypeError].  [usersData[checkin.username]] is the own property if
    there is one; otherwise, when the prototype was replaced, the replacing
    object itself for [__proto__] and its [password] and [checkins] for
    these two names; otherwise the inherited property of
    [Object.prototype], whose [checkins] is [undefined].

    One path ends in an array: for a row of an unregistered user
    [checkins] after a row of the user [__proto__] dated [checkins], the
    lookup [usersData.checkins.checkins[checkin.date]] is a lookup on the
    array of that day.  There the chain is followed to [Object.prototype]
    as everywhere else (for [__proto__] it finds the array's prototype,
    which has a [push]), but not into the array's own indices and
    [length] or the methods of [Array.prototype], which differ between
    engines.  The own properties of [usersData], which are all that is
    sent, do not depend on this path. *)
Definition push_checkin (usersData : assembly) (checkin : checkin_row)
  : option assembly :=
  match own usersData !! username checkin with
  | Some userData =>
      match push_day (Data.checkins userData) (date checkin)
              (activity checkin) with
      | Some days =>
          Some (Assembly
                  (<[username checkin :=
                       Data.UserData (Data.password userData) days]>
                     (own usersData))
                  (prototype usersData))
      | None => None
      end
  | None =>
      match prototype usersData with
      | Some replaced =>
          if bool_decide (username checkin = "__proto__") then
            match push_day (Data.checkins replaced) (date checkin)
                    (activity checkin) with
            | Some days =>
                Some (Assembly (own usersData)
                        (Some (Data.UserData (Data.password replaced) days)))
            | None => None
            end
          else if bool_decide (username checkin = "password") then
            if truthy (Data.password replaced) then None else Some usersData
          else if bool_decide (username checkin = "checkins") then
            match Data.checkins replaced !! "checkins" with
            | Some _ =>
                if inherited (date checkin)
                   && negb (bool_decide (date checkin = "__proto__"))
                then None else Some usersData
            | None => None
            end
          else if inherited (username checkin) then None
          else Some usersData
      | None =>
          if inherited (username checkin) then None else Some usersData
      end
  end.

(** [usersData] after the two loops, if the second did not throw. *)
Definition assembling (users : list (string * string))
    (checkins : list checkin_row) : option assembly :=
  foldl (fun acc checkin =>
           match acc with
           | Some usersData => push_checkin usersData checkin
           | None => None
           end)
    (Some (foldl init_user (Assembly ∅ None) users)) checkins.

(** What [res.json(usersData)] sends: the own properties. *)
Definition assemble (users : list (string * string))
    (checkins : list checkin_row)
  : option (gmap string (Data.user_data (list string))) :=
  own <$> assembling users checkins.

(** What the assembly amounts to for one user: the activities of the
    user's rows, by date, in row order. *)
Definition push_activity (days : gmap string (list string))
    (r : checkin_row) : gmap string (list string) :=
  <[date r := default [] (days !! date r) ++ [activity r]]> days.

Definition by_date (rows : list checkin_row) : gmap string (list string) :=
  foldl push_activity ∅ rows.

(** An object per account with the account's rows by date, and what a
    snapshot holds whenever the assembly does not throw: these objects
    except one for a user named [__proto__]. *)
Definition grouped (us : gmap string string) (rows : list checkin_row)
  : gmap string (Data.user_data (list string)) :=
  map_imap
    (fun u p => Some (Data.UserData p (by_date (filter (belongs_to u) rows))))
    us.

Definition snapshot_of (t : tables)
  : gmap string (Data.user_data (list string)) :=
  delete "__proto__" (grouped (users t) (checkins t)).

(** Tables on which no lookup of the assembly finds an inherited
    property: no account is named [__proto__], no row is dated with the
    name of a property of [Object.prototype], and a row whose user is
    named like one has an account. *)
Definition plain (t : tables) : Prop :=
  users t !! "__proto__" = None /\
  Forall (fun r =>
            inherited (date r) = false /\
            (inherited (username r) = true -> has_account (users t) r))
    (checkins t).

(** [app.get('/api/users')]: the [catch] answers 500 when the assembly
    throws. *)
Definition get_users
  : conn -> response (gmap string (Data.user_data (list string))) * conn :=
  handle (
    users <- query_users ;;
    checkins <- query_checkins ;;
    match assemble users checkins with
    | Some usersData => ret (Json usersData)
    | None => throw TypeError
    end).

(** [app.get('/api/export')] *)
Definition get_export
  : conn -> response (gmap string (Data.user_data (list string))) * conn :=
  handle (
    users <- query_users ;;
    checkins <- query_checkins ;;
    match assemble users checkins with
    | Some usersData => ret (Json usersData)
    | None => throw TypeError
    end).

(** The statements of an import between [BEGIN] and [COMMIT]. *)
Definition import_checkins (username : string)
    (checkins : gmap string day_value) : M unit :=
  for_of (map_to_list checkins) (fun '(date, activities) =>
    for_of (activityArray activities) (fun activity =>
      execute (InsertCheckin (Some username) (Some date) (Some activity)))).

Definition import_user (entry : string * Body.user_data) : M unit :=
  let '(username, userData) := entry in
  execute (InsertUser (Some username) (Body.password userData)) ;;;
  match Body.checkins userData with
  | Some checkins => import_checkins username checkins
  | None => ret tt
  end.

Definition import_statements (usersData : gmap string Body.user_data) : M unit :=
  execute DeleteAllCheckins ;;;
  execute DeleteAllUsers ;;;
  for_of (map_to_list usersData) import_user.

(** [app.post('/api/import')]: both the PostgreSQL and the SQLite branch
    send this sequence. *)
Definition post_import (usersData : gmap string Body.user_data)
  : conn -> response success * conn :=
  handle (
    begin_transaction ;;;
    try_catch
      (import_statements usersData ;;; commit)
      (fun error => rollback ;;; throw error) ;;;
    ret (Json Success)).

(** The same handler in the SQLite-only server: one [try] around
    [BEGIN] ... [COMMIT], with [ROLLBACK] in its [catch]. *)
Definition post_import_sqlite (usersData : gmap string Body.user_data)
  : conn -> response success * conn :=
  fun c =>
    match (begin_transaction ;;; import_statements usersData ;;; commit) c with
    | (inr _, c') => (Json Success, c')
    | (inl e, c') => (StoreFailure e, snd (rollback c'))
    end.

(** The rows an import inserts for one user and for a whole body, in the
    order of the inserts. *)
Definition day_rows (username : string) (day : string * day_value)
  : list checkin_row :=
  Checkin username day.1 <$> activityArray day.2.

Definition user_rows (entry : string * Body.user_data) : list checkin_row :=
  match Body.checkins entry.2 with
  | Some checkins => flat_map (day_rows entry.1) (map_to_list checkins)
  | None => []
  end.

Definition imported (usersData : gmap string Body.user_data) : tables :=
  Tables (omap Body.password usersData)
    (flat_map user_rows (map_to_list usersData)).

(** A body whose import leaves plain tables: no user is named
    [__proto__] and no day is dated with the name of a property of
    [Object.prototype]. *)
Definition plain_body (usersData : gmap string Body.user_data) : Prop :=
  usersData !! "__proto__" = None /\
  forall u ud days d,
    usersData !! u = Some ud -> Body.checkins ud = Some days ->
    is_Some (days !! d) -> inherited d = false.

(** What a client holds after [await response.json()], and what the
    server reads when that document is posted back. *)
Definition to_json (u : Data.user_data (list string)) : Data.user_data day_value :=
  Data.UserData (Data.password u) (Activities <$> Data.checkins u).

Definition as_body (u : Data.user_data day_value) : Body.user_data :=
  Body.UserData (Some (Data.password u)) (Some (Data.checkins u)).

End Server.

(** ** The browser scripts *)

Module Client.
Import Data.

(** [users[currentUser]]: a [null] variable is looked up as the key
    ["null"]. *)
Definition property_key (currentUser : option string) : string :=
  match currentUser with
  | Some u => u
  | None => "null"
  end.

(** [currentCheckins.indexOf(activity)], [None] for [-1]. *)
Fixpoint indexOf (activity : string) (l : list string) : option nat :=
  match l with
  | [] => None
  | x :: l' =>
      if decide (x = activity) then Some 0
      else S <$> indexOf activity l'
  end.

(** [getTodayCheckin()], for the users object the script reads (the
    parsed localStorage item, or the cache of [GET /api/users]), a current
    user that is stored in it or is not named like a property of
    [Object.prototype], and the key [today] that [getTodayString] builds
    (the functions below take [today] the same way; a date key is never
    such a name). *)
Definition getTodayCheckin (users : gmap string (user_data day_value))
    (currentUser : option string) (today : string) : list string :=
  match users !! property_key currentUser with
  | Some userData =>
      match checkins userData !! today with
      | Some (Legacy code) => [code]
      | Some (Activities codes) => codes
      | None => []
      end
  | None => []
  end.

(** The activities [renderCalendar] draws icons for in the cell of
    [dateString]. *)
Definition calendarActivities (users : gmap string (user_data day_value))
    (currentUser : option string) (dateString : string) : list string :=
  match users !! property_key currentUser with
  | Some userData =>
      match checkins userData !! dateString with
      | Some (Legacy code) => if truthy code then [code] else []
      | Some (Activities codes) => codes
      | None => []
      end
  | None => []
  end.

(** The activities [toggleUserDetail] lists for [date] in the history of a
    user; [date] ranges over the keys of the user's mapping. *)
Definition historyActivities (userData : user_data day_value)
    (date : string) : list string :=
  match checkins userData !! date with
  | Some (Legacy code) => [code]
  | Some (Activities codes) => codes
  | None => []
  end.

(** The entry [updateTodayActivity] pushes for one user, if any. *)
Definition todayEntry (today : string)
    (entry : string * user_data day_value) : list (string * list string) :=
  match checkins entry.2 !! today with
  | Some (Legacy code) =>
      if truthy code then [(entry.1, [code])] else []
  | Some (Activities codes) =>
      if bool_decide (0 < length codes) then [(entry.1, codes)] else []
  | None => []
  end.

(** No user has a day whose value is the empty array. *)
Definition no_empty_day (users : gmap string (user_data day_value)) : Prop :=
  forall u userData d,
    users !! u = Some userData ->
    checkins userData !! d <> Some (Activities []).

Section Feed.

(** [String.prototype.localeCompare]: negative, zero or positive. *)
Variable localeCompare : string -> string -> Z.

Definition feed_le (a b : string * list string) : Prop :=
  (localeCompare a.1 b.1 <= 0)%Z.

#[local] Instance feed_le_dec a b : Decision (feed_le a b) :=
  ltac:(unfold feed_le; apply _).

(** [updateTodayActivity()]: the array [todayCheckins] after
    [todayCheckins.sort((a, b) => a.username.localeCompare(b.username))],
    with a merge sort standing for [Array.prototype.sort]. *)
Definition updateTodayActivity (users : gmap string (user_data day_value))
    (today : string) : list (string * list string) :=
  merge_sort feed_le (flat_map (todayEntry today) (map_to_list users)).

End Feed.

(** *** The browser-local variant: everything lives in localStorage *)

Module Local.

(** The localStorage items ['users'] and ['currentUser'], and the script's
    variable [currentUser]. *)
Record browser := Browser {
  item_users : option (gmap string (user_data day_value));
  item_currentUser : option string;
  currentUser : option string
}.

(** [JSON.parse(localStorage.getItem('users') || '{}')] *)
Definition load_users (b : browser) : gmap string (user_data day_value) :=
  match item_users b with
  | Some users => users
  | None => ∅
  end.

(** [localStorage.setItem('users', JSON.stringify(users))] *)
Definition store_users (users : gmap string (user_data day_value))
    (b : browser) : browser :=
  Browser (Some users) (item_currentUser b) (currentUser b).

Definition logout (b : browser) : browser :=
  Browser (item_users b) None None.

Definition login (hashPassword : string -> string)
    (username password : string) (b : browser) : browser :=
  if negb (truthy username) || negb (truthy password) then b
  else
    let hashedPassword := hashPassword password in
    let users := load_users b in
    match users !! username with
    | Some userData =>
        if bool_decide (Data.password userData = hashedPassword)
        then Browser (item_users b) (Some username) (Some username)
        else b
    | None =>
        if inherited username then
          (* [users[username]] is the inherited property: it is truthy and
             its [password] is [undefined], so the password is incorrect *)
          b
        else
          Browser (Some (<[username := UserData hashedPassword ∅]> users))
            (Some username) (Some username)
    end.

Definition toggleCheckin (today activity : string) (b : browser) : browser :=
  let users := load_users b in
  match users !! property_key (currentUser b) with
  | None =>
      if inherited (property_key (currentUser b)) then
        (* [users[currentUser]] is the inherited property: its [checkins]
           is [undefined] and the function throws before it writes *)
        b
      else logout b
  | Some userData =>
      let currentCheckins :=
        match checkins userData !! today with
        | Some (Legacy code) => [code]
        | Some (Activities codes) => codes
        | None => []
        end in
      let currentCheckins :=
        match indexOf activity currentCheckins with
        | Some index => delete index currentCheckins
        | None => currentCheckins ++ [activity]
        end in
      let days :=
        if bool_decide (length currentCheckins = 0)
        then delete today (checkins userData)
        else <[today := Activities currentCheckins]> (checkins userData) in
      store_users
        (<[property_key (currentUser b) :=
             UserData (Data.password userData) days]> users) b
  end.

Definition deleteUser (username : string) (b : browser) : browser :=
  let b' := store_users (delete username (load_users b)) b in
  if bool_decide (currentUser b = Some username) then logout b' else b'.

(** [exportData()]: the document written to the download. *)
Definition exportData (b : browser) : gmap string (user_data day_value) :=
  load_users b.

(** [importData(event)], for a file that parses to [importedData] and a
    confirmed dialog. *)
Definition importData (importedData : gmap string (user_data day_value))
    (b : browser) : browser :=
  store_users importedData b.

(** [clearAllData()], both dialogs confirmed. *)
Definition clearAllData (b : browser) : browser :=
  let b' := Browser None None (currentUser b) in
  match currentUser b with
  | Some u => if truthy u then logout b' else b'
  | None => b'
  end.

(** The operations of the page. *)
Inductive op :=
| Login (username password : string)
| Logout
| ToggleCheckin (today activity : string)
| DeleteUser (username : string)
| ImportData (importedData : gmap string (user_data day_value))
| ClearAllData.

Definition step (hashPassword : string -> string) (o : op) (b : browser)
  : browser :=
  match o with
  | Login username password => login hashPassword username password b
  | Logout => logout b
  | ToggleCheckin today activity => toggleCheckin today activity b
  | DeleteUser username => deleteUser username b
  | ImportData importedData => importData importedData b
  | ClearAllData => clearAllData b
  end.

End Local.

(** *** The server-backed variant: a cache of [GET /api/users] *)

Module Remote.

(** The script's variables [usersData] and [currentUser], and the server's
    connection the requests go to. *)
Record page := Page {
  usersData : gmap string (user_data day_value);
  currentUser : option string;
  server : Server.conn
}.

Definition is_ok {A} (r : Server.response A) : bool :=
  match r with
  | Server.Json _ => true
  | _ => false
  end.

(** A missing or [null] field of the request body reads as falsy on the
    server, like the empty string. *)
Definition body_field (v : option string) : string :=
  match v with
  | Some s => s
  | None => ""
  end.

(** [loadUsersData()] *)
Definition loadUsersData (p : page) : page :=
  match Server.get_users (server p) with
  | (Server.Json body, c) => Page (Server.to_json <$> body) (currentUser p) c
  | (_, c) => Page ∅ (currentUser p) c
  end.

Definition logout (p : page) : page :=
  Page ∅ None (server p).

Definition toggleCheckin (today activity : string) (p : page) : page :=
  match usersData p !! property_key (currentUser p) with
  | None =>
      if inherited (property_key (currentUser p)) then
        (* [usersData[currentUser]] is the inherited property: its
           [checkins] is [undefined] and the function throws before it
           sends a request *)
        p
      else logout p
  | Some userData =>
      let currentCheckins :=
        match checkins userData !! today with
        | Some (Legacy code) => [code]
        | Some (Activities codes) => codes
        | None => []
        end in
      match indexOf activity currentCheckins with
      | None =>
          let '(response, c) :=
            Server.post_checkin (body_field (currentUser p)) today activity
              (server p) in
          if negb (is_ok response) then Page (usersData p) (currentUser p) c
          else
            match checkins userData !! today with
            | Some (Legacy (String _ _)) =>
                (* a string has no [push]: the [catch] reports the error
                   and the cache stays as it is *)
                Page (usersData p) (currentUser p) c
            | Some (Activities codes) =>
                Page (<[property_key (currentUser p) :=
                          UserData (Data.password userData)
                            (<[today := Activities (codes ++ [activity])]>
                               (checkins userData))]> (usersData p))
                  (currentUser p) c
            | _ =>
                Page (<[property_key (currentUser p) :=
                          UserData (Data.password userData)
                            (<[today := Activities [activity]]>
                               (checkins userData))]> (usersData p))
                  (currentUser p) c
            end
      | Some index =>
          let '(response, c) :=
            Server.delete_checkin (body_field (currentUser p)) today activity
              (server p) in
          if negb (is_ok response) then Page (usersData p) (currentUser p) c
          else
            let currentCheckins := delete index currentCheckins in
            let days :=
              if bool_decide (length currentCheckins = 0)
              then delete today (checkins userData)
              else <[today := Activities currentCheckins]> (checkins userData) in
            Page (<[property_key (currentUser p) :=
                      UserData (Data.password userData) days]> (usersData p))
              (currentUser p) c
      end
  end.

End Remote.

End Client.

(** ** A model of the platform's collation

    [localeCompare] is supplied by the platform.  On strings of ASCII
    letters and digits the root collation compares the strings with case
    ignored, and only when they are equal that way puts a lower-case
    letter before its upper-case form. *)

Definition is_upper (c : Ascii.ascii) : bool :=
  let n := Ascii.nat_of_ascii c in Nat.leb 65 n && Nat.leb n 90.

Definition fold_case (c : Ascii.ascii) : Ascii.ascii :=
  if is_upper c then Ascii.ascii_of_nat (Ascii.nat_of_ascii c + 32) else c.

Fixpoint primary_key (s : string) : string :=
  match s with
  | EmptyString => EmptyString
  | String c s' => String (fold_case c) (primary_key s')
  end.

Fixpoint tertiary_key (s : string) : string :=
  match s with
  | EmptyString => EmptyString
  | String c s' =>
      String (if is_upper c then "1"%char else "0"%char) (tertiary_key s')
  end.

Definition sign (c : comparison) : Z :=
  match c with
  | Lt => (-1)%Z
  | Eq => 0%Z
  | Gt => 1%Z
  end.

Definition root_collation (a b : string) : Z :=
  match String.compare (primary_key a) (primary_key b) with
  | Eq => sign (String.compare (tertiary_key a) (tertiary_key b))
  | c => sign c
  end.

(** Ascending order of code points, the order of [<] on strings. *)
Definition code_point_le (a b : string) : Prop :=
  String.leb a b = true.

(** ** Example data *)

Definition alice_tables : Server.tables :=
  Server.Tables (<["alice" := "5e884898"]> ∅)
    [Server.Checkin "alice" "2024-03-01" "paper"].

Definition orphan_tables : Server.tables :=
  Server.Tables (<["alice" := "5e884898"]> ∅)
    [Server.Checkin "alice" "2024-03-01" "paper";
     Server.Checkin "ghost" "2024-03-01" "quant"].

Definition constructor_orphan_tables : Server.tables :=
  Server.Tables (<["alice" := "5e884898"]> ∅)
    [Server.Checkin "alice" "2024-03-01" "paper";
     Server.Checkin "constructor" "2024-03-01" "quant"].

Definition bob_body : gmap string Body.user_data :=
  <["bob" := Body.UserData (Some "2bb80d53")
               (Some (<["2024-01-02" := Legacy "fitness"]> ∅))]> ∅.

Definition legacy_users : gmap string (Data.user_data day_value) :=
  <["alice" := Data.UserData "5e884898"
                 (<["2024-03-01" := Legacy "fitness"]> ∅)]> ∅.

Definition mixed_case_users : gmap string (Data.user_data day_value) :=
  <["alice" := Data.UserData "5e884898"
                 (<["2024-03-01" := Activities ["fitness"]]> ∅)]>
    (<["Bob" := Data.UserData "2bb80d53"
                  (<["2024-03-01" := Activities ["paper"; "quant"]]> ∅)]> ∅).

Definition empty_day_users : gmap string (Data.user_data day_value) :=
  <["alice" := Data.UserData "5e884898"
                 (<["2024-03-01" := Activities []]> ∅)]> ∅.

Definition fresh_browser : Client.Local.browser :=
  Client.Local.Browser None None None.

(** ** The API as a whole *)

(** The requests the server answers, and the connection after serving one.
    Each request is served on the tables the previous one left, under its
    own fault schedule. *)
Module Api.
Import Server.

Inductive request :=
| PostLogin (username password : string)
| GetUsers
| PostCheckin (username date activity : string)
| DeleteCheckin (username date activity : string)
| DeleteUser (username : string)
| PostImport (usersData : gmap string Body.user_data)
| GetExport.

Definition serve (r : request) (c : conn) : conn :=
  match r with
  | PostLogin username password => (post_login username password c).2
  | GetUsers => (get_users c).2
  | PostCheckin username date activity =>
      (post_checkin username date activity c).2
  | DeleteCheckin username date activity =>
      (delete_checkin username date activity c).2
  | DeleteUser username => (delete_user username c).2
  | PostImport usersData => (post_import usersData c).2
  | GetExport => (get_export c).2
  end.

(** The tables after a sequence of requests, each with its fault schedule,
    starting from the tables [t]. *)
Definition run (requests : list (request * list bool)) (t : tables) : tables :=
  foldl (fun t rq => db (serve rq.1 (open t rq.2))) t requests.

(** Every array of the body lists an activity at most once. *)
Definition duplicate_free (usersData : gmap string Body.user_data) : Prop :=
  forall u ud days d v,
    usersData !! u = Some ud -> Body.checkins ud = Some days ->
    days !! d = Some v -> NoDup (activityArray v).

Definition imports_duplicate_free (rq : request * list bool) : Prop :=
  match rq.1 with
  | PostImport usersData => duplicate_free usersData
  | _ => True
  end.

End Api.

(** A sequence of requests: a registration, a check-in sent twice, a delete
    whose second statement the store fails, and an import. *)
Definition scenario_requests : list (Api.request * list bool) :=
  [(Api.PostLogin "alice" "5e884898", []);
   (Api.PostCheckin "alice" "2024-03-01" "paper", []);
   (Api.PostCheckin "alice" "2024-03-01" "paper", []);
   (Api.DeleteUser "bob", [false; true]);
   (Api.PostImport bob_body, [])].

(** ** Numbers as strings *)

(** [String(n)] for a natural number, and [n.toString(16)]. *)
Definition decimal (n : nat) : string :=
  DecimalString.NilEmpty.string_of_uint (Nat.to_uint n).

Definition hexadecimal (n : nat) : string :=
  HexadecimalString.NilEmpty.string_of_uint (Nat.to_hex_uint n).

Fixpoint repeat_char (c : Ascii.ascii) (n : nat) : string :=
  match n with
  | 0 => EmptyString
  | S n' => String c (repeat_char c n')
  end.

(** [s.padStart(targetLength, c)] for a pad string of one character. *)
Definition padStart (targetLength : nat) (c : Ascii.ascii) (s : string)
  : string :=
  String.append (repeat_char c (targetLength - String.length s)) s.

(** ** Placeholders of the SQL text *)

Module Sql.

(** [sql.replace(/\?/g, () => `$${index++}`)] from the counter [index]. *)
Fixpoint replace_placeholders (index : nat) (sql : string) : string :=
  match sql with
  | EmptyString => EmptyString
  | String c rest =>
      if Ascii.eqb c "?"%char then
        String "$"%char
          (String.append (decimal index)
             (replace_placeholders (S index) rest))
      else String c (replace_placeholders index rest)
  end.

(** [convertSql(sql, params)] *)
Definition convertSql {P : Type} (usePostgres : bool) (sql : string)
    (params : P) : string * P :=
  if negb usePostgres then (sql, params)
  else (replace_placeholders 1 sql, params).

(** The number of [?] in a text. *)
Fixpoint placeholders (sql : string) : nat :=
  match sql with
  | EmptyString => 0
  | String c rest =>
      (if Ascii.eqb c "?"%char then 1 else 0) + placeholders rest
  end.

End Sql.

(** ** Dates as keys *)

Module Dates.

(** What the scripts read off a [Date]: [getFullYear()], [getMonth()]
    (0 to 11) and [getDate()]. *)
Record Date := MkDate {
  getFullYear : nat;
  getMonth : nat;
  getDate : nat
}.

(** [`${year}-${String(month + 1).padStart(2, '0')}-${String(day).padStart(2, '0')}`],
    the key [getTodayString] and [renderCalendar] build. *)
Definition dateString (year month day : nat) : string :=
  String.append (decimal year)
    (String "-"%char
       (String.append (padStart 2 "0"%char (decimal (month + 1)))
          (String "-"%char (padStart 2 "0"%char (decimal day))))).

(** [getTodayString()], for the [Date] that [new Date()] gives. *)
Definition getTodayString (now : Date) : string :=
  dateString (getFullYear now) (getMonth now) (getDate now).

(** A day of the calendar with a four-digit year. *)
Definition valid (d : Date) : Prop :=
  1000 <= getFullYear d < 10 * 1000 /\ getMonth d <= 11 /\
  1 <= getDate d <= 31.

(** The order of the calendar. *)
Definition chronological (a b : Date) : comparison :=
  match Nat.compare (getFullYear a) (getFullYear b) with
  | Eq =>
      match Nat.compare (getMonth a) (getMonth b) with
      | Eq => Nat.compare (getDate a) (getDate b)
      | c => c
      end
  | c => c
  end.

End Dates.

(** ** The digest as a string *)

Module Digest.

(** [hashArray.map(b => b.toString(16).padStart(2, '0')).join('')] *)
Definition hashHex (hashArray : list nat) : string :=
  String.concat "" ((fun b => padStart 2 "0"%char (hexadecimal b)) <$> hashArray).

(** [hashPassword(password)], for the SHA-256 digest the platform
    computes of the encoded password. *)
Definition hashPassword (digest : string -> list nat) (password : string)
  : string :=
  hashHex (digest password).

End Digest.

(** ** The admin panel *)

Module Admin.
Import Data Client.

(** [Object.keys(o)] *)
Definition keys {V : Type} (o : gmap string V) : list string :=
  (map_to_list o).*1.

(** [if (user.checkins[today])]: a missing day and the empty string are
    falsy, an array is truthy even when empty. *)
Definition truthy_day (v : option day_value) : bool :=
  match v with
  | Some (Legacy code) => truthy code
  | Some (Activities _) => true
  | None => false
  end.

(** The three numbers [loadAdminData] shows, for the users object it has
    loaded (the parsed localStorage item, or the cache of
    [GET /api/users]). *)
Record statistics := Statistics {
  totalUsers : nat;
  totalCheckins : nat;
  activeToday : nat
}.

Definition count_user (today : string) (acc : nat * nat)
    (user : user_data day_value) : nat * nat :=
  (acc.1 + length (keys (checkins user)),
   if truthy_day (checkins user !! today) then acc.2 + 1 else acc.2).

Definition loadAdminData (users : gmap string (user_data day_value))
    (today : string) : statistics :=
  let counts := foldl (count_user today) (0, 0) (map_to_list users).*2 in
  Statistics (length (keys users)) counts.1 counts.2.

(** [array.sort()] without a comparator, on strings: ascending order of
    code units, with a merge sort standing for [Array.prototype.sort]. *)
Definition array_sort (l : list string) : list string :=
  merge_sort String.le l.

(** [Object.keys(userData.checkins).sort().pop() || 'Never'] *)
Definition lastCheckin (userData : user_data day_value) : string :=
  match last (array_sort (keys (checkins userData))) with
  | Some date => if truthy date then date else "Never"
  | None => "Never"
  end.

(** The rows [toggleUserDetail] lists: the dates of
    [Object.keys(userData.checkins).sort().reverse()], each with its
    activities. *)
Definition history (userData : user_data day_value)
  : list (string * list string) :=
  (fun date => (date, historyActivities userData date))
    <$> reverse (array_sort (keys (checkins userData))).

End Admin.

(** ** The calendar *)

Module Calendar.
Import Data Client.

(** A cell of the grid below the weekday headers: a day of a neighbouring
    month, or a day of the month shown, with the mark for today and the
    activities whose icons it holds. *)
Inductive cell :=
| OtherMonth (day : nat)
| Day (day : nat) (today : bool) (icons : list string).

(** [renderCalendar()], for the month [month] (0 to 11) of [year]; the
    platform's [Date] supplies the weekday of its first day, its number of
    days and the number of days of the month before.  The last loop does
    not run when [42 - (firstDayWeek + daysInMonth)] is not positive; a
    month has at least 28 days and a week 7, so [prevMonthLastDay - i] is
    a difference of naturals. *)
Definition renderCalendar (users : gmap string (user_data day_value))
    (currentUser : option string) (year month : nat)
    (firstDayWeek daysInMonth prevMonthLastDay : nat) (todayString : string)
  : list cell :=
  ((fun i => OtherMonth (prevMonthLastDay - i)) <$> reverse (seq 0 firstDayWeek))
  ++ ((fun day =>
         Day day
           (bool_decide (Dates.dateString year month day = todayString))
           (calendarActivities users currentUser
              (Dates.dateString year month day)))
        <$> seq 1 daysInMonth)
  ++ (OtherMonth <$> seq 1 (42 - (firstDayWeek + daysInMonth))).

Definition marked_today (c : cell) : bool :=
  match c with
  | Day _ today _ => today
  | OtherMonth _ => false
  end.

End Calendar.

(** ** The server-backed page as a whole *)

Module RemotePage.
Import Data Client Client.Remote.

(** The cache holds the snapshot of the server's tables: what
    [GET /api/users] answers now, if it answers with a snapshot. *)
Definition in_sync (p : page) : Prop :=
  usersData p = Server.to_json <$> Server.snapshot_of (Server.db (server p)).

(** [login()] of the server-backed script; [username] is the trimmed
    field. *)
Definition login (hashPassword : string -> string)
    (username password : string) (p : page) : page :=
  if negb (truthy username) || negb (truthy password) then p
  else
    let hashedPassword := hashPassword password in
    let '(response, c) :=
      Server.post_login username hashedPassword (server p) in
    if is_ok response then
      loadUsersData (Page (usersData p) (Some username) c)
    else Page (usersData p) (currentUser p) c.

(** [clearAllData()] of the server-backed script, both dialogs
    confirmed. *)
Definition clearAllData (p : page) : page :=
  let '(response, c) := Server.post_import ∅ (server p) in
  if is_ok response then
    let p' := loadUsersData (Page ∅ (currentUser p) c) in
    match currentUser p' with
    | Some u => if truthy u then logout p' else p'
    | None => p'
    end
  else Page (usersData p) (currentUser p) c.

End RemotePage.

(** * Properties of the server *)

Import Server.

(** Runs a handler made of plain statements on an explicit connection. *)
Ltac run_statements :=
  unfold handle, bind, open, execute, bind, next_fault, get_tables,
    put_tables, ret, throw.

(** ** Statements and the assembly of the snapshot *)

Lemma execute_eq s c :
  execute s c =
  match faults c with
  | true :: fs => (inl StoreFault, Conn (db c) (saved c) fs)
  | fs =>
      match run_stmt s (db c) with
      | inl e => (inl e, Conn (db c) (saved c) (tail fs))
      | inr t' => (inr tt, Conn t' (saved c) (tail fs))
      end
  end.
Proof.
  destruct c as [t sv [|[] fs]];
    unfold execute, bind, next_fault, get_tables; simpl;
    try reflexivity; destruct (run_stmt s t); reflexivity.
Qed.

Lemma queryOne_checkin_eq u d a c :
  queryOne_checkin u d a c =
  match faults c with
  | true :: fs => (inl StoreFault, Conn (db c) (saved c) fs)
  | fs =>
      (inr (head (filter (matches u d a) (checkins (db c)))),
       Conn (db c) (saved c) (tail fs))
  end.
Proof. by destruct c as [t sv [|[] fs]]. Qed.

Lemma insert_checkin_ok u d a c c' :
  execute (InsertCheckin (Some u) (Some d) (Some a)) c = (inr tt, c') ->
  is_Some (users (db c) !! u) /\
  db c' = Tables (users (db c)) (checkins (db c) ++ [Checkin u d a]).
Proof.
  rewrite execute_eq. simpl.
  destruct (faults c) as [|[] fs]; try done;
    (destruct (users (db c) !! u); [|done]); intros [= <-]; eauto.
Qed.

Lemma by_date_snoc rows r :
  by_date (rows ++ [r]) = push_activity (by_date rows) r.
Proof. unfold by_date. by rewrite foldl_app. Qed.

Lemma grouped_lookup (us : gmap string string) rows u :
  grouped us rows !! u
  = (fun p => Data.UserData p (by_date (filter (belongs_to u) rows)))
      <$> us !! u.
Proof. unfold grouped. rewrite map_lookup_imap. by destruct (us !! u). Qed.

Lemma snapshot_of_lookup t u :
  snapshot_of t !! u
  = (fun p => Data.UserData p (by_date (filter (belongs_to u) (checkins t))))
      <$> delete "__proto__" (users t) !! u.
Proof.
  unfold snapshot_of. destruct (decide ("__proto__" = u)) as [<-|Hne].
  - by rewrite !lookup_delete_eq.
  - rewrite !lookup_delete_ne by done. apply grouped_lookup.
Qed.

(** The first loop: an own property per account, except for [__proto__],
    which becomes the prototype. *)
Lemma init_users_spec (us : gmap string string) :
  (forall u,
     own (foldl init_user (Assembly ∅ None) (map_to_list us)) !! u
     = (fun p => Data.UserData p ∅) <$> delete "__proto__" us !! u) /\
  prototype (foldl init_user (Assembly ∅ None) (map_to_list us))
  = (fun p => Data.UserData p ∅) <$> us !! "__proto__".
Proof.
  assert (G : forall (l : list (string * string)) acc,
    NoDup l.*1 ->
    (forall u,
       own (foldl init_user acc l) !! u =
       match delete "__proto__" (list_to_map l : gmap string string) !! u with
       | Some p => Some (Data.UserData p ∅)
       | None => own acc !! u
       end) /\
    prototype (foldl init_user acc l) =
    match (list_to_map l : gmap string string) !! "__proto__" with
    | Some p => Some (Data.UserData p ∅)
    | None => prototype acc
    end).
  { induction l as [|[u1 p1] l IH]; intros acc Hnd.
    - split; [|done]. intros u. simpl.
      by rewrite delete_empty, lookup_empty.
    - inversion Hnd as [|? ? Hnotin Hnd']; subst.
      cbn [foldl]. destruct (IH (init_user acc (u1, p1)) Hnd') as [IH1 IH2].
      cbn [list_to_map foldr]. split.
      + intros u. rewrite IH1. clear IH1 IH2.
        unfold init_user. cbn [fst snd].
        destruct (decide ("__proto__" = u)) as [<-|Hu].
        { rewrite !lookup_delete_eq. case_bool_decide as H1; cbn [own];
            [done|]. by rewrite lookup_insert_ne. }
        rewrite !lookup_delete_ne by done.
        destruct (decide (u1 = u)) as [->|Hne].
        * rewrite lookup_insert_eq.
          rewrite (not_elem_of_list_to_map_1 (M := gmap string)) by done.
          rewrite bool_decide_false by done. cbn [own].
          by rewrite lookup_insert_eq.
        * rewrite (lookup_insert_ne _ u1 u) by done.
          destruct (list_to_map l !! u); [done|].
          case_bool_decide; cbn [own]; [done|].
          by rewrite lookup_insert_ne.
      + rewrite IH2. clear IH1 IH2. unfold init_user. cbn [fst snd].
        destruct (decide (u1 = "__proto__")) as [->|Hne].
        * rewrite lookup_insert_eq.
          rewrite (not_elem_of_list_to_map_1 (M := gmap string)) by done.
          by rewrite bool_decide_true.
        * rewrite lookup_insert_ne by done.
          destruct (list_to_map l !! "__proto__"); [done|].
          by rewrite bool_decide_false. }
  destruct (G (map_to_list us) (Assembly ∅ None))
    as [G1 G2]; [apply NoDup_fst_map_to_list|].
  rewrite list_to_map_to_list in *. split.
  - intros u. rewrite G1. cbn [own]. rewrite lookup_empty.
    by destruct (delete "__proto__" us !! u).
  - rewrite G2. by destruct (us !! "__proto__").
Qed.

Lemma assembling_snoc us rows r :
  assembling us (rows ++ [r])
  = match assembling us rows with
    | Some usersData => push_checkin usersData r
    | None => None
    end.
Proof. unfold assembling. by rewrite foldl_app. Qed.

Lemma push_day_Some days r days' :
  push_day days (date r) (activity r) = Some days' ->
  days' = push_activity days r /\
  (days !! date r = None -> inherited (date r) = false).
Proof.
  unfold push_day, push_activity.
  destruct (days !! date r) as [l|]; simpl.
  - by intros [= <-].
  - destruct (inherited (date r)); [done|]. by intros [= <-].
Qed.

Lemma push_day_plain days d a :
  inherited d = false -> is_Some (push_day days d a).
Proof.
  intros Hd. unfold push_day. rewrite Hd. destruct (days !! d); eauto.
Qed.

(** A row of a user without an own property changes no own property. *)
Lemma push_checkin_not_own st r st' :
  own st !! username r = None -> push_checkin st r = Some st' ->
  own st' = own st.
Proof.
  unfold push_checkin. intros ->.
  destruct (prototype st) as [replaced|].
  - destruct (bool_decide (username r = "__proto__")).
    { destruct (push_day _ _ _); [|done]. by intros [= <-]. }
    destruct (bool_decide (username r = "password")).
    { destruct (truthy _); [done|]. by intros [= <-]. }
    destruct (bool_decide (username r = "checkins")).
    { destruct (Data.checkins replaced !! "checkins"); [|done].
      destruct (_ && _); [done|]. by intros [= <-]. }
    destruct (inherited _); [done|]. by intros [= <-].
  - destruct (inherited _); [done|]. by intros [= <-].
Qed.

(** What the own properties hold whenever the assembly does not throw,
    and that no date was added that is the name of an inherited
    property. *)
Lemma assembling_own (us : gmap string string) rows st :
  assembling (map_to_list us) rows = Some st ->
  (forall u,
     own st !! u
     = (fun p => Data.UserData p (by_date (filter (belongs_to u) rows)))
         <$> delete "__proto__" us !! u) /\
  (forall u userData d,
     own st !! u = Some userData ->
     is_Some (Data.checkins userData !! d) -> inherited d = false).
Proof.
  revert st. induction rows as [|r rows IH] using rev_ind; intros st.
  - unfold assembling. cbn [foldl]. intros [= <-].
    destruct (init_users_spec us) as [H1 _]. split.
    + intros u. rewrite H1. by destruct (delete "__proto__" us !! u).
    + intros u userData d. rewrite H1.
      destruct (delete "__proto__" us !! u); simpl; [|done].
      intros [= <-]. simpl. rewrite lookup_empty. by intros [? [=]].
  - rewrite assembling_snoc.
    destruct (assembling (map_to_list us) rows) as [st0|]; [|done].
    destruct (IH st0 eq_refl) as [IH1 IH2]. intros Hpush.
    destruct (own st0 !! username r) as [userData|] eqn:Eown.
    + revert Hpush. unfold push_checkin. rewrite Eown.
      destruct (push_day (Data.checkins userData) (date r) (activity r))
        as [days|] eqn:Eday; [|done].
      intros [= <-]. cbn [own].
      apply push_day_Some in Eday as [-> Hnew]. split.
      * intros u. rewrite filter_app.
        destruct (decide (username r = u)) as [<-|Hu].
        -- rewrite lookup_insert_eq.
           rewrite (filter_cons_True (belongs_to (username r))) by done.
           rewrite filter_nil, by_date_snoc.
           rewrite IH1 in Eown.
           destruct (delete "__proto__" us !! username r); [|done].
           simpl in *. by injection Eown as <-.
        -- rewrite lookup_insert_ne by done.
           rewrite (filter_cons_False (belongs_to u)) by done.
           rewrite filter_nil, app_nil_r. apply IH1.
      * intros u ud d.
        destruct (decide (username r = u)) as [<-|Hu].
        -- rewrite lookup_insert_eq. intros [= <-]. cbn [Data.checkins].
           unfold push_activity.
           destruct (decide (date r = d)) as [<-|Hd].
           ++ intros _.
              destruct (Data.checkins userData !! date r) eqn:E;
                [|by apply Hnew].
              apply (IH2 (username r) userData (date r)); [done|].
              rewrite E. eauto.
           ++ rewrite lookup_insert_ne by done.
              by apply (IH2 (username r)).
        -- rewrite lookup_insert_ne by done. apply IH2.
    + rewrite (push_checkin_not_own st0 r st Eown Hpush). split; [|done].
      intros u. rewrite filter_app.
      destruct (decide (username r = u)) as [<-|Hu].
      * rewrite IH1 in *.
        by destruct (delete "__proto__" us !! username r).
      * rewrite (filter_cons_False (belongs_to u)) by done.
        rewrite filter_nil, app_nil_r. apply IH1.
Qed.

(** Whenever a snapshot is sent, it is [snapshot_of] the tables. *)
Lemma assemble_Some (us : gmap string string) rows body :
  assemble (map_to_list us) rows = Some body ->
  body = snapshot_of (Tables us rows) /\
  (forall u userData d,
     body !! u = Some userData ->
     is_Some (Data.checkins userData !! d) -> inherited d = false).
Proof.
  unfold assemble.
  destruct (assembling (map_to_list us) rows) as [st|] eqn:E; [|done].
  intros [= <-]. destruct (assembling_own us rows st E) as [H1 H2].
  split; [|done]. apply map_eq. intros u.
  by rewrite H1, snapshot_of_lookup.
Qed.

(** On plain tables the assembly does not throw. *)
Lemma plain_snoc us rows r :
  plain (Tables us (rows ++ [r])) ->
  plain (Tables us rows) /\ inherited (date r) = false /\
  (inherited (username r) = true -> is_Some (us !! username r)).
Proof.
  intros [Hp Hall]. cbn [users checkins] in *.
  apply Forall_app in Hall as [Hrows Hr].
  apply Forall_singleton in Hr as [Hd Hu]. done.
Qed.

Lemma assembling_plain (us : gmap string string) rows :
  plain (Tables us rows) ->
  exists st, assembling (map_to_list us) rows = Some st /\
             prototype st = None.
Proof.
  induction rows as [|r rows IH] using rev_ind; intros Hplain.
  - eexists. split; [reflexivity|].
    destruct (init_users_spec us) as [_ ->]. destruct Hplain as [Hp _].
    cbn [users] in Hp. by rewrite Hp.
  - apply plain_snoc in Hplain as (Hrows & Hd & Hu).
    destruct (IH Hrows) as (st0 & E & Hproto).
    rewrite assembling_snoc, E. unfold push_checkin.
    destruct (own st0 !! username r) as [userData|] eqn:Eown.
    + destruct (push_day_plain (Data.checkins userData) (date r)
                  (activity r) Hd) as [days ->]. eauto.
    + rewrite Hproto.
      destruct (inherited (username r)) eqn:Ei; [|eauto].
      destruct (Hu eq_refl) as [p Hp].
      destruct (assembling_own us rows st0 E) as [H1 _].
      rewrite H1 in Eown. destruct Hrows as [Hnone _]. cbn [users] in Hnone.
      rewrite lookup_delete_ne, Hp in Eown by congruence. done.
Qed.

Lemma assemble_plain (us : gmap string string) rows :
  plain (Tables us rows) ->
  assemble (map_to_list us) rows = Some (grouped us rows).
Proof.
  intros Hplain. destruct (assembling_plain us rows Hplain) as (st & E & _).
  destruct (assemble (map_to_list us) rows) as [body|] eqn:Eb.
  - apply assemble_Some in Eb as [-> _]. f_equal.
    unfold snapshot_of; cbn [users checkins]. apply delete_id.
    rewrite grouped_lookup. destruct Hplain as [Hp _].
    cbn [users] in Hp. by rewrite Hp.
  - unfold assemble in Eb. by rewrite E in Eb.
Qed.

Lemma by_date_lookup rows d :
  by_date rows !! d =
  match activity <$> filter (fun r => date r = d) rows with
  | [] => None
  | l => Some l
  end.
Proof.
  induction rows as [|r rows IH] using rev_ind; [done|].
  rewrite by_date_snoc, filter_app, fmap_app. unfold push_activity.
  destruct (decide (date r = d)) as [Hd|Hd].
  - rewrite filter_cons_True by done. rewrite filter_nil. subst d.
    rewrite lookup_insert_eq, IH. simpl.
    destruct (activity <$> filter _ rows); done.
  - rewrite filter_cons_False by done. rewrite filter_nil; simpl.
    rewrite app_nil_r. by rewrite lookup_insert_ne.
Qed.

(** ** Adding a check-in *)

Lemma get_users_eq t :
  get_users (open t []) =
  (match assemble (map_to_list (users t)) (checkins t) with
   | Some body => Json body
   | None => StoreFailure TypeError
   end, open t []).
Proof.
  unfold get_users, handle, bind, query_users, query_checkins, bind,
    next_fault, get_tables, ret, open; simpl.
  by destruct (assemble _ _).
Qed.

Lemma get_export_eq t :
  get_export (open t []) =
  (match assemble (map_to_list (users t)) (checkins t) with
   | Some body => Json body
   | None => StoreFailure TypeError
   end, open t []).
Proof.
  unfold get_export, handle, bind, query_users, query_checkins, bind,
    next_fault, get_tables, ret, open; simpl.
  by destruct (assemble _ _).
Qed.

Lemma get_users_plain t :
  plain t ->
  get_users (open t []) = (Json (grouped (users t) (checkins t)), open t []).
Proof.
  intros Hplain. rewrite get_users_eq. destruct t as [us rows].
  by rewrite assemble_plain.
Qed.

Lemma get_export_plain t :
  plain t ->
  get_export (open t []) = (Json (grouped (users t) (checkins t)), open t []).
Proof.
  intros Hplain. rewrite get_export_eq. destruct t as [us rows].
  by rewrite assemble_plain.
Qed.

Lemma get_users_Json t body c :
  get_users (open t []) = (Json body, c) ->
  body = snapshot_of t /\ c = open t [] /\
  get_export (open t []) = (Json body, open t []).
Proof.
  rewrite get_users_eq, get_export_eq.
  destruct (assemble _ _) as [b|] eqn:E; [|done].
  intros [= <- <-]. destruct t as [us rows].
  by apply assemble_Some in E as [-> _].
Qed.

Lemma get_export_Json t body c :
  get_export (open t []) = (Json body, c) ->
  body = snapshot_of t /\ c = open t [] /\
  get_users (open t []) = (Json body, open t []).
Proof.
  rewrite get_users_eq, get_export_eq.
  destruct (assemble _ _) as [b|] eqn:E; [|done].
  intros [= <- <-]. destruct t as [us rows].
  by apply assemble_Some in E as [-> _].
Qed.

Lemma truthy_fields u d a :
  negb (truthy u) || negb (truthy d) || negb (truthy a) = false ->
  truthy u = true /\ truthy d = true /\ truthy a = true.
Proof.
  destruct (truthy u), (truthy d), (truthy a); simpl; intuition congruence.
Qed.

Lemma post_checkin_existing t u d a :
  truthy u = true -> truthy d = true -> truthy a = true ->
  Checkin u d a ∈ checkins t ->
  post_checkin u d a (open t []) = (Conflict, open t []).
Proof.
  intros Hu Hd Ha Hin. unfold post_checkin. rewrite Hu, Hd, Ha; simpl.
  unfold handle, bind. rewrite queryOne_checkin_eq; simpl.
  assert (Hf : Checkin u d a ∈ filter (matches u d a) (checkins t)).
  { apply list_elem_of_filter. split; [by unfold matches|done]. }
  destruct (filter (matches u d a) (checkins t)) as [|r l]; [by inversion Hf|].
  reflexivity.
Qed.

Lemma post_checkin_success c u d a c1 :
  post_checkin u d a c = (Json Success, c1) ->
  truthy u = true /\ truthy d = true /\ truthy a = true /\
  is_Some (users (db c) !! u) /\
  db c1 = Tables (users (db c)) (checkins (db c) ++ [Checkin u d a]).
Proof.
  unfold post_checkin.
  destruct (negb (truthy u) || negb (truthy d) || negb (truthy a)) eqn:E;
    [discriminate|].
  apply truthy_fields in E as (Hu & Hd & Ha).
  unfold handle, bind. rewrite queryOne_checkin_eq.
  set (found := head (filter (matches u d a) (checkins (db c)))).
  assert (G : forall c0, db c0 = db c ->
    match
      match found with
      | Some _ => ret Conflict
      | None =>
          fun c2 =>
            match
              execute (InsertCheckin (Some u) (Some d) (Some a)) c2
            with
            | (inr _, c3) => ret (Json Success) c3
            | (inl e, c3) => (inl e, c3)
            end
      end c0
    with
    | (inr r, c') => (r, c')
    | (inl e, c') => (StoreFailure e, c')
    end = (Json Success, c1) ->
    is_Some (users (db c) !! u) /\
    db c1 = Tables (users (db c)) (checkins (db c) ++ [Checkin u d a])).
  { intros c0 Hc0. destruct found; [done|].
    destruct (execute _ c0) as [[e|[]] c3] eqn:Ex; [done|].
    apply insert_checkin_ok in Ex. rewrite Hc0 in Ex.
    unfold ret. by intros [= <-]. }
  intros H. do 3 (split; [done|]). revert H.
  destruct (faults c) as [|[] fs]; try done; by apply G.
Qed.

Lemma post_checkin_duplicate_unchanged t u d a fs :
  Checkin u d a ∈ checkins t ->
  db (post_checkin u d a (open t fs)).2 = t.
Proof.
  intros Hin. unfold post_checkin.
  destruct (negb (truthy u) || negb (truthy d) || negb (truthy a)); [done|].
  unfold handle, bind, queryOne_checkin, bind, next_fault, get_tables, ret.
  assert (Hf : Checkin u d a ∈ filter (matches u d a) (checkins t)).
  { apply list_elem_of_filter. split; [by unfold matches|done]. }
  destruct fs as [|[] fs]; simpl; try done;
    (destruct (filter (matches u d a) (checkins t)) as [|r l];
       [by inversion Hf|done]).
Qed.

Example post_checkin_without_account :
  post_checkin "bob" "2024-03-01" "fitness" (open alice_tables [])
  = (StoreFailure ForeignKeyViolation, open alice_tables []).
Proof. vm_compute. reflexivity. Qed.

(** C3.  A check-in that is already stored is refused: for a request with
    all three fields present, [POST /api/checkin] for a stored
    (username, date, activity) answers [Conflict] and leaves the connection,
    and so the tables, exactly as they were; in particular the second of
    two identical requests, the first of which succeeded, answers
    [Conflict] and changes nothing. *)
Theorem addCheckin_twice_conflict u d a :
  (forall t, truthy u = true -> truthy d = true -> truthy a = true ->
     Checkin u d a ∈ checkins t ->
     post_checkin u d a (open t []) = (Conflict, open t []))
  /\ (forall c c1, post_checkin u d a c = (Json Success, c1) ->
        post_checkin u d a (open (db c1) []) = (Conflict, open (db c1) [])).
Proof.
  split.
  - intros t. apply post_checkin_existing.
  - intros c c1 H. apply post_checkin_success in H as (Hu & Hd & Ha & _ & Hdb).
    apply post_checkin_existing; try done.
    rewrite Hdb; simpl. apply elem_of_app. right. by apply list_elem_of_singleton.
Qed.

Lemma addCheckin_twice_conflict_witness :
  post_checkin "alice" "2024-03-01" "paper" (open alice_tables [])
  = (Conflict, open alice_tables [])
  /\ post_checkin "alice" "2024-03-01" "fitness"
       (open (Tables (users alice_tables)
                (checkins alice_tables
                 ++ [Checkin "alice" "2024-03-01" "fitness"])) [])
     = (Conflict,
        open (Tables (users alice_tables)
                (checkins alice_tables
                 ++ [Checkin "alice" "2024-03-01" "fitness"])) []).
Proof.
  split.
  - apply (proj1 (addCheckin_twice_conflict "alice" "2024-03-01" "paper")
             alice_tables); try reflexivity.
    apply list_elem_of_singleton. reflexivity.
  - apply (proj2 (addCheckin_twice_conflict "alice" "2024-03-01" "fitness")
             (open alice_tables [])).
    vm_compute. reflexivity.
Defined.

(** A successful [POST /api/checkin] for a date that is not the name of a
    property of [Object.prototype] leaves plain tables plain. *)
Lemma plain_post_checkin c u d a c1 :
  plain (db c) -> inherited d = false ->
  post_checkin u d a c = (Json Success, c1) ->
  plain (db c1).
Proof.
  intros [Hp Hall] Hd H.
  apply post_checkin_success in H as (_ & _ & _ & Hacc & Hdb).
  rewrite Hdb. split; [done|]. cbn [users checkins].
  apply Forall_app. split; [done|]. apply Forall_singleton. done.
Qed.

(** X27.  On plain tables and for a date that is not the name of a
    property of [Object.prototype]: after a successful [POST /api/checkin]
    for (u, d, a), whatever the fault schedule it ran under,
    [GET /api/users] answers a snapshot in which [u] has an object, that
    object's [checkins] has the key [d], and the array at [d] contains
    [a]. *)
Theorem addCheckin_then_getUserCheckins_plain c u d a c1 :
  plain (db c) -> inherited d = false ->
  post_checkin u d a c = (Json Success, c1) ->
  exists body userData activities,
    get_users (open (db c1) []) = (Json body, open (db c1) []) /\
    body !! u = Some userData /\
    Data.checkins userData !! d = Some activities /\
    a ∈ activities.
Proof.
  intros Hplain Hd H.
  pose proof (plain_post_checkin c u d a c1 Hplain Hd H) as Hplain1.
  apply post_checkin_success in H as (_ & _ & _ & [p Hp] & Hdb).
  rewrite (get_users_plain _ Hplain1), Hdb; simpl.
  eexists _, _, _. split; [reflexivity|].
  rewrite grouped_lookup, Hp; simpl. split; [reflexivity|]. simpl.
  rewrite filter_app, (filter_cons_True (belongs_to u)) by done.
  rewrite filter_nil, by_date_snoc. unfold push_activity; simpl.
  rewrite lookup_insert_eq. split; [reflexivity|].
  apply elem_of_app. right. by apply list_elem_of_singleton.
Qed.

Lemma alice_tables_plain : plain alice_tables.
Proof.
  split; [done|]. apply Forall_singleton. split; [done|]. discriminate.
Qed.

Lemma addCheckin_then_getUserCheckins_plain_witness :
  exists body userData activities,
    get_users (open (Tables (users alice_tables)
             (checkins alice_tables ++ [Checkin "alice" "2024-03-01" "fitness"])) [])
    = (Json body, open (Tables (users alice_tables)
             (checkins alice_tables ++ [Checkin "alice" "2024-03-01" "fitness"])) []) /\
    body !! "alice" = Some userData /\
    Data.checkins userData !! "2024-03-01" = Some activities /\
    "fitness" ∈ activities.
Proof.
  apply (addCheckin_then_getUserCheckins_plain (open alice_tables [])
           "alice" "2024-03-01" "fitness").
  - apply alice_tables_plain.
  - reflexivity.
  - vm_compute. reflexivity.
Defined.

(** C8, where the code breaks it.  [POST /api/checkin] of alice for the
    date [constructor] succeeds and stores the row; the assembly of
    [GET /api/users] then finds the inherited [constructor] at
    [checkins[checkin.date]], calls its missing [push], and the handler
    answers 500: the check-in that was added cannot be read.  A user named
    [__proto__] can register and check in, and the snapshot that follows
    has no object for that user at all. *)
Theorem addCheckin_then_getUserCheckins_throws :
  (let c1 := (post_checkin "alice" "constructor" "paper"
                (open alice_tables [])).2 in
   post_checkin "alice" "constructor" "paper" (open alice_tables [])
   = (Json Success, c1) /\
   checkins (db c1)
   = checkins alice_tables ++ [Checkin "alice" "constructor" "paper"] /\
   get_users (open (db c1) [])
   = (StoreFailure TypeError, open (db c1) []))
  /\ (let c0 := (post_login "__proto__" "5e884898"
                   (open empty_tables [])).2 in
      let c1 := (post_checkin "__proto__" "2024-03-01" "paper" c0).2 in
      post_checkin "__proto__" "2024-03-01" "paper" c0 = (Json Success, c1) /\
      checkins (db c1) = [Checkin "__proto__" "2024-03-01" "paper"] /\
      get_users (open (db c1) []) = (Json ∅, open (db c1) [])).
Proof.
  split; (split; [vm_compute; reflexivity|]);
    (split; [vm_compute; reflexivity|]); vm_compute; reflexivity.
Qed.

(** ** Check-ins without an account *)

Lemma grouped_dom (us : gmap string string) rows :
  dom (grouped us rows) = dom us.
Proof.
  apply set_eq. intros u. rewrite !elem_of_dom, grouped_lookup.
  by rewrite fmap_is_Some.
Qed.

Lemma filter_belongs_has_account (us : gmap string string)
    (rows : list checkin_row) u :
  is_Some (us !! u) ->
  filter (belongs_to u) (filter (has_account us) rows)
  = filter (belongs_to u) rows.
Proof.
  intros Hu. induction rows as [|r rows IH]; [done|].
  destruct (decide (belongs_to u r)) as [Hb|Hb].
  - rewrite (filter_cons_True (has_account us)).
    + rewrite !(filter_cons_True (belongs_to u)) by done. by rewrite IH.
    + unfold has_account. unfold belongs_to in Hb. by rewrite Hb.
  - rewrite (filter_cons_False (belongs_to u) r rows) by done.
    destruct (decide (has_account us r)).
    + rewrite (filter_cons_True (has_account us)) by done.
      by rewrite (filter_cons_False (belongs_to u)) by done.
    + by rewrite (filter_cons_False (has_account us)) by done.
Qed.

Lemma plain_without_orphans t :
  plain t ->
  plain (Tables (users t) (filter (has_account (users t)) (checkins t))).
Proof.
  intros [Hp Hall]. split; [done|]. cbn [users checkins].
  rewrite Forall_forall in Hall. apply Forall_forall.
  intros r [_ Hr]%list_elem_of_filter. by apply Hall.
Qed.

(** X28.  For every plain state of the tables, [GET /api/export] and
    [GET /api/users] answer the same snapshot with status 200; its keys are
    exactly the usernames of the account rows; each user's [checkins] are
    the activities of that user's rows by date; and the snapshot is the one
    of the tables with every check-in row that has no account removed:
    such rows are left out without an error. *)
Theorem snapshot_omits_orphans_plain t :
  plain t ->
  exists body,
    get_export (open t []) = (Json body, open t []) /\
    get_users (open t []) = (Json body, open t []) /\
    dom body = dom (users t) /\
    (forall u userData, body !! u = Some userData ->
       users t !! u = Some (Data.password userData) /\
       Data.checkins userData = by_date (filter (belongs_to u) (checkins t))) /\
    get_export (open (Tables (users t)
                        (filter (has_account (users t)) (checkins t))) [])
    = (Json body,
       open (Tables (users t)
               (filter (has_account (users t)) (checkins t))) []).
Proof.
  intros Hplain. exists (grouped (users t) (checkins t)).
  split; [by apply get_export_plain|]. split; [by apply get_users_plain|].
  split; [apply grouped_dom|]. split.
  - intros u userData. rewrite grouped_lookup.
    destruct (users t !! u) as [p|]; simpl; [|done].
    intros [= <-]. done.
  - rewrite get_export_plain by (by apply plain_without_orphans).
    cbn [users checkins]. do 2 f_equal.
    apply map_eq. intros u. rewrite !grouped_lookup.
    destruct (users t !! u) as [p|] eqn:E; simpl; [|done].
    by rewrite filter_belongs_has_account.
Qed.

Lemma orphan_tables_plain : plain orphan_tables.
Proof.
  split; [done|]. repeat constructor; discriminate.
Qed.

Lemma snapshot_omits_orphans_plain_witness :
  exists body,
    get_export (open orphan_tables []) = (Json body, open orphan_tables []) /\
    get_users (open orphan_tables []) = (Json body, open orphan_tables []) /\
    dom body = dom (users orphan_tables) /\
    (forall u userData, body !! u = Some userData ->
       users orphan_tables !! u = Some (Data.password userData) /\
       Data.checkins userData
       = by_date (filter (belongs_to u) (checkins orphan_tables))) /\
    get_export (open (Tables (users orphan_tables)
                        (filter (has_account (users orphan_tables))
                           (checkins orphan_tables))) [])
    = (Json body,
       open (Tables (users orphan_tables)
               (filter (has_account (users orphan_tables))
                  (checkins orphan_tables))) []).
Proof.
  apply (snapshot_omits_orphans_plain orphan_tables).
  apply orphan_tables_plain.
Defined.

Lemma snapshot_omits_orphans_example :
  get_export (open orphan_tables [])
  = (Json (<["alice" := Data.UserData "5e884898"
                          (<["2024-03-01" := ["paper"]]> ∅)]> ∅),
     open orphan_tables []).
Proof. vm_compute. reflexivity. Qed.

(** C10, where the code breaks it.  A check-in row of a user without an
    account is left out only when [usersData[checkin.username]] is
    [undefined].  For the row of the unregistered user [constructor] the
    lookup finds the inherited property, the callback goes on to its
    [checkins], which is [undefined], and both handlers answer 500 instead
    of a snapshot without the row, which is what they answer for the same
    tables with the row removed. *)
Theorem snapshot_orphan_throws :
  ~ has_account (users constructor_orphan_tables)
      (Checkin "constructor" "2024-03-01" "quant") /\
  get_users (open constructor_orphan_tables [])
  = (StoreFailure TypeError, open constructor_orphan_tables []) /\
  get_export (open constructor_orphan_tables [])
  = (StoreFailure TypeError, open constructor_orphan_tables []) /\
  get_export
    (open (Tables (users constructor_orphan_tables)
             (filter (has_account (users constructor_orphan_tables))
                (checkins constructor_orphan_tables))) [])
  = (Json (<["alice" := Data.UserData "5e884898"
                          (<["2024-03-01" := ["paper"]]> ∅)]> ∅),
     open alice_tables []).
Proof.
  split; [|split; [|split]]; try (vm_compute; reflexivity).
  unfold has_account. vm_compute. by intros [? [=]].
Qed.

(** ** Deleting an account *)

Lemma delete_user_success username t :
  delete_user username (open t [])
  = (Json Success,
     open (Tables (delete username (users t))
             (filter (fun r => ~ belongs_to username r) (checkins t))) []).
Proof.
  unfold delete_user, handle, bind, open. rewrite !execute_eq; simpl.
  do 3 f_equal.
  destruct (users t !! username); [|done].
  by rewrite list_filter_filter_l.
Qed.

(** C1.  [DELETE /api/user/alice] on a store holding alice's account and
    one check-in of hers, when the store fails the second statement: the
    handler answers 500, alice's check-in is gone and her account is still
    there.  The two deletes are not one transaction. *)
Theorem delete_user_not_atomic :
  exists c',
    delete_user "alice" (open alice_tables [false; true])
    = (StoreFailure StoreFault, c') /\
    users (db c') !! "alice" = Some "5e884898" /\
    checkins alice_tables = [Checkin "alice" "2024-03-01" "paper"] /\
    checkins (db c') = [].
Proof. eexists. vm_compute. repeat split. Qed.

(** The three ways a delete can end: both statements ran, none did, or
    only the first. *)
Lemma delete_user_outcomes username t fs :
  exists r c', delete_user username (open t fs) = (r, c') /\
    ((r = Json Success /\
      db c' = Tables (delete username (users t))
                (filter (fun r => ~ belongs_to username r) (checkins t)))
     \/ (r = StoreFailure StoreFault /\ db c' = t)
     \/ (r = StoreFailure StoreFault /\
         db c' = Tables (users t)
                   (filter (fun r => ~ belongs_to username r) (checkins t)))).
Proof.
  assert (G : Tables (delete username (users t))
                (match users (Tables (users t)
                   (filter (fun r => ~ belongs_to username r) (checkins t)))
                   !! username with
                 | Some _ =>
                     filter (fun r => ~ belongs_to username r)
                       (filter (fun r => ~ belongs_to username r) (checkins t))
                 | None => filter (fun r => ~ belongs_to username r) (checkins t)
                 end)
              = Tables (delete username (users t))
                  (filter (fun r => ~ belongs_to username r) (checkins t))).
  { simpl. destruct (users t !! username); [|done].
    by rewrite list_filter_filter_l. }
  unfold delete_user. run_statements.
  destruct fs as [|[] [|[] fs]]; simpl; eexists _, _;
    (split; [reflexivity|]); simpl; rewrite ?G; auto.
Qed.

Lemma Forall_filter_sub {A} (P Q : A -> Prop) `{!forall x, Decision (P x)}
    (l : list A) :
  Forall Q l -> Forall Q (filter P l).
Proof.
  rewrite !Forall_forall. intros Hall x Hx.
  apply list_elem_of_filter in Hx as [_ Hx]. by apply Hall.
Qed.

(** No statement breaks the foreign key, so a delete never leaves a
    check-in row without its account, whichever statement fails. *)
Lemma run_stmt_referential s t t' :
  referential t -> run_stmt s t = inr t' -> referential t'.
Proof.
  unfold referential. intros Href.
  destruct s as [[u|] [p|]|[u|] [d|] [a|]|u d a|u|u| |]; simpl; try done.
  - destruct (users t !! u) eqn:E; [done|]. intros [= <-]; simpl.
    eapply Forall_impl; [exact Href|]. unfold has_account. intros r [q Hq].
    destruct (decide (u = username r)) as [->|Hne].
    + rewrite lookup_insert_eq. eauto.
    + rewrite lookup_insert_ne by done. eauto.
  - destruct (users t !! u) eqn:E; [|done]. intros [= <-]; simpl.
    apply Forall_app. split; [done|]. apply Forall_singleton.
    unfold has_account; simpl. by rewrite E.
  - intros [= <-]; simpl. by apply Forall_filter_sub.
  - intros [= <-]; simpl. by apply Forall_filter_sub.
  - intros [= <-]; simpl.
    assert (G : Forall (has_account (delete u (users t)))
                  (filter (fun r => ~ belongs_to u r) (checkins t))).
    { apply Forall_forall. intros r Hr.
      apply list_elem_of_filter in Hr as [Hne Hr].
      rewrite Forall_forall in Href. specialize (Href r Hr).
      unfold has_account in *. unfold belongs_to in Hne.
      by rewrite lookup_delete_ne. }
    destruct (users t !! u) eqn:E; [done|].
    by rewrite delete_id.
  - intros [= <-]; simpl. constructor.
  - intros [= <-]; simpl. apply Forall_forall. intros r Hr.
    apply list_elem_of_filter in Hr as [Hne Hr].
    rewrite Forall_forall in Href. by specialize (Href r Hr).
Qed.

Lemma delete_user_referential username t fs :
  referential t ->
  referential (db (delete_user username (open t fs)).2).
Proof.
  intros Href.
  pose proof (run_stmt_referential (DeleteCheckinsOf username) t _ Href
                eq_refl) as H1.
  pose proof (run_stmt_referential (DeleteUser username) _ _ H1 eq_refl)
    as H2.
  unfold delete_user. run_statements.
  destruct fs as [|[] [|[] fs]]; simpl; done.
Qed.

(** ** Import

    Statements leave the remembered tables alone. *)
Lemma execute_saved s c : saved (execute s c).2 = saved c.
Proof.
  rewrite execute_eq. destruct (faults c) as [|[] fs]; simpl; try done;
    destruct (run_stmt s (db c)); done.
Qed.

Lemma bind_saved {A B} (m : M A) (k : A -> M B) c :
  (forall c, saved (m c).2 = saved c) ->
  (forall a c, saved (k a c).2 = saved c) ->
  saved (bind m k c).2 = saved c.
Proof.
  intros Hm Hk. unfold bind. specialize (Hm c).
  destruct (m c) as [[e|a] c1]; simpl in *; [done|].
  by rewrite Hk.
Qed.

Lemma for_of_saved {A} (xs : list A) body c :
  (forall x c, saved (body x c).2 = saved c) ->
  saved (for_of xs body c).2 = saved c.
Proof.
  intros Hb. revert c. induction xs as [|x xs IH]; intros c; simpl; [done|].
  apply bind_saved; [apply Hb|]. intros _ c1. apply IH.
Qed.

Lemma import_user_saved entry c : saved (import_user entry c).2 = saved c.
Proof.
  destruct entry as [u ud]. unfold import_user.
  apply bind_saved; [intros; apply execute_saved|]. intros _ c1.
  destruct (Body.checkins ud); [|done].
  unfold import_checkins. apply for_of_saved. intros [d v] c2.
  apply for_of_saved. intros; apply execute_saved.
Qed.

Lemma import_statements_saved usersData c :
  saved (import_statements usersData c).2 = saved c.
Proof.
  unfold import_statements.
  apply bind_saved; [intros; apply execute_saved|]. intros _ c1.
  apply bind_saved; [intros; apply execute_saved|]. intros _ c2.
  apply for_of_saved. intros; apply import_user_saved.
Qed.

(** A loop whose body appends rows appends the rows of all its rounds. *)
Lemma for_of_appends {A} (xs : list A) (body : A -> M unit)
    (rows : A -> list checkin_row) c c' :
  (forall x c c', body x c = (inr tt, c') ->
     db c' = Tables (users (db c)) (checkins (db c) ++ rows x)) ->
  for_of xs body c = (inr tt, c') ->
  db c' = Tables (users (db c)) (checkins (db c) ++ flat_map rows xs).
Proof.
  intros Hb. revert c. induction xs as [|x xs IH]; intros c; simpl.
  - unfold ret. intros [= <-]. rewrite app_nil_r. by destruct (db c).
  - unfold bind. destruct (body x c) as [[e|[]] c1] eqn:E; [done|].
    intros H. apply IH in H. apply Hb in E. rewrite H, E; simpl.
    by rewrite app_assoc.
Qed.

Lemma import_checkins_ok u cs c c' :
  import_checkins u cs c = (inr tt, c') ->
  db c' = Tables (users (db c))
            (checkins (db c) ++ flat_map (day_rows u) (map_to_list cs)).
Proof.
  unfold import_checkins. apply for_of_appends. intros [d v] c1 c2 H.
  apply (for_of_appends _ _ (fun a => [Checkin u d a])) in H.
  - rewrite H. unfold day_rows; simpl. f_equal.
  - intros a c3 c4 Hins. by apply insert_checkin_ok in Hins as [_ ?].
Qed.

Lemma import_user_ok u ud c c' :
  import_user (u, ud) c = (inr tt, c') ->
  exists p, Body.password ud = Some p /\ users (db c) !! u = None /\
    db c' = Tables (<[u := p]> (users (db c)))
              (checkins (db c) ++ user_rows (u, ud)).
Proof.
  unfold import_user, bind. rewrite execute_eq.
  assert (G : forall fs, match
    (match run_stmt (InsertUser (Some u) (Body.password ud)) (db c) with
     | inl e => (inl e, Conn (db c) (saved c) fs)
     | inr t' => (inr tt, Conn t' (saved c) fs)
     end : (exn + unit) * conn)
    with
    | (inr _, c1) =>
        match Body.checkins ud with
        | Some cs => import_checkins u cs
        | None => ret tt
        end c1
    | (inl e, c1) => (inl e, c1)
    end = (inr tt, c') ->
    exists p, Body.password ud = Some p /\ users (db c) !! u = None /\
      db c' = Tables (<[u := p]> (users (db c)))
              (checkins (db c) ++ user_rows (u, ud))).
  { intros fs. simpl. destruct (Body.password ud) as [p|] eqn:Ep; [|done].
    destruct (users (db c) !! u) eqn:Eu; [done|].
    intros H. exists p. repeat split; try done.
    unfold user_rows; simpl.
    destruct (Body.checkins ud) as [cs|].
    - apply import_checkins_ok in H. by rewrite H.
    - unfold ret in H. injection H as <-. simpl. by rewrite app_nil_r. }
  destruct (faults c) as [|[] fs]; try done; apply G.
Qed.

Lemma for_of_cons {A} (x : A) xs body c :
  for_of (x :: xs) body c =
  match body x c with
  | (inr _, c1) => for_of xs body c1
  | (inl e, c1) => (inl e, c1)
  end.
Proof. reflexivity. Qed.

Lemma import_users_ok (l : list (string * Body.user_data)) c c' :
  NoDup l.*1 ->
  for_of l import_user c = (inr tt, c') ->
  (forall u, users (db c') !! u =
     match (list_to_map l : gmap string Body.user_data) !! u with
     | Some ud => Body.password ud
     | None => users (db c) !! u
     end) /\
  checkins (db c') = checkins (db c) ++ flat_map user_rows l /\
  (forall u ud, (u, ud) ∈ l -> is_Some (Body.password ud)).
Proof.
  revert c. induction l as [|[u1 ud1] l IH]; intros c Hnd.
  - simpl. unfold ret. intros [= <-]. split; [done|].
    split; [by rewrite app_nil_r|]. intros u ud Hin. by inversion Hin.
  - rewrite for_of_cons.
    destruct (import_user (u1, ud1) c) as [[e|[]] c1] eqn:E; [done|].
    inversion Hnd as [|? ? Hnotin Hnd']; subst.
    intros H. apply IH in H as (Hus & Hcs & Hpw); [|done].
    apply import_user_ok in E as (p & Hp & Hnone & Hdb).
    split; [|split].
    + intros u. rewrite Hus, Hdb. rewrite list_to_map_cons.
      cbn [users].
      destruct (decide (u1 = u)) as [->|Hne].
      * rewrite lookup_insert_eq.
        rewrite (not_elem_of_list_to_map_1 (M := gmap string)) by done.
        by rewrite lookup_insert_eq.
      * rewrite (lookup_insert_ne _ u1 u) by done.
        by rewrite (lookup_insert_ne _ u1 u) by done.
    + rewrite Hcs, Hdb; simpl. by rewrite app_assoc.
    + intros u ud Hin. apply elem_of_cons in Hin as [[= -> ->]|Hin]; eauto.
Qed.

Lemma import_statements_ok usersData c c' :
  import_statements usersData c = (inr tt, c') ->
  db c' = imported usersData /\
  (forall u ud, usersData !! u = Some ud -> is_Some (Body.password ud)).
Proof.
  unfold import_statements, bind at 1. rewrite execute_eq.
  assert (G : forall c0, checkins (db c0) = [] ->
    (execute DeleteAllUsers;;; for_of (map_to_list usersData) import_user) c0
      = (inr tt, c') ->
    db c' = imported usersData /\
    (forall u ud, usersData !! u = Some ud -> is_Some (Body.password ud))).
  { intros c0 Hc0. unfold bind. rewrite execute_eq.
    assert (G : forall c1, db c1 = Tables ∅ [] ->
       for_of (map_to_list usersData) import_user c1 = (inr tt, c') ->
       db c' = imported usersData /\
       (forall u ud, usersData !! u = Some ud -> is_Some (Body.password ud))).
    { intros c1 Hc1 H.
      apply import_users_ok in H as (Hus & Hcs & Hpw);
        [|apply NoDup_fst_map_to_list].
      split.
      - unfold imported. destruct (db c') as [us cs]; simpl in *. f_equal.
        + apply map_eq. intros u. rewrite Hus, list_to_map_to_list.
          rewrite lookup_omap, Hc1; simpl.
          by destruct (usersData !! u).
        + by rewrite Hcs, Hc1.
      - intros u ud Hu. apply (Hpw u). by apply elem_of_map_to_list. }
    simpl. rewrite Hc0, filter_nil.
    destruct (faults c0) as [|[] fs]; try done; by apply G. }
  simpl. destruct (faults c) as [|[] fs]; try done; by apply G.
Qed.

Lemma begin_transaction_eq c :
  begin_transaction c =
  match faults c with
  | true :: fs => (inl StoreFault, Conn (db c) (saved c) fs)
  | fs => (inr tt, Conn (db c) (Some (db c)) (tail fs))
  end.
Proof. by destruct c as [t sv [|[] fs]]. Qed.

Lemma commit_eq c :
  commit c =
  match faults c with
  | true :: fs => (inl StoreFault, Conn (db c) (saved c) fs)
  | fs => (inr tt, Conn (db c) None (tail fs))
  end.
Proof. by destruct c as [t sv [|[] fs]]. Qed.

(** The transaction of an import, started on a connection that remembers
    the tables [t0]. *)
Lemma import_transaction_cases usersData c t0 :
  saved c = Some t0 ->
  (exists c',
     try_catch (import_statements usersData ;;; commit)
       (fun error => rollback ;;; throw error) c = (inr tt, c') /\
     db c' = imported usersData /\
     (forall u ud, usersData !! u = Some ud -> is_Some (Body.password ud)))
  \/ (exists e c',
        try_catch (import_statements usersData ;;; commit)
          (fun error => rollback ;;; throw error) c = (inl e, c') /\
        db c' = t0).
Proof.
  intros Hsaved.
  pose proof (import_statements_saved usersData c) as Hsv.
  unfold try_catch, bind.
  destruct (import_statements usersData c) as [[e|[]] c1] eqn:E;
    simpl in Hsv; rewrite Hsaved in Hsv.
  - right. unfold rollback, throw. rewrite Hsv. eauto.
  - apply import_statements_ok in E as [Hdb Hpw]. rewrite commit_eq.
    destruct (faults c1) as [|[] fs].
    + left. eauto.
    + right. unfold rollback, throw; simpl. rewrite Hsv. eauto.
    + left. eauto.
Qed.

Lemma post_import_eq usersData c :
  post_import usersData c =
  match begin_transaction c with
  | (inl e, c0) => (StoreFailure e, c0)
  | (inr _, c0) =>
      match
        try_catch (import_statements usersData ;;; commit)
          (fun error => rollback ;;; throw error) c0
      with
      | (inr _, c') => (Json Success, c')
      | (inl e, c') => (StoreFailure e, c')
      end
  end.
Proof.
  unfold post_import, handle. set (tx := try_catch _ _). unfold bind.
  destruct (begin_transaction c) as [[e|[]] c0]; [done|].
  by destruct (tx c0) as [[e|[]] c'].
Qed.

Lemma post_import_sqlite_eq usersData t fs :
  post_import_sqlite usersData (open t fs)
  = post_import usersData (open t fs).
Proof.
  rewrite post_import_eq. unfold post_import_sqlite, try_catch.
  set (body := import_statements usersData ;;; commit). unfold bind at 1.
  rewrite begin_transaction_eq. unfold open; cbn [faults db saved].
  destruct fs as [|[] fs]; try reflexivity;
    by destruct (body _) as [[e|[]] c1].
Qed.

(** An import either installs the body or changes nothing. *)
Lemma post_import_cases usersData c :
  (exists c', post_import usersData c = (Json Success, c') /\
     db c' = imported usersData /\
     (forall u ud, usersData !! u = Some ud -> is_Some (Body.password ud)))
  \/ (exists e c', post_import usersData c = (StoreFailure e, c') /\
        db c' = db c).
Proof.
  rewrite post_import_eq, begin_transaction_eq.
  assert (G : forall fs,
    (exists c',
       match
         try_catch (import_statements usersData ;;; commit)
           (fun error => rollback ;;; throw error)
           (Conn (db c) (Some (db c)) fs)
       with
       | (inr _, c') => (Json Success, c')
       | (inl e, c') => (StoreFailure e, c')
       end = (Json Success, c') /\
       db c' = imported usersData /\
       (forall u ud, usersData !! u = Some ud -> is_Some (Body.password ud)))
    \/ (exists e c',
          match
            try_catch (import_statements usersData ;;; commit)
              (fun error => rollback ;;; throw error)
              (Conn (db c) (Some (db c)) fs)
          with
          | (inr _, c') => (Json Success, c')
          | (inl e, c') => (StoreFailure e, c')
          end = (StoreFailure e, c') /\
          db c' = db c)).
  { intros fs.
    destruct (import_transaction_cases usersData
                (Conn (db c) (Some (db c)) fs) (db c) eq_refl)
      as [(c' & -> & Hdb & Hpw)|(e & c' & -> & Hdb)]; eauto. }
  destruct (faults c) as [|[] fs]; [apply G| |apply G].
  right. eauto.
Qed.

(** Without faults a statement fails only on a constraint. *)
Lemma execute_no_fault s c :
  faults c = [] ->
  execute s c =
  match run_stmt s (db c) with
  | inl e => (inl e, Conn (db c) (saved c) [])
  | inr t' => (inr tt, Conn t' (saved c) [])
  end.
Proof. intros H. rewrite execute_eq, H. reflexivity. Qed.

Lemma import_checkins_total u cs c :
  faults c = [] -> is_Some (users (db c) !! u) ->
  exists c', import_checkins u cs c = (inr tt, c') /\ faults c' = [] /\
    users (db c') = users (db c).
Proof.
  unfold import_checkins. intros Hf Hu.
  assert (G : forall (acts : list string) d c,
    faults c = [] -> is_Some (users (db c) !! u) ->
    exists c',
      for_of acts (fun activity =>
        execute (InsertCheckin (Some u) (Some d) (Some activity))) c
      = (inr tt, c') /\ faults c' = [] /\ users (db c') = users (db c)).
  { clear. induction acts as [|a acts IH]; intros d c Hf Hu.
    - exists c. done.
    - rewrite for_of_cons, execute_no_fault by done. simpl.
      destruct Hu as [p Hp]. rewrite Hp.
      destruct (IH d (Conn (Tables (users (db c))
                  (checkins (db c) ++ [Checkin u d a])) (saved c) []))
        as (c' & H1 & H2 & H3); simpl; eauto. }
  revert c Hf Hu. induction (map_to_list cs) as [|[d v] l IH]; intros c Hf Hu.
  - exists c. done.
  - rewrite for_of_cons.
    destruct (G (activityArray v) d c Hf Hu) as (c1 & -> & Hf1 & Hu1).
    destruct (IH c1) as (c' & H1 & H2 & H3); [done|by rewrite Hu1|].
    exists c'. rewrite H3, Hu1. done.
Qed.

Lemma import_users_total (l : list (string * Body.user_data)) c :
  NoDup l.*1 -> faults c = [] ->
  (forall u, u ∈ l.*1 -> users (db c) !! u = None) ->
  (forall u ud, (u, ud) ∈ l -> is_Some (Body.password ud)) ->
  exists c', for_of l import_user c = (inr tt, c') /\ faults c' = [].
Proof.
  revert c. induction l as [|[u1 ud1] l IH]; intros c Hnd Hf Hfresh Hpw.
  - exists c. done.
  - inversion Hnd as [|? ? Hnotin Hnd']; subst.
    rewrite for_of_cons. unfold import_user, bind.
    rewrite execute_no_fault by done.
    destruct (Hpw u1 ud1) as [p Hp]; [left|]. rewrite Hp. simpl.
    rewrite Hfresh by (simpl; left).
    set (c1 := Conn (Tables (<[u1:=p]> (users (db c))) (checkins (db c)))
                 (saved c) []).
    assert (exists c2,
      match Body.checkins ud1 with
      | Some cs => import_checkins u1 cs
      | None => ret tt
      end c1 = (inr tt, c2) /\ faults c2 = [] /\
      users (db c2) = <[u1:=p]> (users (db c))) as (c2 & -> & Hf2 & Hu2).
    { destruct (Body.checkins ud1) as [cs|].
      - destruct (import_checkins_total u1 cs c1) as (c2 & ? & ? & ?);
          [done|simpl; by rewrite lookup_insert_eq|]. eauto.
      - exists c1. done. }
    apply IH; try done.
    + intros u Hu. rewrite Hu2. rewrite lookup_insert_ne.
      * apply Hfresh. simpl. by right.
      * intros ->. done.
    + intros u ud Hin. apply (Hpw u ud). by right.
Qed.

Lemma import_statements_total usersData c :
  faults c = [] ->
  (forall u ud, usersData !! u = Some ud -> is_Some (Body.password ud)) ->
  exists c', import_statements usersData c = (inr tt, c') /\ faults c' = [].
Proof.
  intros Hf Hpw. unfold import_statements, bind.
  rewrite execute_no_fault by done. cbn [run_stmt].
  rewrite execute_no_fault by done. cbn [run_stmt db users checkins saved].
  rewrite filter_nil.
  apply import_users_total.
  - apply NoDup_fst_map_to_list.
  - done.
  - intros u _. simpl. apply lookup_empty.
  - intros u ud Hin. apply (Hpw u). by apply elem_of_map_to_list.
Qed.

Lemma post_import_total usersData t :
  (forall u ud, usersData !! u = Some ud -> is_Some (Body.password ud)) ->
  exists c', post_import usersData (open t []) = (Json Success, c') /\
    db c' = imported usersData.
Proof.
  intros Hpw.
  destruct (post_import_cases usersData (open t [])) as
    [(c' & H & Hdb & _)|(e & c' & H & _)]; [eauto|].
  exfalso. revert H.
  rewrite post_import_eq, begin_transaction_eq.
  cbn [open faults db saved tail]. unfold try_catch, bind.
  destruct (import_statements_total usersData (Conn t (Some t) []))
    as (c1 & -> & Hf1); [done|done|].
  rewrite commit_eq, Hf1. done.
Qed.

Lemma filter_all {A} (P : A -> Prop) `{!forall x, Decision (P x)} (l : list A) :
  (forall x, x ∈ l -> P x) -> filter P l = l.
Proof.
  induction l as [|x l IH]; intros Hall; [done|].
  rewrite filter_cons_True by (apply Hall; left).
  f_equal. apply IH. intros y Hy. apply Hall. by right.
Qed.

Lemma filter_none {A} (P : A -> Prop) `{!forall x, Decision (P x)} (l : list A) :
  (forall x, x ∈ l -> ~ P x) -> filter P l = [].
Proof.
  induction l as [|x l IH]; intros Hall; [done|].
  rewrite filter_cons_False by (apply Hall; left).
  apply IH. intros y Hy. apply Hall. by right.
Qed.

(** Rows produced per key: selecting one key selects that key's rows. *)
Lemma filter_flat_map_key {V R} (P : R -> Prop) `{!forall r, Decision (P r)}
    (f : string * V -> list R) (l : list (string * V)) (k : string) :
  NoDup l.*1 ->
  (forall x r, r ∈ f x -> (P r <-> x.1 = k)) ->
  filter P (flat_map f l) =
  match (list_to_map l : gmap string V) !! k with
  | Some v => f (k, v)
  | None => []
  end.
Proof.
  intros Hnd HP. induction l as [|[k1 v1] l IH]; [done|].
  inversion Hnd as [|? ? Hnotin Hnd']; subst.
  cbn [flat_map]. rewrite filter_app, IH by done. rewrite list_to_map_cons.
  destruct (decide (k1 = k)) as [->|Hne].
  - rewrite lookup_insert_eq.
    rewrite (not_elem_of_list_to_map_1 (M := gmap string)) by done.
    rewrite app_nil_r. apply filter_all.
    intros r Hr. by apply (HP (k, v1)).
  - rewrite lookup_insert_ne by done.
    rewrite (filter_none P (f (k1, v1))); [done|].
    intros r Hr Hp. by apply (HP (k1, v1)) in Hp.
Qed.

Lemma user_rows_username entry r :
  r ∈ user_rows entry -> username r = entry.1.
Proof.
  unfold user_rows. destruct (Body.checkins entry.2) as [cs|]; [|by inversion 1].
  intros Hr. apply list_elem_of_In, in_flat_map in Hr as ([d v] & _ & Hr).
  apply list_elem_of_In in Hr. unfold day_rows in Hr.
  apply list_elem_of_fmap in Hr as (a & -> & _). done.
Qed.

Lemma day_rows_date u day r : r ∈ day_rows u day -> date r = day.1.
Proof.
  unfold day_rows. intros Hr.
  apply list_elem_of_fmap in Hr as (a & -> & _). done.
Qed.

Lemma imported_rows_of usersData u :
  filter (belongs_to u) (checkins (imported usersData)) =
  match usersData !! u with
  | Some ud => user_rows (u, ud)
  | None => []
  end.
Proof.
  unfold imported; simpl.
  rewrite (filter_flat_map_key (belongs_to u) user_rows _ u).
  - by rewrite list_to_map_to_list.
  - apply NoDup_fst_map_to_list.
  - intros x r Hr. unfold belongs_to. by rewrite (user_rows_username x r Hr).
Qed.

Lemma day_rows_activities u (days : gmap string day_value) d :
  activity <$> filter (fun r => date r = d)
                 (flat_map (day_rows u) (map_to_list days)) =
  match days !! d with
  | Some v => activityArray v
  | None => []
  end.
Proof.
  rewrite (filter_flat_map_key (fun r => date r = d) (day_rows u) _ d).
  - rewrite list_to_map_to_list. destruct (days !! d) as [v|]; [|done].
    unfold day_rows; simpl. rewrite <- list_fmap_compose.
    apply list_fmap_id.
  - apply NoDup_fst_map_to_list.
  - intros x r Hr. by rewrite (day_rows_date u x r Hr).
Qed.

(** What an export shows of an imported body. *)
Lemma export_imported_lookup usersData u ud p :
  usersData !! u = Some ud -> Body.password ud = Some p ->
  exists userData,
    grouped (users (imported usersData))
      (checkins (imported usersData)) !! u = Some userData /\
    Data.password userData = p /\
    forall d, Data.checkins userData !! d =
      match Body.checkins ud ≫= (fun days => days !! d) with
      | Some v =>
          match activityArray v with
          | [] => None
          | l => Some l
          end
      | None => None
      end.
Proof.
  intros Hu Hp. eexists. rewrite grouped_lookup. cbn [imported users].
  rewrite lookup_omap, Hu; simpl. rewrite Hp; simpl.
  split; [reflexivity|]. split; [reflexivity|]. simpl.
  intros d. rewrite by_date_lookup.
  pose proof (imported_rows_of usersData u) as Hrows.
  cbn [imported checkins] in Hrows. rewrite Hrows, Hu. unfold user_rows; simpl.
  destruct (Body.checkins ud) as [days|]; simpl; [|done].
  rewrite day_rows_activities. by destruct (days !! d).
Qed.

(** The tables an import of a plain body leaves are plain. *)
Lemma user_rows_day entry r :
  r ∈ user_rows entry ->
  exists days, Body.checkins entry.2 = Some days /\ is_Some (days !! date r).
Proof.
  unfold user_rows. destruct (Body.checkins entry.2) as [days|];
    [|by inversion 1].
  intros Hr. apply list_elem_of_In, in_flat_map in Hr as ([d v] & Hin & Hr).
  apply list_elem_of_In in Hr, Hin. apply elem_of_map_to_list in Hin.
  apply day_rows_date in Hr. simpl in Hr. subst d. eauto.
Qed.

Lemma imported_plain usersData :
  plain_body usersData ->
  (forall u ud, usersData !! u = Some ud -> is_Some (Body.password ud)) ->
  plain (imported usersData).
Proof.
  intros [Hproto Hdates] Hpw. split.
  - cbn [imported users]. by rewrite lookup_omap, Hproto.
  - cbn [imported checkins users]. apply Forall_forall. intros r Hr.
    apply list_elem_of_In, in_flat_map in Hr as ([u ud] & Hin & Hr).
    apply list_elem_of_In in Hin, Hr. apply elem_of_map_to_list in Hin.
    pose proof (user_rows_username _ _ Hr) as Hname.
    destruct (user_rows_day _ _ Hr) as (days & Hdays & Hday).
    simpl in *. split; [by apply (Hdates u ud days)|].
    intros _. unfold has_account. rewrite Hname, lookup_omap, Hin. simpl.
    by apply Hpw in Hin.
Qed.

(** ** Export after import *)

Lemma by_date_nonempty rows d : by_date rows !! d <> Some [].
Proof.
  rewrite by_date_lookup. by destruct (activity <$> filter _ rows).
Qed.

Lemma export_of_imported_export
    (body : gmap string (Data.user_data (list string))) :
  (forall u userData d,
     body !! u = Some userData -> Data.checkins userData !! d <> Some []) ->
  let t' := imported (as_body <$> (to_json <$> body)) in
  grouped (users t') (checkins t') = body.
Proof.
  intros Hnonempty t'. apply map_eq. intros u.
  destruct (body !! u) as [ud|] eqn:Eu.
  - destruct (export_imported_lookup (as_body <$> (to_json <$> body)) u
                (as_body (to_json ud)) (Data.password ud))
      as (ud' & Hud' & Hp & Hdays).
    + by rewrite !lookup_fmap, Eu.
    + done.
    + fold t' in Hud'. rewrite Hud'. f_equal.
      pose proof (Hnonempty u ud) as Hne.
      destruct ud' as [p' days'], ud as [p days]; simpl in *. subst p'.
      f_equal. apply map_eq. intros d. rewrite Hdays, lookup_fmap.
      destruct (days !! d) as [l|] eqn:El; simpl; [|done].
      destruct l; [|done]. exfalso. by apply (Hne d).
  - rewrite grouped_lookup. unfold t'; cbn [imported users].
    by rewrite lookup_omap, !lookup_fmap, Eu.
Qed.

(** A snapshot that was sent can be imported, and the import leaves
    plain tables whose snapshot it is. *)
Lemma snapshot_of_nonempty t u userData d :
  snapshot_of t !! u = Some userData ->
  Data.checkins userData !! d <> Some [].
Proof.
  rewrite snapshot_of_lookup.
  destruct (delete "__proto__" (users t) !! u); simpl; [|done].
  intros [= <-]. apply by_date_nonempty.
Qed.

Lemma sent_body_plain (us : gmap string string) rows body :
  assemble (map_to_list us) rows = Some body ->
  plain_body (as_body <$> (to_json <$> body)).
Proof.
  intros E. apply assemble_Some in E as [-> Hdates]. split.
  - rewrite !lookup_fmap. unfold snapshot_of. by rewrite lookup_delete_eq.
  - intros u ud days d. rewrite !lookup_fmap.
    destruct (snapshot_of (Tables us rows) !! u) as [userData|] eqn:Eu;
      simpl; [|done].
    intros [= <-]. simpl. intros [= <-]. rewrite lookup_fmap.
    intros Hd. apply (Hdates u userData d Eu).
    by apply fmap_is_Some in Hd.
Qed.

Lemma sent_body_passwords
    (body : gmap string (Data.user_data (list string))) u ud :
  (as_body <$> (to_json <$> body)) !! u = Some ud ->
  is_Some (Body.password ud).
Proof.
  rewrite !lookup_fmap. destruct (body !! u); simpl; [|done].
  intros [= <-]. simpl. eauto.
Qed.

(** C2.  [POST /api/import] is all or nothing.  For every body and every
    connection, whatever the fault schedule: either it answers success and
    the tables are exactly the body's accounts and check-in rows (all
    previous rows gone), or it answers 500 and the tables are exactly what
    they were before the request.  Without faults it succeeds for every
    body whose users all have a password.  Importing the empty object
    succeeds, leaves both tables empty, and the export that follows answers
    the empty snapshot. *)
Theorem importSnapshot_atomic usersData :
  (forall c,
     (exists c', post_import usersData c = (Json Success, c') /\
        db c' = imported usersData)
     \/ (exists e c', post_import usersData c = (StoreFailure e, c') /\
           db c' = db c))
  /\ (forall t,
        (forall u ud, usersData !! u = Some ud -> is_Some (Body.password ud)) ->
        exists c', post_import usersData (open t []) = (Json Success, c') /\
          db c' = imported usersData)
  /\ (forall t,
        exists c', post_import ∅ (open t []) = (Json Success, c') /\
          db c' = empty_tables /\
          get_export (open (db c') []) = (Json ∅, open (db c') [])).
Proof.
  split; [|split].
  - intros c. destruct (post_import_cases usersData c)
      as [(c' & H & Hdb & _)|(e & c' & H & Hdb)]; eauto.
  - intros t. apply post_import_total.
  - intros t. destruct (post_import_total ∅ t) as (c' & H & Hdb).
    + intros u ud Hu. by rewrite lookup_empty in Hu.
    + exists c'. split; [done|]. rewrite Hdb. split; reflexivity.
Qed.

Lemma importSnapshot_atomic_witness :
  exists c',
    post_import bob_body (open alice_tables []) = (Json Success, c') /\
    db c' = imported bob_body.
Proof.
  apply (proj1 (proj2 (importSnapshot_atomic bob_body)) alice_tables).
  intros u ud. unfold bob_body.
  destruct (decide (u = "bob")) as [->|Hne].
  - rewrite lookup_insert_eq. intros [= <-]. simpl. eauto.
  - rewrite lookup_insert_ne by done. by rewrite lookup_empty.
Defined.

(** An insert failing partway: [BEGIN], the two deletes and the insert of
    the account have run when the store fails the insert of the check-in. *)
Lemma importSnapshot_rollback_example :
  post_import bob_body
    (open alice_tables [false; false; false; false; true])
  = (StoreFailure StoreFault, open alice_tables []).
Proof. vm_compute. reflexivity. Qed.

(** A body with a user without a password: the insert of the account
    violates NOT NULL after the deletes have run. *)
Lemma importSnapshot_not_null_example :
  post_import (<["carol" := Body.UserData None None]> ∅) (open alice_tables [])
  = (StoreFailure NotNullViolation, open alice_tables []).
Proof. vm_compute. reflexivity. Qed.

(** [COMMIT] itself failing. *)
Lemma importSnapshot_commit_fault_example :
  post_import bob_body
    (open alice_tables [false; false; false; false; false; true])
  = (StoreFailure StoreFault, open alice_tables []).
Proof. vm_compute. reflexivity. Qed.

(** X29.  For every state of the tables in which [GET /api/export]
    answers a snapshot: posting that snapshot to [POST /api/import]
    succeeds, and the export after it answers a snapshot equal to the
    first one (same users, same passwords, same dates, the same array of
    activities at every date).  This also holds under every fault
    schedule, where the import either succeeds or rolls back. *)
Theorem export_import_export t body :
  get_export (open t []) = (Json body, open t []) ->
  let posted := as_body <$> (to_json <$> body) in
  (exists c', post_import posted (open t []) = (Json Success, c')) /\
  (forall fs,
     get_export (open (db (post_import posted (open t fs)).2) [])
     = (Json body, open (db (post_import posted (open t fs)).2) [])).
Proof.
  intros Hexport posted. split.
  - destruct (post_import_total posted t) as (c' & H & _); [|eauto].
    apply sent_body_passwords.
  - intros fs.
    destruct (post_import_cases posted (open t fs))
      as [(c' & -> & Hdb & _)|(e & c' & -> & Hdb)]; simpl; rewrite Hdb;
      [|done].
    revert Hexport. rewrite get_export_eq. destruct t as [us rows].
    cbn [users checkins].
    destruct (assemble (map_to_list us) rows) as [b|] eqn:E; [|done].
    intros [= <-].
    rewrite get_export_plain.
    + unfold posted. rewrite export_of_imported_export; [done|].
      apply assemble_Some in E as [-> _].
      intros u userData d. apply snapshot_of_nonempty.
    + apply imported_plain; [by apply (sent_body_plain us rows)|].
      apply sent_body_passwords.
Qed.

Lemma export_import_export_witness :
  let body := <["alice" := Data.UserData "5e884898"
                             (<["2024-03-01" := ["paper"]]> ∅)]> ∅ in
  let posted := as_body <$> (to_json <$> body) in
  (exists c', post_import posted (open orphan_tables []) = (Json Success, c')) /\
  (forall fs,
     get_export (open (db (post_import posted (open orphan_tables fs)).2) [])
     = (Json body,
        open (db (post_import posted (open orphan_tables fs)).2) [])).
Proof.
  apply (export_import_export orphan_tables
           (<["alice" := Data.UserData "5e884898"
                           (<["2024-03-01" := ["paper"]]> ∅)]> ∅)).
  vm_compute. reflexivity.
Defined.

Lemma export_import_export_example :
  (get_export (open (db (post_import
      (as_body <$> (to_json <$> snapshot_of orphan_tables))
      (open orphan_tables [])).2) [])).1
  = Json (<["alice" := Data.UserData "5e884898"
                         (<["2024-03-01" := ["paper"]]> ∅)]> ∅).
Proof. vm_compute. reflexivity. Qed.

(** An account named [__proto__] is not part of the first export, so the
    import of that export drops it; the export after the import is again
    the first one. *)
Lemma export_import_export_proto_example :
  let t := Tables (<["__proto__" := "2bb80d53"]> (users alice_tables))
             (checkins alice_tables
              ++ [Checkin "__proto__" "2024-03-01" "quant"]) in
  let body := <["alice" := Data.UserData "5e884898"
                             (<["2024-03-01" := ["paper"]]> ∅)]> ∅ in
  get_export (open t []) = (Json body, open t []) /\
  db (post_import (as_body <$> (to_json <$> body)) (open t [])).2
  = alice_tables /\
  get_export (open alice_tables []) = (Json body, open alice_tables []).
Proof. repeat split; vm_compute; reflexivity. Qed.

(** C9, where the code breaks it.  [POST /api/checkin] of alice for the
    date [constructor] succeeds; in the state of the store it leaves,
    [GET /api/export] answers 500, because the assembly calls the missing
    [push] of the inherited [constructor]: there is no first export to
    import, and the export stays a 500 however often it is asked for. *)
Theorem export_import_export_throws :
  let c1 := (post_checkin "alice" "constructor" "paper"
               (open alice_tables [])).2 in
  post_checkin "alice" "constructor" "paper" (open alice_tables [])
  = (Json Success, c1) /\
  db c1 = Tables (users alice_tables)
            (checkins alice_tables ++ [Checkin "alice" "constructor" "paper"]) /\
  get_export (open (db c1) []) = (StoreFailure TypeError, open (db c1) []) /\
  get_export (get_export (open (db c1) [])).2
  = (StoreFailure TypeError, open (db c1) []).
Proof. repeat split; vm_compute; reflexivity. Qed.

(** * Properties of the browser scripts *)

Import Client Data.

(** ** The feed of today's check-ins *)

Lemma todayEntry_elem today entry u acts :
  (u, acts) ∈ todayEntry today entry <->
  u = entry.1 /\
  ((exists code, checkins entry.2 !! today = Some (Legacy code) /\
      truthy code = true /\ acts = [code])
   \/ (checkins entry.2 !! today = Some (Activities acts) /\ acts <> [])).
Proof.
  unfold todayEntry. destruct (checkins entry.2 !! today) as [[code|codes]|].
  - destruct (truthy code) eqn:E.
    + rewrite list_elem_of_singleton. split.
      * intros [= -> ->]. split; [done|]. left. eauto.
      * intros [-> [(c & [= <-] & _ & ->)|[? _]]]; done.
    + split; [by inversion 1|].
      intros [_ [(c & [= <-] & ? & _)|[? _]]]; congruence.
  - case_bool_decide as Hlen.
    + rewrite list_elem_of_singleton. split.
      * intros [= -> ->]. split; [done|]. right. split; [done|].
        intros ->. simpl in Hlen. lia.
      * intros [-> [(c & ? & _)|[[= ->] _]]]; done.
    + split; [by inversion 1|].
      intros [_ [(c & ? & _)|[[= ->] Hne]]]; [done|].
      destruct acts; [done|]. simpl in Hlen. lia.
  - split; [by inversion 1|]. intros [_ [(c & ? & _)|[? _]]]; done.
Qed.

Lemma feed_elem localeCompare (users : gmap string (user_data day_value))
    today u acts :
  (u, acts) ∈ updateTodayActivity localeCompare users today <->
  exists userData, users !! u = Some userData /\
    ((exists code, checkins userData !! today = Some (Legacy code) /\
        truthy code = true /\ acts = [code])
     \/ (checkins userData !! today = Some (Activities acts) /\ acts <> [])).
Proof.
  unfold updateTodayActivity. rewrite merge_sort_Permutation.
  rewrite list_elem_of_In, in_flat_map. split.
  - intros ([u' ud] & Hin & Hentry).
    apply list_elem_of_In, elem_of_map_to_list in Hin.
    apply list_elem_of_In, todayEntry_elem in Hentry as [-> H].
    eauto.
  - intros (ud & Hu & H). exists (u, ud). split.
    + by apply list_elem_of_In, elem_of_map_to_list.
    + apply list_elem_of_In, todayEntry_elem. done.
Qed.

Lemma root_collation_total a b :
  (root_collation a b <= 0)%Z \/ (root_collation b a <= 0)%Z.
Proof.
  unfold root_collation.
  rewrite (String.compare_antisym (primary_key b) (primary_key a)).
  rewrite (String.compare_antisym (tertiary_key b) (tertiary_key a)).
  destruct (String.compare (primary_key a) (primary_key b)),
    (String.compare (tertiary_key a) (tertiary_key b)); simpl; lia.
Qed.

(** C6, as the code has it.  For every users object and date, and for
    every total comparison the platform supplies as [localeCompare]: the
    feed is sorted by username with respect to [localeCompare], and it
    lists exactly the users whose value at that date is a non-empty array
    or a non-empty legacy code, each with the activities of that day. *)
Theorem feed_sorted_by_localeCompare (localeCompare : string -> string -> Z)
    (users : gmap string (user_data day_value)) (today : string) :
  (forall a b, (localeCompare a b <= 0)%Z \/ (localeCompare b a <= 0)%Z) ->
  Sorted (feed_le localeCompare) (updateTodayActivity localeCompare users today)
  /\ forall u acts,
       (u, acts) ∈ updateTodayActivity localeCompare users today <->
       exists userData, users !! u = Some userData /\
         ((exists code, checkins userData !! today = Some (Legacy code) /\
             truthy code = true /\ acts = [code])
          \/ (checkins userData !! today = Some (Activities acts) /\
              acts <> [])).
Proof.
  intros Htotal. split.
  - apply Sorted_merge_sort. intros a b. apply Htotal.
  - intros u acts. apply feed_elem.
Qed.

Lemma feed_sorted_by_localeCompare_witness :
  Sorted (feed_le root_collation)
    (updateTodayActivity root_collation mixed_case_users "2024-03-01")
  /\ forall u acts,
       (u, acts) ∈ updateTodayActivity root_collation mixed_case_users
                     "2024-03-01" <->
       exists userData, mixed_case_users !! u = Some userData /\
         ((exists code,
             checkins userData !! "2024-03-01" = Some (Legacy code) /\
             truthy code = true /\ acts = [code])
          \/ (checkins userData !! "2024-03-01" = Some (Activities acts) /\
              acts <> [])).
Proof.
  apply (feed_sorted_by_localeCompare root_collation mixed_case_users
           "2024-03-01" root_collation_total).
Defined.

Lemma feed_mixed_case :
  updateTodayActivity root_collation mixed_case_users "2024-03-01"
  = [("alice", ["fitness"]); ("Bob", ["paper"; "quant"])].
Proof. vm_compute. reflexivity. Qed.

(** C6 as stated fails: under the root collation the feed lists alice
    before Bob, and ["Bob"] precedes ["alice"] in code-point order. *)
Lemma feed_not_code_point_sorted :
  ~ Sorted (fun a b => code_point_le a.1 b.1)
      (updateTodayActivity root_collation mixed_case_users "2024-03-01").
Proof.
  rewrite feed_mixed_case. intros H.
  apply Sorted_inv in H as [_ H]. apply HdRel_inv in H.
  unfold code_point_le in H. vm_compute in H. discriminate.
Qed.

(** ** Legacy values on the read paths *)

(** C4, as the code has it.  For a user whose stored value at a date is
    the bare code [code]: [getTodayCheckin] and the history of the user's
    check-ins return the singleton [[code]]; when the code is not the empty
    string the calendar shows and the feed lists the user with exactly the
    singleton [[code]]; the browser-local [exportData] writes the stored
    value as it is, the bare code. *)
Theorem legacy_day_reads (users : gmap string (user_data day_value))
    (u : string) (userData : user_data day_value) (d code : string) :
  users !! u = Some userData ->
  checkins userData !! d = Some (Legacy code) ->
  getTodayCheckin users (Some u) d = [code]
  /\ historyActivities userData d = [code]
  /\ (truthy code = true ->
      calendarActivities users (Some u) d = [code] /\
      forall localeCompare acts,
        (u, acts) ∈ updateTodayActivity localeCompare users d <->
        acts = [code])
  /\ (forall b, Local.load_users b = users ->
        exists exported,
          Local.exportData b !! u = Some exported /\
          checkins exported !! d = Some (Legacy code)).
Proof.
  intros Hu Hd. split; [|split; [|split]].
  - unfold getTodayCheckin; simpl. by rewrite Hu, Hd.
  - unfold historyActivities. by rewrite Hd.
  - intros Hcode. split.
    + unfold calendarActivities; simpl. by rewrite Hu, Hd, Hcode.
    + intros localeCompare acts. rewrite feed_elem. split.
      * intros (ud & Hud & [(c & Hc & _ & ->)|[Ha _]]); congruence.
      * intros ->. exists userData. split; [done|]. left. eauto.
  - intros b <-. unfold Local.exportData. eauto.
Qed.

Lemma legacy_day_reads_witness :
  getTodayCheckin legacy_users (Some "alice") "2024-03-01" = ["fitness"]
  /\ historyActivities
       (UserData "5e884898" (<["2024-03-01" := Legacy "fitness"]> ∅))
       "2024-03-01" = ["fitness"]
  /\ (truthy "fitness" = true ->
      calendarActivities legacy_users (Some "alice") "2024-03-01"
      = ["fitness"] /\
      forall localeCompare acts,
        ("alice", acts) ∈ updateTodayActivity localeCompare legacy_users
                            "2024-03-01" <->
        acts = ["fitness"])
  /\ (forall b, Local.load_users b = legacy_users ->
        exists exported,
          Local.exportData b !! "alice" = Some exported /\
          checkins exported !! "2024-03-01" = Some (Legacy "fitness")).
Proof.
  apply (legacy_day_reads legacy_users "alice"
           (UserData "5e884898" (<["2024-03-01" := Legacy "fitness"]> ∅))
           "2024-03-01" "fitness").
  - vm_compute. reflexivity.
  - vm_compute. reflexivity.
Defined.

(** C4 as stated fails at the export: the exported document holds the
    bare code, not the singleton array. *)
Lemma legacy_export_not_normalized :
  exists exported,
    Local.exportData (Local.Browser (Some legacy_users) None None) !! "alice"
    = Some exported /\
    checkins exported !! "2024-03-01" = Some (Legacy "fitness") /\
    checkins exported !! "2024-03-01" <> Some (Activities ["fitness"]).
Proof. eexists. split; [vm_compute; reflexivity|]. split; [vm_compute; reflexivity|]. vm_compute. discriminate. Qed.

(** ** Legacy values in an import *)

Lemma day_rows_filter u (days : gmap string day_value) d :
  filter (fun r => Server.date r = d)
    (flat_map (Server.day_rows u) (map_to_list days)) =
  match days !! d with
  | Some v => Server.day_rows u (d, v)
  | None => []
  end.
Proof.
  rewrite (filter_flat_map_key (fun r => Server.date r = d)
             (Server.day_rows u) _ d).
  - by rewrite list_to_map_to_list.
  - apply NoDup_fst_map_to_list.
  - intros x r Hr. by rewrite (day_rows_date u x r Hr).
Qed.

(** C5, as the code has it.  When [POST /api/import] succeeds on a body
    in which user [u] has the bare code [code] at date [d], the store holds
    exactly one row for [u] and [d], the row (u, d, code): the value is
    expanded to a singleton before the insertion.  The browser-local
    [importData] stores the imported document as it is. *)
Theorem import_legacy_day :
  (forall usersData c c' u ud days d code,
     post_import usersData c = (Json Success, c') ->
     usersData !! u = Some ud ->
     Body.checkins ud = Some days ->
     days !! d = Some (Legacy code) ->
     filter (fun r => Server.date r = d)
       (filter (belongs_to u) (Server.checkins (db c')))
     = [Checkin u d code])
  /\ (forall importedData b,
        Local.load_users (Local.importData importedData b) = importedData).
Proof.
  split; [|done].
  intros usersData c c' u ud days d code Himp Hu Hdays Hd.
  destruct (post_import_cases usersData c)
    as [(c1 & H1 & Hdb & Hpw)|(e & c1 & H1 & _)]; [|congruence].
  rewrite Himp in H1. injection H1 as <-. rewrite Hdb.
  rewrite imported_rows_of, Hu. unfold user_rows; simpl. rewrite Hdays.
  rewrite day_rows_filter, Hd. reflexivity.
Qed.

Lemma import_legacy_day_example :
  exists c', post_import bob_body (open alice_tables []) = (Json Success, c') /\
    Server.checkins (db c') = [Checkin "bob" "2024-01-02" "fitness"].
Proof. eexists. vm_compute. split; reflexivity. Qed.

Lemma import_legacy_day_witness :
  filter (fun r => Server.date r = "2024-01-02")
    (filter (belongs_to "bob")
       (Server.checkins (db (post_import bob_body (open alice_tables [])).2)))
  = [Checkin "bob" "2024-01-02" "fitness"].
Proof.
  apply (proj1 import_legacy_day bob_body (open alice_tables [])
           (post_import bob_body (open alice_tables [])).2 "bob"
           (Body.UserData (Some "2bb80d53")
              (Some (<["2024-01-02" := Legacy "fitness"]> ∅)))
           (<["2024-01-02" := Legacy "fitness"]> ∅) "2024-01-02" "fitness").
  - vm_compute. reflexivity.
  - vm_compute. reflexivity.
  - reflexivity.
  - vm_compute. reflexivity.
Defined.

(** C5 as stated fails in the browser-local import: the bare code is
    what localStorage holds afterwards. *)
Lemma local_import_keeps_legacy :
  exists stored,
    Local.load_users (Local.importData legacy_users fresh_browser) !! "alice"
    = Some stored /\
    checkins stored !! "2024-03-01" = Some (Legacy "fitness") /\
    checkins stored !! "2024-03-01" <> Some (Activities ["fitness"]).
Proof. eexists. split; [vm_compute; reflexivity|]. split; [vm_compute; reflexivity|]. vm_compute. discriminate. Qed.

(** ** No day with an empty array *)

Lemma no_empty_day_insert (users : gmap string (user_data day_value)) u ud :
  no_empty_day users ->
  (forall d, checkins ud !! d <> Some (Activities [])) ->
  no_empty_day (<[u := ud]> users).
Proof.
  intros Hinv Hud u' ud' d. destruct (decide (u = u')) as [->|Hne].
  - rewrite lookup_insert_eq. intros [= <-]. apply Hud.
  - rewrite lookup_insert_ne by done. apply Hinv.
Qed.

Lemma no_empty_day_delete (users : gmap string (user_data day_value)) u :
  no_empty_day users -> no_empty_day (delete u users).
Proof.
  intros Hinv u' ud' d Hu'. apply lookup_delete_Some in Hu' as [_ Hu'].
  by apply (Hinv u').
Qed.

Lemma no_empty_day_empty : no_empty_day ∅.
Proof. intros u ud d Hu. by rewrite lookup_empty in Hu. Qed.

(** The mapping written back by a toggle. *)
Lemma toggled_days_no_empty (days : gmap string day_value) today
    (l : list string) d :
  (forall d, days !! d <> Some (Activities [])) ->
  (if bool_decide (length l = 0) then delete today days
   else <[today := Activities l]> days) !! d <> Some (Activities []).
Proof.
  intros Hdays. case_bool_decide as Hlen.
  - intros H. apply lookup_delete_Some in H as [_ H]. by apply (Hdays d).
  - destruct (decide (today = d)) as [->|Hne].
    + rewrite lookup_insert_eq. intros [= ->]. done.
    + rewrite lookup_insert_ne by done. apply Hdays.
Qed.

Lemma local_toggle_no_empty today activity b :
  no_empty_day (Local.load_users b) ->
  no_empty_day (Local.load_users (Local.toggleCheckin today activity b)).
Proof.
  intros Hinv. unfold Local.toggleCheckin.
  destruct (Local.load_users b !! property_key (Local.currentUser b))
    as [ud|] eqn:E; [|by destruct (inherited _)].
  cbn [Local.load_users Local.store_users Local.item_users].
  apply no_empty_day_insert; [done|]. intros d. cbn [checkins].
  apply toggled_days_no_empty. intros d'. by apply (Hinv _ _ _ E).
Qed.

Lemma local_step_no_empty hashPassword o b :
  no_empty_day (Local.load_users b) ->
  (forall importedData, o = Local.ImportData importedData ->
     no_empty_day importedData) ->
  no_empty_day (Local.load_users (Local.step hashPassword o b)).
Proof.
  intros Hinv Himp. destruct o as [u p| |today activity|u|data|]; simpl.
  - unfold Local.login.
    destruct (negb (truthy u) || negb (truthy p)); [done|].
    destruct (Local.load_users b !! u) as [ud|] eqn:E.
    + by case_bool_decide.
    + destruct (inherited u); [done|].
      cbn [Local.load_users Local.item_users].
      apply no_empty_day_insert; [done|]. intros d. cbn [checkins].
      by rewrite lookup_empty.
  - done.
  - by apply local_toggle_no_empty.
  - unfold Local.deleteUser. case_bool_decide;
      cbn [Local.logout Local.load_users Local.store_users Local.item_users];
      by apply no_empty_day_delete.
  - by apply Himp.
  - unfold Local.clearAllData.
    destruct (Local.currentUser b) as [u|]; [destruct (truthy u)|];
      apply no_empty_day_empty.
Qed.

Lemma indexOf_singleton activity : indexOf activity [activity] = Some 0.
Proof. simpl. by rewrite decide_True. Qed.

Lemma local_toggle_last today activity b u userData :
  Local.currentUser b = Some u ->
  Local.load_users b !! u = Some userData ->
  checkins userData !! today = Some (Activities [activity])
  \/ checkins userData !! today = Some (Legacy activity) ->
  exists userData',
    Local.load_users (Local.toggleCheckin today activity b) !! u
    = Some userData' /\
    checkins userData' !! today = None.
Proof.
  intros Hcu Hu Hday. unfold Local.toggleCheckin. rewrite Hcu; simpl.
  rewrite Hu. eexists. split; [apply lookup_insert_eq|]. simpl.
  destruct Hday as [-> | ->]; rewrite indexOf_singleton; simpl;
    apply lookup_delete_eq.
Qed.

Lemma remote_toggle_no_empty today activity p :
  no_empty_day (Remote.usersData p) ->
  no_empty_day (Remote.usersData (Remote.toggleCheckin today activity p)).
Proof.
  intros Hinv. unfold Remote.toggleCheckin.
  destruct (Remote.usersData p !! property_key (Remote.currentUser p))
    as [ud|] eqn:E;
    [|destruct (inherited _); [done|apply no_empty_day_empty]].
  assert (Hud : forall d, checkins ud !! d <> Some (Activities []))
    by (intros d; by apply (Hinv _ _ _ E)).
  destruct (indexOf activity _) as [index|].
  - destruct (Server.delete_checkin _ _ _ _) as [r c].
    destruct (negb (Remote.is_ok r)); [done|]. cbn [Remote.usersData].
    apply no_empty_day_insert; [done|]. intros d. cbn [checkins].
    by apply toggled_days_no_empty.
  - destruct (Server.post_checkin _ _ _ _) as [r c].
    destruct (negb (Remote.is_ok r)); [done|].
    assert (G : forall l, l <> [] ->
      no_empty_day (<[property_key (Remote.currentUser p) :=
         UserData (password ud) (<[today := Activities l]> (checkins ud))]>
         (Remote.usersData p))).
    { intros l Hl. apply no_empty_day_insert; [done|]. intros d. cbn [checkins].
      destruct (decide (today = d)) as [->|Hne].
      - rewrite lookup_insert_eq. by intros [= ->].
      - rewrite lookup_insert_ne by done. apply Hud. }
    destruct (checkins ud !! today) as [[[|a s]|codes]|]; cbn [Remote.usersData];
      try done; apply G; try done. by destruct codes.
Qed.

Lemma get_users_snapshot c body c' :
  get_users c = (Json body, c') -> body = Server.snapshot_of (db c).
Proof.
  unfold get_users, handle, bind, query_users, query_checkins,
    bind, next_fault, get_tables, ret, throw.
  destruct c as [[us rows] sv [|[] [|[] fs]]]; simpl; try done;
    (destruct (assemble (map_to_list us) rows) as [b|] eqn:E; [|done]);
    intros [= <- _]; by apply assemble_Some in E as [-> _].
Qed.

Lemma remote_load_no_empty p :
  no_empty_day (Remote.usersData (Remote.loadUsersData p)).
Proof.
  unfold Remote.loadUsersData.
  destruct (get_users (Remote.server p)) as [r c] eqn:E.
  destruct r as [body| | | |e]; cbn [Remote.usersData];
    try apply no_empty_day_empty.
  apply get_users_snapshot in E as ->.
  intros u ud d. rewrite lookup_fmap.
  destruct (Server.snapshot_of _ !! u) as [exported|] eqn:Eu; simpl; [|done].
  intros [= <-]. unfold to_json; simpl. rewrite lookup_fmap.
  destruct (checkins exported !! d) as [l|] eqn:Ed; simpl; [|done].
  intros [= ->]. by apply (snapshot_of_nonempty _ _ _ _ Eu) in Ed.
Qed.

Lemma delete_checkin_ok u d a c c' :
  delete_checkin u d a c = (Json Success, c') ->
  db c' = Tables (Server.users (db c))
            (filter (fun r => ~ matches u d a r) (Server.checkins (db c))).
Proof.
  unfold delete_checkin.
  destruct (negb (truthy u) || negb (truthy d) || negb (truthy a)); [done|].
  unfold handle, bind. rewrite execute_eq. simpl.
  destruct (faults c) as [|[] fs]; try done; by intros [= <-].
Qed.

Lemma remote_toggle_last today activity p u userData :
  Remote.currentUser p = Some u ->
  Remote.usersData p !! u = Some userData ->
  checkins userData !! today = Some (Activities [activity])
  \/ checkins userData !! today = Some (Legacy activity) ->
  (delete_checkin u today activity (Remote.server p)).1 = Json Success ->
  (exists userData',
     Remote.usersData (Remote.toggleCheckin today activity p) !! u
     = Some userData' /\
     checkins userData' !! today = None)
  /\ filter (matches u today activity)
       (Server.checkins
          (db (Remote.server (Remote.toggleCheckin today activity p)))) = [].
Proof.
  intros Hcu Hu Hday Hok. unfold Remote.toggleCheckin. rewrite Hcu; simpl.
  rewrite Hu.
  destruct (delete_checkin u today activity (Remote.server p)) as [r c] eqn:E.
  simpl in Hok. subst r. apply delete_checkin_ok in E.
  destruct Hday as [-> | ->]; rewrite indexOf_singleton; simpl;
    rewrite E; simpl;
    (split; [eexists; split; [apply lookup_insert_eq|apply lookup_delete_eq]|]);
    apply filter_none; intros r Hr; by apply list_elem_of_filter in Hr as [? _].
Qed.

(** C7, as the code has it.  Toggling off the only activity of a day (an
    array of one code, or a bare code) removes the day's key from the
    user's mapping, in localStorage and, when the server accepts the
    delete, in the cache, and no row for that check-in is left in the
    table.  Login, logout, toggling, deleting a user and clearing all data
    keep a localStorage that has no empty array free of empty arrays, and
    so does an import of a document that has none; toggling keeps the
    cache free of them, and a cache loaded from the server never has one.
    An import stores the document it is given. *)
Theorem no_empty_day_entries :
  (forall today activity b u userData,
     Local.currentUser b = Some u ->
     Local.load_users b !! u = Some userData ->
     checkins userData !! today = Some (Activities [activity])
     \/ checkins userData !! today = Some (Legacy activity) ->
     exists userData',
       Local.load_users (Local.toggleCheckin today activity b) !! u
       = Some userData' /\
       checkins userData' !! today = None)
  /\ (forall today activity p u userData,
        Remote.currentUser p = Some u ->
        Remote.usersData p !! u = Some userData ->
        checkins userData !! today = Some (Activities [activity])
        \/ checkins userData !! today = Some (Legacy activity) ->
        (delete_checkin u today activity (Remote.server p)).1 = Json Success ->
        (exists userData',
           Remote.usersData (Remote.toggleCheckin today activity p) !! u
           = Some userData' /\
           checkins userData' !! today = None)
        /\ filter (matches u today activity)
             (Server.checkins
                (db (Remote.server (Remote.toggleCheckin today activity p))))
           = [])
  /\ (forall hashPassword o b,
        no_empty_day (Local.load_users b) ->
        (forall importedData, o = Local.ImportData importedData ->
           no_empty_day importedData) ->
        no_empty_day (Local.load_users (Local.step hashPassword o b)))
  /\ (forall today activity p,
        no_empty_day (Remote.usersData p) ->
        no_empty_day (Remote.usersData (Remote.toggleCheckin today activity p)))
  /\ (forall p, no_empty_day (Remote.usersData (Remote.loadUsersData p))).
Proof.
  split; [|split; [|split; [|split]]].
  - intros today activity b u userData. apply local_toggle_last.
  - intros today activity p u userData. apply remote_toggle_last.
  - apply local_step_no_empty.
  - apply remote_toggle_no_empty.
  - apply remote_load_no_empty.
Qed.

Lemma legacy_users_no_empty_day : no_empty_day legacy_users.
Proof.
  intros u ud d Hu. unfold legacy_users in Hu.
  apply lookup_insert_Some in Hu as [[_ <-]|[_ Hu]];
    [|by rewrite lookup_empty in Hu].
  cbn [checkins]. intros Hd.
  apply lookup_insert_Some in Hd as [[_ [=]]|[_ Hd]].
  by rewrite lookup_empty in Hd.
Qed.

Lemma no_empty_day_entries_witness :
  (exists userData',
     Local.load_users
       (Local.toggleCheckin "2024-03-01" "fitness"
          (Local.Browser (Some legacy_users) (Some "alice") (Some "alice")))
       !! "alice" = Some userData' /\
     checkins userData' !! "2024-03-01" = None)
  /\ no_empty_day
       (Local.load_users
          (Local.step (fun s => s) (Local.ToggleCheckin "2024-03-01" "paper")
             (Local.Browser (Some legacy_users) (Some "alice") (Some "alice")))).
Proof.
  split.
  - apply (proj1 no_empty_day_entries "2024-03-01" "fitness"
             (Local.Browser (Some legacy_users) (Some "alice") (Some "alice"))
             "alice"
             (UserData "5e884898" (<["2024-03-01" := Legacy "fitness"]> ∅))).
    + reflexivity.
    + vm_compute. reflexivity.
    + right. vm_compute. reflexivity.
  - apply (proj1 (proj2 (proj2 no_empty_day_entries))).
    + apply legacy_users_no_empty_day.
    + intros importedData H. discriminate H.
Defined.

(** C7 as stated fails: after importing a document with an empty array
    the store holds a day with an empty activity set. *)
Lemma local_import_keeps_empty_day :
  no_empty_day (Local.load_users fresh_browser)
  /\ ~ no_empty_day
       (Local.load_users
          (Local.step (fun s => s) (Local.ImportData empty_day_users)
             fresh_browser)).
Proof.
  split; [apply no_empty_day_empty|].
  intros H.
  apply (H "alice" (UserData "5e884898" (<["2024-03-01" := Activities []]> ∅))
           "2024-03-01"); vm_compute; reflexivity.
Qed.

(** ** The example scenario, end to end

    alice logs in for the first time, checks in [paper] and [fitness] on
    2024-03-01, then removes them one after the other; the snapshot shows
    both activities, then [fitness] alone, then no day at all. *)

Lemma alice_scenario :
  let c1 := (post_login "alice" "5e884898" (open empty_tables [])).2 in
  let c2 := (post_checkin "alice" "2024-03-01" "paper" c1).2 in
  let c3 := (post_checkin "alice" "2024-03-01" "fitness" c2).2 in
  let c4 := (delete_checkin "alice" "2024-03-01" "paper" c3).2 in
  let c5 := (delete_checkin "alice" "2024-03-01" "fitness" c4).2 in
  (get_users c3).1
  = Json (<["alice" := UserData "5e884898"
                         (<["2024-03-01" := ["paper"; "fitness"]]> ∅)]> ∅)
  /\ (get_users c4).1
     = Json (<["alice" := UserData "5e884898"
                            (<["2024-03-01" := ["fitness"]]> ∅)]> ∅)
  /\ (get_users c5).1 = Json (<["alice" := UserData "5e884898" ∅]> ∅).
Proof. vm_compute. repeat split. Qed.

(** * Further properties of the server *)

(** ** Removing a check-in *)

(** What [DELETE /api/checkin] does, for every connection: the accounts
    are never touched; on success exactly the matching rows are gone; on
    any other answer the tables are as before. *)
Lemma delete_checkin_cases u d a c :
  exists r c', delete_checkin u d a c = (r, c') /\
    ((r = Json Success /\
      truthy u = true /\ truthy d = true /\ truthy a = true /\
      db c' = Tables (Server.users (db c))
                (filter (fun r => ~ matches u d a r) (Server.checkins (db c))))
     \/ (r <> Json Success /\ db c' = db c)).
Proof.
  unfold delete_checkin.
  destruct (negb (truthy u) || negb (truthy d) || negb (truthy a)) eqn:E.
  - eexists _, _. split; [reflexivity|]. right. split; [discriminate|done].
  - apply truthy_fields in E as (Hu & Hd & Ha).
    unfold handle, bind. rewrite execute_eq. simpl.
    destruct (faults c) as [|[] fs]; eexists _, _;
      (split; [reflexivity|]); simpl.
    + left. done.
    + right. split; [discriminate|done].
    + left. done.
Qed.

(** X1. Removing a check-in that is not stored: when the user, the date
    and the activity are non-empty, no row matches them and the store does
    not fail, [DELETE /api/checkin] answers with success and leaves the
    tables exactly as they were. *)
Theorem delete_checkin_absent u d a t :
  truthy u = true -> truthy d = true -> truthy a = true ->
  (forall r, r ∈ Server.checkins t -> ~ matches u d a r) ->
  delete_checkin u d a (open t []) = (Json Success, open t []).
Proof.
  intros Hu Hd Ha Habs. unfold delete_checkin. rewrite Hu, Hd, Ha. simpl.
  unfold handle, bind. rewrite execute_eq. simpl. unfold open.
  do 3 f_equal. destruct t as [us cs]; simpl in *. f_equal.
  by apply filter_all.
Qed.

Lemma delete_checkin_absent_witness :
  delete_checkin "alice" "2024-03-01" "quant" (open alice_tables [])
  = (Json Success, open alice_tables []).
Proof.
  apply (delete_checkin_absent "alice" "2024-03-01" "quant" alice_tables);
    try reflexivity.
  intros r Hr. apply list_elem_of_singleton in Hr as ->.
  unfold matches; simpl. intros (_ & _ & [=]).
Defined.

(** X2. What [DELETE /api/checkin] touches, under every fault schedule:
    the accounts are as before; the rows that do not match the request are
    as before, in their order; after the success answer no matching row is
    left; after any other answer the tables are as before. *)
Theorem delete_checkin_frame u d a c :
  Server.users (db (delete_checkin u d a c).2) = Server.users (db c)
  /\ filter (fun r => ~ matches u d a r)
       (Server.checkins (db (delete_checkin u d a c).2))
     = filter (fun r => ~ matches u d a r) (Server.checkins (db c))
  /\ ((delete_checkin u d a c).1 = Json Success ->
      filter (matches u d a)
        (Server.checkins (db (delete_checkin u d a c).2)) = [])
  /\ ((delete_checkin u d a c).1 <> Json Success ->
      db (delete_checkin u d a c).2 = db c).
Proof.
  destruct (delete_checkin_cases u d a c)
    as (r & c' & -> & [(-> & _ & _ & _ & Hdb)|(Hr & Hdb)]); simpl.
  - rewrite Hdb; simpl. split; [done|]. split; [|split; [|done]].
    + by rewrite list_filter_filter_l.
    + intros _. apply filter_none. intros x Hx.
      by apply list_elem_of_filter in Hx as [? _].
  - rewrite Hdb. split; [done|]. split; [done|]. split; [done|]. done.
Qed.

Lemma delete_checkin_frame_witness :
  filter (matches "alice" "2024-03-01" "paper")
    (Server.checkins
       (db (delete_checkin "alice" "2024-03-01" "paper"
              (open alice_tables [])).2)) = [].
Proof.
  apply (delete_checkin_frame "alice" "2024-03-01" "paper"
           (open alice_tables [])).
  vm_compute. reflexivity.
Defined.

(** ** Adding a check-in *)

Lemma post_checkin_cases u d a c :
  exists r c', post_checkin u d a c = (r, c') /\
    ((r = Json Success /\
      db c' = Tables (Server.users (db c))
                (Server.checkins (db c) ++ [Checkin u d a]))
     \/ (r <> Json Success /\ db c' = db c)).
Proof.
  destruct (post_checkin u d a c) as [r c'] eqn:E. eexists _, _.
  split; [reflexivity|].
  assert (Hcases : r = Json Success \/ r <> Json Success).
  { destruct r as [[]| | | |e]; auto; right; discriminate. }
  destruct Hcases as [->|Hr].
  - left. apply post_checkin_success in E as (_ & _ & _ & _ & Hdb). done.
  - right. split; [done|]. revert E. unfold post_checkin.
    destruct (negb (truthy u) || negb (truthy d) || negb (truthy a));
      [by intros [= _ <-]|].
    unfold handle, bind. rewrite queryOne_checkin_eq.
    assert (G : forall c0, db c0 = db c ->
      match
        match head (filter (matches u d a) (Server.checkins (db c))) with
        | Some _ => ret Conflict
        | None =>
            fun c2 =>
              match
                execute (InsertCheckin (Some u) (Some d) (Some a)) c2
              with
              | (inr _, c3) => ret (Json Success) c3
              | (inl e, c3) => (inl e, c3)
              end
        end c0
      with
      | (inr r, c') => (r, c')
      | (inl e, c') => (StoreFailure e, c')
      end = (r, c') -> db c' = db c).
    { intros c0 Hc0. destruct (head _).
      - unfold ret. by intros [= _ <-].
      - rewrite execute_eq. simpl. rewrite Hc0.
        destruct (faults c0) as [|[] fs];
          try (destruct (Server.users (db c) !! u));
          unfold ret; intros [= <- <-]; try done. }
    destruct (faults c) as [|[] fs]; try (by apply G).
    by intros [= _ <-].
Qed.
(** A check-in is only inserted when no row matched it. *)
Lemma post_checkin_new_row u d a c c1 :
  post_checkin u d a c = (Json Success, c1) ->
  filter (matches u d a) (Server.checkins (db c)) = [].
Proof.
  intros E. pose proof E as E1.
  apply post_checkin_success in E as (Hu & Hd & Ha & Hacc & Hdb).
  destruct (filter (matches u d a) (Server.checkins (db c)))
    as [|r l] eqn:Ef; [done|]. exfalso.
  revert E1. unfold post_checkin. rewrite Hu, Hd, Ha. simpl.
  unfold handle, bind. rewrite !queryOne_checkin_eq.
  rewrite Ef. cbn [head].
  destruct (faults c) as [|[] fs]; unfold ret; intros [= _]; done.
Qed.

(** X3. What [POST /api/checkin] touches, under every fault schedule:
    the accounts are as before; after the success answer the check-in rows
    are the old rows followed by the new one, the user has an account and
    no row matched the request before; after any other answer the tables
    are as before. *)
Theorem post_checkin_frame u d a c :
  Server.users (db (post_checkin u d a c).2) = Server.users (db c)
  /\ ((post_checkin u d a c).1 = Json Success ->
      Server.checkins (db (post_checkin u d a c).2)
      = Server.checkins (db c) ++ [Checkin u d a]
      /\ is_Some (Server.users (db c) !! u)
      /\ filter (matches u d a) (Server.checkins (db c)) = [])
  /\ ((post_checkin u d a c).1 <> Json Success ->
      db (post_checkin u d a c).2 = db c).
Proof.
  destruct (post_checkin u d a c) as [r c'] eqn:E; simpl.
  destruct (post_checkin_cases u d a c)
    as (r0 & c0 & E0 & [(-> & Hdb)|(Hr & Hdb)]);
    rewrite E in E0; injection E0 as -> ->; rewrite Hdb; simpl.
  - split; [done|]. split; [|done]. intros _. split; [done|].
    split; [|eapply post_checkin_new_row; exact E].
    by apply post_checkin_success in E as (_ & _ & _ & Hacc & _).
  - done.
Qed.

Lemma post_checkin_frame_witness :
  Server.checkins
    (db (post_checkin "alice" "2024-03-01" "quant" (open alice_tables [])).2)
  = Server.checkins alice_tables ++ [Checkin "alice" "2024-03-01" "quant"]
  /\ is_Some (Server.users alice_tables !! "alice")
  /\ filter (matches "alice" "2024-03-01" "quant")
       (Server.checkins alice_tables) = [].
Proof.
  apply (post_checkin_frame "alice" "2024-03-01" "quant"
           (open alice_tables [])).
  vm_compute. reflexivity.
Defined.

(** X4. Adding a check-in and then removing it gives back the tables:
    when [POST /api/checkin] answers with success on the tables [t], then
    [DELETE /api/checkin] with the same user, date and activity on the
    resulting tables answers with success and leaves exactly [t]. *)
Theorem add_then_remove_restores u d a t c1 :
  post_checkin u d a (open t []) = (Json Success, c1) ->
  delete_checkin u d a (open (db c1) []) = (Json Success, open t []).
Proof.
  intros H.
  pose proof (post_checkin_new_row u d a _ _ H) as Hnone.
  cbn [open db] in Hnone.
  apply post_checkin_success in H as (Hu & Hd & Ha & _ & Hdb).
  unfold delete_checkin. rewrite Hu, Hd, Ha. simpl.
  unfold handle, bind. rewrite execute_eq. simpl. unfold open.
  do 3 f_equal. rewrite Hdb. destruct t as [us cs]; simpl in *. f_equal.
  rewrite filter_app, filter_cons_False, filter_nil, app_nil_r.
  - apply filter_all. intros r Hr Hm.
    assert (Hf : r ∈ filter (matches u d a) cs)
      by (by apply list_elem_of_filter).
    rewrite Hnone in Hf. by inversion Hf.
  - intros Hn. apply Hn. by unfold matches.
Qed.

Lemma add_then_remove_restores_witness :
  delete_checkin "alice" "2024-03-01" "fitness"
    (open (db (post_checkin "alice" "2024-03-01" "fitness"
                 (open alice_tables [])).2) [])
  = (Json Success, open alice_tables []).
Proof.
  apply (add_then_remove_restores "alice" "2024-03-01" "fitness" alice_tables).
  vm_compute. reflexivity.
Defined.

(** ** Logging in *)

Lemma queryOne_user_eq u c :
  queryOne_user u c =
  match faults c with
  | true :: fs => (inl StoreFault, Conn (db c) (saved c) fs)
  | fs => (inr (Server.users (db c) !! u), Conn (db c) (saved c) (tail fs))
  end.
Proof. by destruct c as [t sv [|[] fs]]. Qed.

Lemma post_login_cases u p c :
  exists r c', post_login u p c = (r, c') /\
    ((r = Json Success /\ truthy u = true /\ truthy p = true /\
      ((Server.users (db c) !! u = Some p /\ db c' = db c)
       \/ (Server.users (db c) !! u = None /\
           db c' = Tables (<[u := p]> (Server.users (db c)))
                     (Server.checkins (db c)))))
     \/ (r <> Json Success /\ db c' = db c)).
Proof.
  unfold post_login.
  destruct (negb (truthy u) || negb (truthy p)) eqn:E.
  { eexists _, _. split; [reflexivity|]. right. split; [discriminate|done]. }
  assert (truthy u = true /\ truthy p = true) as [Hu Hp]
    by (destruct (truthy u), (truthy p); done).
  unfold handle, bind. rewrite queryOne_user_eq.
  assert (G : forall c0, db c0 = db c ->
    exists r c',
      match
        match Server.users (db c) !! u with
        | Some stored =>
            if bool_decide (stored = p) then ret (Json Success)
            else ret InvalidCredential
        | None =>
            fun c2 =>
              match execute (InsertUser (Some u) (Some p)) c2 with
              | (inr _, c3) => ret (Json Success) c3
              | (inl e, c3) => (inl e, c3)
              end
        end c0
      with
      | (inr r, c') => (r, c')
      | (inl e, c') => (StoreFailure e, c')
      end = (r, c') /\
      ((r = Json Success /\ truthy u = true /\ truthy p = true /\
        ((Server.users (db c) !! u = Some p /\ db c' = db c)
         \/ (Server.users (db c) !! u = None /\
             db c' = Tables (<[u := p]> (Server.users (db c)))
                       (Server.checkins (db c)))))
       \/ (r <> Json Success /\ db c' = db c))).
  { intros c0 Hc0. destruct (Server.users (db c) !! u) as [stored|] eqn:Eu.
    - case_bool_decide as Hst; unfold ret; eexists _, _;
        (split; [reflexivity|]).
      + subst stored. left. auto 10.
      + right. split; [discriminate|done].
    - rewrite execute_eq. simpl. rewrite Hc0, Eu.
      destruct (faults c0) as [|[] fs]; unfold ret; eexists _, _;
        (split; [reflexivity|]); simpl.
      + left. auto 10.
      + right. split; [discriminate|done].
      + left. auto 10. }
  destruct (faults c) as [|[] fs]; try (by apply G).
  eexists _, _. split; [reflexivity|]. right. split; [discriminate|done].
Qed.

Lemma post_login_known u p t :
  truthy u = true -> truthy p = true ->
  forall stored, Server.users t !! u = Some stored ->
  post_login u p (open t [])
  = (if bool_decide (stored = p) then Json Success else InvalidCredential,
     open t []).
Proof.
  intros Hu Hp stored Hst. unfold post_login. rewrite Hu, Hp. simpl.
  unfold handle, bind. rewrite queryOne_user_eq. simpl. rewrite Hst.
  by case_bool_decide.
Qed.

(** X5. A successful [POST /api/login] fixes the credential: afterwards
    the account row of the user holds the password that was sent, the same
    request succeeds again without changing the tables, and the same user
    with any other non-empty password gets the invalid-credential answer,
    again without a change. *)
Theorem login_fixes_credential u p c c1 :
  post_login u p c = (Json Success, c1) ->
  Server.users (db c1) !! u = Some p
  /\ post_login u p (open (db c1) []) = (Json Success, open (db c1) [])
  /\ forall p', truthy p' = true -> p' <> p ->
       post_login u p' (open (db c1) [])
       = (InvalidCredential, open (db c1) []).
Proof.
  intros H.
  destruct (post_login_cases u p c)
    as (r & c' & E & [(-> & Hu & Hp & Hcase)|(Hr & _)]);
    rewrite H in E; [injection E as <-|by injection E as <- <-].
  assert (Hstored : Server.users (db c1) !! u = Some p).
  { destruct Hcase as [[Hs ->]|[_ ->]]; [done|]. simpl.
    apply lookup_insert_eq. }
  split; [done|]. split.
  - rewrite (post_login_known u p _ Hu Hp p Hstored).
    by rewrite bool_decide_eq_true_2.
  - intros p' Hp' Hne.
    rewrite (post_login_known u p' _ Hu Hp' p Hstored).
    by rewrite bool_decide_eq_false_2.
Qed.

Lemma login_fixes_credential_witness :
  Server.users (db (post_login "bob" "2bb80d53" (open alice_tables [])).2)
    !! "bob" = Some "2bb80d53"
  /\ post_login "bob" "2bb80d53"
       (open (db (post_login "bob" "2bb80d53" (open alice_tables [])).2) [])
     = (Json Success,
        open (db (post_login "bob" "2bb80d53" (open alice_tables [])).2) [])
  /\ forall p', truthy p' = true -> p' <> "2bb80d53" ->
       post_login "bob" p'
         (open (db (post_login "bob" "2bb80d53" (open alice_tables [])).2) [])
       = (InvalidCredential,
          open (db (post_login "bob" "2bb80d53" (open alice_tables [])).2) []).
Proof.
  apply (login_fixes_credential "bob" "2bb80d53" (open alice_tables [])).
  vm_compute. reflexivity.
Defined.

(** X6. [POST /api/login] never overwrites: whatever it answers, under
    every fault schedule, the check-in rows are as before and every
    account that existed keeps its password. *)
Theorem login_never_overwrites u p c :
  Server.checkins (db (post_login u p c).2) = Server.checkins (db c)
  /\ forall u' q,
       Server.users (db c) !! u' = Some q ->
       Server.users (db (post_login u p c).2) !! u' = Some q.
Proof.
  destruct (post_login_cases u p c)
    as (r & c' & -> & [(-> & _ & _ & [[_ Hdb]|[Hnone Hdb]])|(_ & Hdb)]);
    cbn [fst snd]; rewrite Hdb; try done.
  split; [done|]. intros u' q Hq. cbn [Server.users].
  destruct (decide (u = u')) as [->|Hne]; [congruence|].
  by rewrite lookup_insert_ne.
Qed.

Lemma login_never_overwrites_witness :
  Server.users (db (post_login "alice" "letmein" (open alice_tables [])).2)
    !! "alice" = Some "5e884898".
Proof.
  apply (login_never_overwrites "alice" "letmein" (open alice_tables [])).
  apply lookup_insert_eq.
Defined.

(** ** Invariants of the store over every sequence of requests *)

Lemma get_users_db c : db (get_users c).2 = db c.
Proof.
  unfold get_users, handle, bind, query_users, query_checkins, bind,
    next_fault, get_tables, ret, throw.
  destruct c as [t sv [|[] [|[] fs]]]; simpl; try done;
    by destruct (assemble _ _).
Qed.

Lemma get_export_db c : db (get_export c).2 = db c.
Proof.
  unfold get_export, handle, bind, query_users, query_checkins, bind,
    next_fault, get_tables, ret, throw.
  destruct c as [t sv [|[] [|[] fs]]]; simpl; try done;
    by destruct (assemble _ _).
Qed.

Lemma imported_referential usersData :
  (forall u ud, usersData !! u = Some ud -> is_Some (Body.password ud)) ->
  referential (imported usersData).
Proof.
  intros Hpw. unfold referential, imported; simpl.
  apply Forall_forall. intros r Hr.
  apply list_elem_of_In, in_flat_map in Hr as ([u ud] & Hin & Hr).
  apply list_elem_of_In, elem_of_map_to_list in Hin.
  apply list_elem_of_In, user_rows_username in Hr. simpl in Hr.
  unfold has_account. rewrite Hr, lookup_omap, Hin. simpl.
  by apply Hpw in Hin.
Qed.

Lemma serve_referential rq t fs :
  referential t -> referential (db (Api.serve rq (open t fs))).
Proof.
  intros Href.
  destruct rq as [u p| |u d a|u d a|u|usersData|]; simpl.
  - destruct (post_login_cases u p (open t fs))
      as (r & c' & -> & [(-> & _ & _ & [[_ Hdb]|[Hnone Hdb]])|(_ & Hdb)]);
      cbn [fst snd]; rewrite Hdb; try done.
    apply (run_stmt_referential (InsertUser (Some u) (Some p)) t);
      [done|]. simpl in *. by rewrite Hnone.
  - by rewrite get_users_db.
  - destruct (post_checkin_cases u d a (open t fs))
      as (r & c' & E & [(-> & Hdb)|(Hr & Hdb)]);
      rewrite E; cbn [fst snd]; rewrite Hdb; [|done].
    apply post_checkin_success in E as (_ & _ & _ & [q Hq] & _).
    apply (run_stmt_referential
             (InsertCheckin (Some u) (Some d) (Some a)) t); [done|].
    simpl in *. by rewrite Hq.
  - destruct (delete_checkin_cases u d a (open t fs))
      as (r & c' & -> & [(-> & _ & _ & _ & Hdb)|(Hr & Hdb)]);
      cbn [fst snd]; rewrite Hdb; [|done].
    by apply (run_stmt_referential (DeleteCheckin u d a) t).
  - by apply delete_user_referential.
  - destruct (post_import_cases usersData (open t fs))
      as [(c' & -> & Hdb & Hpw)|(e & c' & -> & Hdb)];
      cbn [fst snd]; rewrite Hdb; [|done].
    by apply imported_referential.
  - by rewrite get_export_db.
Qed.

(** X7. After any sequence of requests to the API, each under any fault
    schedule, starting from the empty tables, every check-in row belongs
    to an account: the foreign key holds in every reachable state. *)
Theorem reachable_tables_referential requests :
  referential (Api.run requests empty_tables).
Proof.
  unfold Api.run.
  assert (G : forall t, referential t ->
    referential (foldl (fun t rq => db (Api.serve rq.1 (open t rq.2)))
                   t requests)).
  { induction requests as [|[rq fs] requests IH]; intros t Ht; simpl;
      [done|]. apply IH. by apply serve_referential. }
  apply G. constructor.
Qed.

Lemma NoDup_flat_map_key {V R} (key : R -> string)
    (f : string * V -> list R) (l : list (string * V)) :
  NoDup l.*1 ->
  (forall x r, r ∈ f x -> key r = x.1) ->
  (forall x, x ∈ l -> NoDup (f x)) ->
  NoDup (flat_map f l).
Proof.
  intros Hnd Hkey Hper. induction l as [|x l IH]; [constructor|].
  inversion Hnd as [|? ? Hnotin Hnd']; subst. cbn [flat_map].
  apply NoDup_app. split; [apply Hper; left|]. split.
  - intros r Hr Hr'.
    apply list_elem_of_In, in_flat_map in Hr' as (y & Hy & Hr').
    apply list_elem_of_In in Hy. apply list_elem_of_In in Hr'.
    apply Hnotin. rewrite <- (Hkey x r Hr), (Hkey y r Hr').
    apply list_elem_of_fmap. eauto.
  - apply IH; [done|]. intros y Hy. apply Hper. by right.
Qed.

Lemma imported_NoDup usersData :
  Api.duplicate_free usersData ->
  NoDup (Server.checkins (imported usersData)).
Proof.
  intros Hfree. unfold imported; simpl.
  apply (NoDup_flat_map_key username).
  - apply NoDup_fst_map_to_list.
  - apply user_rows_username.
  - intros [u ud] Hin. apply elem_of_map_to_list in Hin.
    unfold user_rows; simpl.
    destruct (Body.checkins ud) as [days|] eqn:Edays; [|constructor].
    apply (NoDup_flat_map_key date).
    + apply NoDup_fst_map_to_list.
    + intros x r. apply day_rows_date.
    + intros [d v] Hd. apply elem_of_map_to_list in Hd.
      unfold day_rows; simpl. apply NoDup_fmap_2.
      * by intros a1 a2 [=].
      * by apply (Hfree u ud days d v).
Qed.

Lemma serve_NoDup rq t fs :
  Api.imports_duplicate_free (rq, fs) ->
  NoDup (Server.checkins t) ->
  NoDup (Server.checkins (db (Api.serve rq (open t fs)))).
Proof.
  intros Himp Hnd.
  destruct rq as [u p| |u d a|u d a|u|usersData|]; simpl.
  - destruct (post_login_cases u p (open t fs))
      as (r & c' & -> & [(-> & _ & _ & [[_ Hdb]|[_ Hdb]])|(_ & Hdb)]);
      cbn [fst snd]; by rewrite Hdb.
  - by rewrite get_users_db.
  - destruct (post_checkin_cases u d a (open t fs))
      as (r & c' & E & [(-> & Hdb)|(Hr & Hdb)]);
      rewrite E; cbn [fst snd]; rewrite Hdb; [|done].
    pose proof (post_checkin_new_row u d a _ _ E) as Hnone.
    cbn [open db Server.checkins] in *.
    apply NoDup_app. split; [done|]. split; [|apply NoDup_singleton].
    intros r Hr Hr'. apply list_elem_of_singleton in Hr' as ->.
    assert (Hf : Checkin u d a ∈ filter (matches u d a) (Server.checkins t))
      by (apply list_elem_of_filter; by unfold matches).
    rewrite Hnone in Hf. by inversion Hf.
  - destruct (delete_checkin_cases u d a (open t fs))
      as (r & c' & -> & [(-> & _ & _ & _ & Hdb)|(Hr & Hdb)]);
      cbn [fst snd]; rewrite Hdb; [|done]. simpl.
    by apply NoDup_filter.
  - destruct (delete_user_outcomes u t fs)
      as (r & c' & -> & [[_ Hdb]|[[_ Hdb]|[_ Hdb]]]);
      cbn [fst snd]; rewrite Hdb; simpl; try done; by apply NoDup_filter.
  - destruct (post_import_cases usersData (open t fs))
      as [(c' & -> & Hdb & Hpw)|(e & c' & -> & Hdb)];
      cbn [fst snd]; rewrite Hdb; [|done].
    by apply imported_NoDup.
  - by rewrite get_export_db.
Qed.

(** X8. After any sequence of requests to the API starting from the
    empty tables, no check-in row is stored twice, provided every imported
    body lists an activity at most once per day. *)
Theorem reachable_tables_NoDup requests :
  Forall Api.imports_duplicate_free requests ->
  NoDup (Server.checkins (Api.run requests empty_tables)).
Proof.
  unfold Api.run.
  assert (G : forall t, Forall Api.imports_duplicate_free requests ->
    NoDup (Server.checkins t) ->
    NoDup (Server.checkins
             (foldl (fun t rq => db (Api.serve rq.1 (open t rq.2)))
                t requests))).
  { induction requests as [|[rq fs] requests IH]; intros t Hall Ht; simpl;
      [done|]. inversion Hall; subst. apply IH; [done|].
    by apply serve_NoDup. }
  intros Hall. apply G; [done|constructor].
Qed.

Lemma reachable_tables_NoDup_witness :
  NoDup (Server.checkins (Api.run scenario_requests empty_tables)).
Proof.
  apply (reachable_tables_NoDup scenario_requests).
  repeat constructor.
  intros u ud days d v Hu Hdays Hd. unfold bob_body in Hu.
  apply lookup_insert_Some in Hu as [[_ <-]|[_ Hu]];
    [|by rewrite lookup_empty in Hu].
  simpl in Hdays. injection Hdays as <-.
  apply lookup_insert_Some in Hd as [[_ <-]|[_ Hd]];
    [|by rewrite lookup_empty in Hd].
  simpl. apply NoDup_singleton.
Defined.

(** An import of an array that lists an activity twice stores two equal
    rows: the schema has no uniqueness constraint on check-ins. *)
Lemma import_duplicate_example :
  Server.checkins
    (Api.run [(Api.PostImport
                 (<["bob" := Body.UserData (Some "2bb80d53")
                      (Some (<["2024-01-02" :=
                                 Activities ["paper"; "paper"]]> ∅))]> ∅),
               [])] empty_tables)
  = [Checkin "bob" "2024-01-02" "paper"; Checkin "bob" "2024-01-02" "paper"].
Proof. vm_compute. reflexivity. Qed.

(** ** What the snapshot shows *)

(** X9. The feed over a snapshot that [GET /api/users] answers: a user
    appears with the activities [acts] for the day [d] exactly when the
    user is not named [__proto__] and has an account, [acts] are the
    activities of the user's rows of that day in row order, and there is
    at least one. *)
Theorem feed_of_snapshot (localeCompare : string -> string -> Z) t body d u
    acts :
  get_users (open t []) = (Json body, open t []) ->
  (u, acts) ∈ updateTodayActivity localeCompare (to_json <$> body) d
  <-> u <> "__proto__"
      /\ is_Some (Server.users t !! u)
      /\ acts = activity <$> filter (fun r => date r = d)
                              (filter (belongs_to u) (Server.checkins t))
      /\ acts <> [].
Proof.
  intros Hsent. apply get_users_Json in Hsent as (-> & _ & _).
  rewrite feed_elem. setoid_rewrite lookup_fmap.
  setoid_rewrite snapshot_of_lookup. split.
  - intros (userData & Hu & Hday).
    destruct (decide ("__proto__" = u)) as [<-|Hne];
      [by rewrite lookup_delete_eq in Hu|].
    rewrite lookup_delete_ne in Hu by done.
    destruct (Server.users t !! u) as [p|]; simpl in Hu; [|done].
    injection Hu as <-. simpl in Hday. rewrite lookup_fmap in Hday.
    rewrite by_date_lookup in Hday.
    destruct Hday as [(code & Hc & _)|[Hacts Hne']].
    + by destruct (activity <$> filter _ _).
    + split; [done|]. split; [eauto|]. split; [|done].
      destruct (activity <$> filter _ _) as [|x l]; [done|].
      simpl in Hacts. by injection Hacts as <-.
  - intros (Hu & [p Hp] & -> & Hne).
    rewrite lookup_delete_ne, Hp by done. simpl.
    eexists. split; [reflexivity|]. right. simpl.
    rewrite lookup_fmap, by_date_lookup.
    destruct (activity <$> filter _ _) as [|x l]; done.
Qed.

Lemma feed_of_snapshot_witness :
  ("alice", ["paper"])
  ∈ updateTodayActivity root_collation
      (to_json <$> (<["alice" := Data.UserData "5e884898"
                                   (<["2024-03-01" := ["paper"]]> ∅)]> ∅))
      "2024-03-01".
Proof.
  apply (feed_of_snapshot root_collation alice_tables
           (<["alice" := Data.UserData "5e884898"
                           (<["2024-03-01" := ["paper"]]> ∅)]> ∅)
           "2024-03-01" "alice" ["paper"]).
  - vm_compute. reflexivity.
  - split; [discriminate|]. split; [|split].
    + exists "5e884898". apply lookup_insert_eq.
    + vm_compute. reflexivity.
    + discriminate.
Defined.

(** A registered user named [__proto__] with a check-in of the day is in
    no feed: the snapshot has no object for that user. *)
Example feed_without_proto_user :
  let t := Tables (<["__proto__" := "2bb80d53"]> ∅)
             [Checkin "__proto__" "2024-03-01" "quant"] in
  get_users (open t []) = (Json ∅, open t []) /\
  updateTodayActivity root_collation (to_json <$> ∅) "2024-03-01" = [].
Proof. split; vm_compute; reflexivity. Qed.

Lemma grouped_delete_user u t :
  grouped (delete u (Server.users t))
    (filter (fun r => ~ belongs_to u r) (Server.checkins t))
  = delete u (grouped (Server.users t) (Server.checkins t)).
Proof.
  apply map_eq. intros u'. rewrite grouped_lookup.
  destruct (decide (u = u')) as [->|Hne].
  - by rewrite !lookup_delete_eq.
  - rewrite !lookup_delete_ne by done. rewrite grouped_lookup.
    destruct (Server.users t !! u'); simpl; [|done]. do 3 f_equal.
    induction (Server.checkins t) as [|r rows IH]; [done|].
    destruct (decide (belongs_to u r)) as [Hb|Hb].
    + rewrite (filter_cons_False (fun r => ~ belongs_to u r)) by tauto.
      rewrite (filter_cons_False (belongs_to u')); [done|].
      unfold belongs_to in *. congruence.
    + rewrite (filter_cons_True (fun r => ~ belongs_to u r)) by done.
      destruct (decide (belongs_to u' r)).
      * rewrite !(filter_cons_True (belongs_to u')) by done. by rewrite IH.
      * by rewrite !(filter_cons_False (belongs_to u')) by done.
Qed.

Lemma plain_delete_user u t :
  plain t ->
  plain (Tables (delete u (Server.users t))
           (filter (fun r => ~ belongs_to u r) (Server.checkins t))).
Proof.
  intros [Hp Hall]. split.
  - cbn [Server.users]. apply lookup_delete_None. by right.
  - cbn [Server.users Server.checkins]. rewrite Forall_forall in Hall.
    apply Forall_forall. intros r [Hnot Hr]%list_elem_of_filter.
    destruct (Hall r Hr) as [Hd Hu]. split; [done|].
    intros Hi. unfold has_account in *.
    rewrite lookup_delete_ne; [by apply Hu|].
    intros ->. by apply Hnot.
Qed.

(** X10. On plain tables, [DELETE /api/user/:username] without a store
    failure removes the user everywhere: the account row and the user's
    check-in rows are gone and all other rows stay, the snapshot of
    [GET /api/users] afterwards is the old snapshot without that user, and
    the user appears in no day's feed over it. *)
Theorem delete_user_removes_everywhere u t :
  plain t ->
  delete_user u (open t [])
  = (Json Success,
     open (Tables (delete u (Server.users t))
             (filter (fun r => ~ belongs_to u r) (Server.checkins t))) [])
  /\ (get_users (open t [])).1
     = Json (grouped (Server.users t) (Server.checkins t))
  /\ (get_users (open (db (delete_user u (open t [])).2) [])).1
     = Json (delete u (grouped (Server.users t) (Server.checkins t)))
  /\ forall (localeCompare : string -> string -> Z) d acts,
       (u, acts) ∉
         updateTodayActivity localeCompare
           (to_json <$>
              delete u (grouped (Server.users t) (Server.checkins t))) d.
Proof.
  intros Hplain.
  rewrite delete_user_success. cbn [snd open db Server.users Server.checkins].
  split; [done|]. split; [by rewrite get_users_plain|]. split.
  - rewrite get_users_plain by (by apply plain_delete_user).
    cbn [fst Server.users Server.checkins].
    by rewrite grouped_delete_user.
  - intros localeCompare d acts Hin.
    apply feed_elem in Hin as (userData & Hu & _).
    rewrite lookup_fmap in Hu.
    by rewrite lookup_delete_eq in Hu.
Qed.

Lemma delete_user_removes_everywhere_witness :
  (get_users (open (db (delete_user "alice" (open alice_tables [])).2) [])).1
  = Json (delete "alice"
            (grouped (Server.users alice_tables)
               (Server.checkins alice_tables))).
Proof.
  apply (delete_user_removes_everywhere "alice" alice_tables).
  apply alice_tables_plain.
Defined.

(** X11. What [GET /api/export] returns after a successful
    [POST /api/import] of a plain body: an object with exactly the users
    of the imported body, each with the password that was posted and, for
    every date, the posted activities as an array (a string as a
    one-element array), a day that was posted without activities being
    absent. *)
Theorem import_then_export usersData c c' :
  Server.plain_body usersData ->
  post_import usersData c = (Json Success, c') ->
  exists body,
    get_export (open (db c') []) = (Json body, open (db c') []) /\
    dom body = dom usersData /\
    forall u ud, usersData !! u = Some ud ->
      exists exported,
        body !! u = Some exported /\
        Body.password ud = Some (password exported) /\
        forall d, checkins exported !! d =
          match Body.checkins ud ≫= (fun days => days !! d) with
          | Some v =>
              match activityArray v with
              | [] => None
              | l => Some l
              end
          | None => None
          end.
Proof.
  intros Hplain H.
  destruct (post_import_cases usersData c)
    as [(c1 & E & Hdb & Hpw)|(e & c1 & E & _)]; rewrite H in E; [|done].
  injection E as <-. eexists.
  rewrite Hdb, get_export_plain by (by apply imported_plain).
  split; [reflexivity|]. split.
  - rewrite grouped_dom. cbn [imported Server.users].
    apply set_eq. intros u. rewrite !elem_of_dom, lookup_omap.
    destruct (usersData !! u) as [ud|] eqn:Eu; simpl.
    + split; [eauto|]. intros _. by apply (Hpw u).
    + split; intros [? ?]; done.
  - intros u ud Hu. destruct (Hpw u ud Hu) as [p Hp].
    destruct (export_imported_lookup usersData u ud p Hu Hp)
      as (exported & Hbody & <- & Hdays).
    exists exported. done.
Qed.

Lemma bob_body_plain : Server.plain_body bob_body.
Proof.
  split; [done|]. intros u ud days d Hu Hdays Hd. unfold bob_body in Hu.
  apply lookup_insert_Some in Hu as [[_ <-]|[_ Hu]];
    [|by rewrite lookup_empty in Hu].
  simpl in Hdays. injection Hdays as <-.
  rewrite lookup_insert_is_Some, lookup_empty in Hd.
  destruct Hd as [<-|[_ [? [=]]]]. reflexivity.
Qed.

Lemma import_then_export_witness :
  exists body,
    get_export
      (open (db (post_import bob_body (open alice_tables [])).2) [])
    = (Json body,
       open (db (post_import bob_body (open alice_tables [])).2) []) /\
    dom body = dom bob_body /\
    forall u ud, bob_body !! u = Some ud ->
      exists exported,
        body !! u = Some exported /\
        Body.password ud = Some (password exported) /\
        forall d, checkins exported !! d =
          match Body.checkins ud ≫= (fun days => days !! d) with
          | Some v =>
              match activityArray v with
              | [] => None
              | l => Some l
              end
          | None => None
          end.
Proof.
  apply (import_then_export bob_body (open alice_tables [])).
  - apply bob_body_plain.
  - vm_compute. reflexivity.
Defined.

(** A posted day named like a property of [Object.prototype] is
    imported, and the export that follows answers 500. *)
Example import_then_export_throws :
  let posted := <["bob" := Body.UserData (Some "2bb80d53")
                   (Some (<["constructor" := Activities ["paper"]]> ∅))]> ∅ in
  let c' := (post_import posted (open alice_tables [])).2 in
  post_import posted (open alice_tables []) = (Json Success, c') /\
  get_export (open (db c') []) = (StoreFailure TypeError, open (db c') []).
Proof. split; vm_compute; reflexivity. Qed.

(** * Numbers, placeholders, dates and digests *)

(** ** The placeholders of the SQL text *)

Lemma decimal_uint_no_placeholder (d : Decimal.uint) :
  Sql.placeholders (DecimalString.NilEmpty.string_of_uint d) = 0.
Proof. induction d; simpl; done. Qed.

Lemma placeholders_app a b :
  Sql.placeholders (String.append a b)
  = Sql.placeholders a + Sql.placeholders b.
Proof.
  induction a as [|c a IH]; simpl; [done|]. rewrite IH. lia.
Qed.

Lemma append_cons c x y :
  String.append (String c x) y = String c (String.append x y).
Proof. reflexivity. Qed.

Lemma string_append_assoc x y z :
  String.append (String.append x y) z = String.append x (String.append y z).
Proof.
  induction x as [|c x IH]; [done|]. rewrite !append_cons. by rewrite IH.
Qed.

Lemma replace_placeholders_none index sql :
  Sql.placeholders (Sql.replace_placeholders index sql) = 0.
Proof.
  revert index. induction sql as [|c sql IH]; intros index; simpl; [done|].
  destruct (Ascii.eqb c "?") eqn:E; simpl.
  - rewrite placeholders_app, IH. unfold decimal.
    by rewrite decimal_uint_no_placeholder.
  - by rewrite E, IH.
Qed.

Lemma replace_placeholders_app index a b :
  Sql.replace_placeholders index (String.append a b)
  = String.append (Sql.replace_placeholders index a)
      (Sql.replace_placeholders (index + Sql.placeholders a) b).
Proof.
  revert index. induction a as [|c a IH]; intros index; simpl.
  - by rewrite Nat.add_0_r.
  - destruct (Ascii.eqb c "?"); simpl.
    + rewrite IH, append_cons, string_append_assoc.
      by replace (index + S (Sql.placeholders a))
        with (S index + Sql.placeholders a) by lia.
    + by rewrite IH.
Qed.

Lemma replace_placeholders_id index sql :
  Sql.placeholders sql = 0 -> Sql.replace_placeholders index sql = sql.
Proof.
  induction sql as [|c sql IH]; simpl; [done|].
  destruct (Ascii.eqb c "?"); simpl; [done|]. intros H. by rewrite IH.
Qed.

(** X12. [convertSql]: without Postgres the text and the parameters are
    returned as they are; with Postgres the parameters are returned as they
    are, no [?] is left in the text, a [?] preceded by [k] others becomes
    [$] followed by the decimal numeral of [k + 1] with the numbering
    continuing behind it, and a text without [?] is unchanged. *)
Theorem convertSql_numbers_placeholders {P : Type} (params : P) :
  (forall sql, Sql.convertSql false sql params = (sql, params))
  /\ (forall sql, (Sql.convertSql true sql params).2 = params)
  /\ (forall sql, Sql.placeholders (Sql.convertSql true sql params).1 = 0)
  /\ (forall before after,
        (Sql.convertSql true
           (String.append before (String "?" after)) params).1
        = String.append (Sql.replace_placeholders 1 before)
            (String "$"
               (String.append (decimal (1 + Sql.placeholders before))
                  (Sql.replace_placeholders
                     (2 + Sql.placeholders before) after))))
  /\ (forall sql, Sql.placeholders sql = 0 ->
        (Sql.convertSql true sql params).1 = sql).
Proof.
  split; [done|]. split; [done|]. split; [|split].
  - intros sql. apply replace_placeholders_none.
  - intros before after. simpl. rewrite replace_placeholders_app. simpl.
    do 4 f_equal.
  - intros sql H. simpl. by apply replace_placeholders_id.
Qed.

Lemma convertSql_numbers_placeholders_witness :
  (Sql.convertSql true "SELECT 1" [("u" : string)]).1 = "SELECT 1".
Proof.
  apply (proj2 (proj2 (proj2 (proj2
    (convertSql_numbers_placeholders [("u" : string)])))) "SELECT 1").
  reflexivity.
Defined.

Example convertSql_checkin :
  Sql.convertSql true
    "SELECT * FROM checkins WHERE username = ? AND date = ? AND activity = ?"
    ["alice"; "2024-03-01"; "paper"]
  = ("SELECT * FROM checkins WHERE username = $1 AND date = $2 AND activity = $3",
     ["alice"; "2024-03-01"; "paper"]).
Proof. vm_compute. reflexivity. Qed.

(** ** Date keys *)

Lemma below_check (p : nat -> bool) lo k :
  forallb p (seq lo k) = true -> forall n, lo <= n < lo + k -> p n = true.
Proof.
  intros H n Hn. rewrite forallb_forall in H. apply H. apply in_seq. lia.
Qed.

Lemma string_length_app a b :
  String.length (String.append a b) = String.length a + String.length b.
Proof.
  induction a as [|c a IH]; [done|]. rewrite append_cons. simpl. by rewrite IH.
Qed.

Lemma compare_app a b s t :
  String.length a = String.length b ->
  String.compare (String.append a s) (String.append b t)
  = match String.compare a b with
    | Eq => String.compare s t
    | c => c
    end.
Proof.
  revert b. induction a as [|c a IH]; intros [|c' b] Hlen; try done.
  rewrite !append_cons. simpl. injection Hlen as Hlen.
  destruct (Ascii.compare c c'); [by apply IH|done|done].
Qed.

Lemma compare_refl s : String.compare s s = Eq.
Proof.
  pose proof (String.compare_antisym s s) as H.
  by destruct (String.compare s s).
Qed.

Lemma compare_lt_trans a b c :
  String.compare a b = Lt -> String.compare b c = Lt ->
  String.compare a c = Lt.
Proof.
  intros Hab Hbc.
  assert (Hle : String.le a c).
  { transitivity b; unfold String.le, String.leb; by rewrite ?Hab, ?Hbc. }
  unfold String.le, String.leb in Hle.
  destruct (String.compare a c) eqn:Hac; [|done|done].
  apply String.compare_eq_iff in Hac as ->.
  rewrite String.compare_antisym, Hbc in Hab. discriminate.
Qed.

Lemma pad2_length n :
  n < 100 -> String.length (padStart 2 "0" (decimal n)) = 2.
Proof.
  intros Hn.
  assert (H : forallb (fun n =>
            bool_decide (String.length (padStart 2 "0" (decimal n)) = 2))
            (seq 0 100) = true) by (vm_compute; reflexivity).
  pose proof (below_check _ 0 100 H n ltac:(lia)) as Hb.
  by apply bool_decide_eq_true in Hb.
Qed.

Lemma pad2_compare n m :
  n < 100 -> m < 100 ->
  String.compare (padStart 2 "0" (decimal n)) (padStart 2 "0" (decimal m))
  = Nat.compare n m.
Proof.
  intros Hn Hm.
  assert (H : forallb (fun n => forallb (fun m =>
            bool_decide
              (String.compare (padStart 2 "0" (decimal n))
                 (padStart 2 "0" (decimal m)) = Nat.compare n m))
            (seq 0 100)) (seq 0 100) = true) by (vm_compute; reflexivity).
  pose proof (below_check _ 0 100 H n ltac:(lia)) as H1. cbv beta in H1.
  pose proof (below_check _ 0 100 H1 m ltac:(lia)) as H2. cbv beta in H2.
  by apply bool_decide_eq_true in H2.
Qed.

(** A property of the decimal digits of every number from [lo] on, checked
    by counting up: the digits of the next number are the successor of the
    digits, least significant first. *)
Lemma counted_check (p : Decimal.uint -> bool) lo k :
  (Nat.iter k (fun s => (Decimal.Little.succ s.1, s.2 && p s.1))
     (DecimalNat.Unsigned.to_lu lo, true)).2 = true ->
  forall n, lo <= n < lo + k -> p (DecimalNat.Unsigned.to_lu n) = true.
Proof.
  set (f := fun s : Decimal.uint * bool =>
              (Decimal.Little.succ s.1, s.2 && p s.1)).
  assert (G : forall k,
    (Nat.iter k f (DecimalNat.Unsigned.to_lu lo, true)).1
    = DecimalNat.Unsigned.to_lu (lo + k) /\
    ((Nat.iter k f (DecimalNat.Unsigned.to_lu lo, true)).2 = true ->
     forall n, lo <= n < lo + k ->
       p (DecimalNat.Unsigned.to_lu n) = true)).
  { clear k. induction k as [|k [IH1 IH2]].
    - simpl. rewrite Nat.add_0_r. split; [done|]. intros _ n Hn. lia.
    - cbn [Nat.iter nat_rect]. unfold f at 1 3. cbn [fst snd]. split.
      + fold (Nat.iter k f (DecimalNat.Unsigned.to_lu lo, true)).
        rewrite IH1, Nat.add_succ_r. reflexivity.
      + fold (Nat.iter k f (DecimalNat.Unsigned.to_lu lo, true)).
        intros [Hk Hp]%andb_true_iff n Hn.
        destruct (decide (n = lo + k)) as [->|Hne].
        * by rewrite <- IH1.
        * apply IH2; [done|lia]. }
  apply G.
Qed.

Lemma decimal_digits n :
  decimal n
  = DecimalString.NilEmpty.string_of_uint
      (Decimal.rev (DecimalNat.Unsigned.to_lu n)).
Proof. unfold decimal. by rewrite DecimalNat.Unsigned.to_uint_alt. Qed.

Lemma year_length y :
  1000 <= y < 10 * 1000 -> String.length (decimal y) = 4.
Proof.
  intros Hy. rewrite decimal_digits.
  pose proof (counted_check
    (fun lu => Nat.eqb
       (String.length
          (DecimalString.NilEmpty.string_of_uint (Decimal.rev lu))) 4)
    1000 (9 * 1000) ltac:(vm_compute; reflexivity) y ltac:(lia)) as Hb.
  by apply Nat.eqb_eq in Hb.
Qed.

Lemma year_next y :
  1000 <= y < 10 * 1000 - 1 ->
  String.compare (decimal y) (decimal (S y)) = Lt.
Proof.
  intros Hy. rewrite !decimal_digits.
  pose proof (counted_check
    (fun lu =>
       match String.compare
               (DecimalString.NilEmpty.string_of_uint (Decimal.rev lu))
               (DecimalString.NilEmpty.string_of_uint
                  (Decimal.rev (Decimal.Little.succ lu)))
       with
       | Lt => true
       | _ => false
       end)
    1000 (9 * 1000 - 1) ltac:(vm_compute; reflexivity) y ltac:(lia)) as Hb.
  cbv beta in Hb. change (DecimalNat.Unsigned.to_lu (S y))
    with (Decimal.Little.succ (DecimalNat.Unsigned.to_lu y)).
  by destruct (String.compare _ _).
Qed.

Lemma year_lt y y' :
  1000 <= y -> y < y' -> y' < 10 * 1000 ->
  String.compare (decimal y) (decimal y') = Lt.
Proof.
  intros Hlo Hlt. induction Hlt as [|y' Hle IH]; intros Hhi.
  - apply year_next. lia.
  - apply (compare_lt_trans _ (decimal y')); [apply IH; lia|].
    apply year_next. unfold lt in *. lia.
Qed.

Lemma year_compare y y' :
  1000 <= y < 10 * 1000 -> 1000 <= y' < 10 * 1000 ->
  String.compare (decimal y) (decimal y') = Nat.compare y y'.
Proof.
  intros Hy Hy'. destruct (Nat.compare_spec y y') as [->|Hlt|Hgt].
  - apply compare_refl.
  - apply year_lt; lia.
  - rewrite String.compare_antisym, (year_lt y' y); [done|lia..].
Qed.

Lemma date_key_compare (a b : Dates.Date) :
  Dates.valid a -> Dates.valid b ->
  String.compare (Dates.getTodayString a) (Dates.getTodayString b)
  = Dates.chronological a b.
Proof.
  intros (Hya & Hma & Hda) (Hyb & Hmb & Hdb).
  unfold Dates.getTodayString, Dates.dateString, Dates.chronological.
  rewrite compare_app by (rewrite !year_length; done).
  rewrite year_compare by done.
  destruct (Nat.compare_spec (Dates.getFullYear a) (Dates.getFullYear b));
    [|done|done].
  change (String.compare (String "-" ?x) (String "-" ?y))
    with (String.compare x y).
  rewrite compare_app by (rewrite !pad2_length; lia).
  rewrite pad2_compare by lia.
  replace (Nat.compare (Dates.getMonth a + 1) (Dates.getMonth b + 1))
    with (Nat.compare (Dates.getMonth a) (Dates.getMonth b))
    by (rewrite !(Nat.add_comm _ 1); by rewrite <- Nat.compare_succ).
  destruct (Nat.compare_spec (Dates.getMonth a) (Dates.getMonth b));
    [|done|done].
  change (String.compare (String "-" ?x) (String "-" ?y))
    with (String.compare x y).
  apply pad2_compare; lia.
Qed.

Lemma date_key_length (a : Dates.Date) :
  Dates.valid a -> String.length (Dates.getTodayString a) = 10.
Proof.
  intros (Hya & Hma & Hda).
  unfold Dates.getTodayString, Dates.dateString.
  rewrite string_length_app, year_length by done. simpl.
  rewrite string_length_app, pad2_length by lia. simpl.
  rewrite pad2_length by lia. done.
Qed.

Lemma chronological_eq (a b : Dates.Date) :
  Dates.chronological a b = Eq -> a = b.
Proof.
  unfold Dates.chronological.
  destruct a as [ya ma da], b as [yb mb db]; simpl.
  destruct (Nat.compare_spec ya yb); [|done|done].
  destruct (Nat.compare_spec ma mb); [|done|done].
  destruct (Nat.compare_spec da db); [|done|done].
  by subst.
Qed.

(** X13. The keys [getTodayString] builds sort like the calendar: for
    two days with four-digit years, months 0 to 11 and days 1 to 31, the
    key has ten characters, comparing the keys as strings gives the
    chronological order of the days, and equal keys mean the same day. *)
Theorem date_keys_sort_chronologically (a b : Dates.Date) :
  Dates.valid a -> Dates.valid b ->
  String.length (Dates.getTodayString a) = 10
  /\ String.compare (Dates.getTodayString a) (Dates.getTodayString b)
     = Dates.chronological a b
  /\ (Dates.getTodayString a = Dates.getTodayString b -> a = b).
Proof.
  intros Ha Hb. split; [by apply date_key_length|].
  split; [by apply date_key_compare|].
  intros Heq. apply chronological_eq.
  rewrite <- (date_key_compare a b) by done. rewrite Heq. apply compare_refl.
Qed.

Lemma date_keys_sort_chronologically_witness :
  String.length (Dates.getTodayString (Dates.MkDate 2024 1 29)) = 10
  /\ String.compare (Dates.getTodayString (Dates.MkDate 2024 1 29))
       (Dates.getTodayString (Dates.MkDate 2024 2 1))
     = Dates.chronological (Dates.MkDate 2024 1 29) (Dates.MkDate 2024 2 1)
  /\ (Dates.getTodayString (Dates.MkDate 2024 1 29)
      = Dates.getTodayString (Dates.MkDate 2024 2 1) ->
      Dates.MkDate 2024 1 29 = Dates.MkDate 2024 2 1).
Proof.
  apply (date_keys_sort_chronologically
           (Dates.MkDate 2024 1 29) (Dates.MkDate 2024 2 1));
    unfold Dates.valid; simpl; lia.
Defined.

(** Outside the four-digit years the keys do not sort by date. *)
Example date_keys_five_digit_year :
  String.compare (Dates.getTodayString (Dates.MkDate (10 * 1000) 0 1))
    (Dates.getTodayString (Dates.MkDate (10 * 1000 - 1) 11 31)) = Lt.
Proof. vm_compute. reflexivity. Qed.

(** ** The digest as a string *)

Lemma append_nil_r s : String.append s "" = s.
Proof. induction s as [|c s IH]; [done|]. by rewrite append_cons, IH. Qed.

Lemma concat_empty_cons x xs :
  String.concat "" (x :: xs) = String.append x (String.concat "" xs).
Proof. destruct xs; simpl; [by rewrite append_nil_r|done]. Qed.

Lemma append_inj_length a b s t :
  String.length a = String.length b ->
  String.append a s = String.append b t -> a = b /\ s = t.
Proof.
  revert b. induction a as [|c a IH]; intros [|c' b] Hlen; try done.
  rewrite !append_cons. injection Hlen as Hlen. intros [= -> H].
  apply IH in H as [-> ->]; done.
Qed.

Lemma hex2_length b :
  b < 256 -> String.length (padStart 2 "0" (hexadecimal b)) = 2.
Proof.
  intros Hb.
  assert (H : forallb (fun b =>
            bool_decide (String.length (padStart 2 "0" (hexadecimal b)) = 2))
            (seq 0 256) = true) by (vm_compute; reflexivity).
  pose proof (below_check _ 0 256 H b ltac:(lia)) as Hc.
  by apply bool_decide_eq_true in Hc.
Qed.

Lemma hex2_inj a b :
  a < 256 -> b < 256 ->
  padStart 2 "0" (hexadecimal a) = padStart 2 "0" (hexadecimal b) -> a = b.
Proof.
  intros Ha Hb.
  assert (H : forallb (fun a => forallb (fun b =>
            implb (bool_decide (padStart 2 "0" (hexadecimal a)
                                = padStart 2 "0" (hexadecimal b)))
                  (bool_decide (a = b)))
            (seq 0 256)) (seq 0 256) = true) by (vm_compute; reflexivity).
  pose proof (below_check _ 0 256 H a ltac:(lia)) as H1. cbv beta in H1.
  pose proof (below_check _ 0 256 H1 b ltac:(lia)) as H2. cbv beta in H2.
  intros Heq. rewrite bool_decide_eq_true_2 in H2 by done. simpl in H2.
  by apply bool_decide_eq_true in H2.
Qed.

(** X14. The hexadecimal form [hashPassword] returns: for an array of
    bytes it has two characters per byte, and two arrays of bytes with the
    same hexadecimal form are the same array. *)
Theorem hashHex_fixed_length_injective (hashArray : list nat) :
  Forall (fun b => b < 256) hashArray ->
  String.length (Digest.hashHex hashArray) = 2 * length hashArray
  /\ forall other,
       Forall (fun b => b < 256) other ->
       Digest.hashHex hashArray = Digest.hashHex other ->
       hashArray = other.
Proof.
  unfold Digest.hashHex. intros Hbytes. split.
  - induction Hbytes as [|b bs Hb Hbs IH]; [done|].
    rewrite fmap_cons, concat_empty_cons, string_length_app, IH.
    rewrite hex2_length by done. simpl. lia.
  - induction Hbytes as [|b bs Hb Hbs IH]; intros other Hother Heq.
    + destruct Hother as [|b' bs' Hb' _]; [done|]. exfalso.
      rewrite fmap_cons, concat_empty_cons in Heq.
      apply (f_equal String.length) in Heq.
      rewrite string_length_app, hex2_length in Heq by done.
      simpl in Heq. lia.
    + destruct Hother as [|b' bs' Hb' Hbs'].
      * exfalso. rewrite fmap_cons, concat_empty_cons in Heq.
        apply (f_equal String.length) in Heq.
        rewrite string_length_app, hex2_length in Heq by done.
        simpl in Heq. lia.
      * rewrite !fmap_cons, !concat_empty_cons in Heq.
        apply append_inj_length in Heq as [Hhd Htl];
          [|by rewrite !hex2_length].
        apply hex2_inj in Hhd; [|done..]. subst b'.
        f_equal. by apply IH.
Qed.

Lemma hashHex_fixed_length_injective_witness :
  String.length (Digest.hashHex [0; 255; 16]) = 2 * length [0; 255; 16]
  /\ forall other,
       Forall (fun b => b < 256) other ->
       Digest.hashHex [0; 255; 16] = Digest.hashHex other ->
       [0; 255; 16] = other.
Proof.
  apply (hashHex_fixed_length_injective [0; 255; 16]).
  repeat constructor; lia.
Defined.
(** * Further properties of the browser scripts *)

(** ** Toggling an activity in the browser-local script *)

Lemma indexOf_None activity l : indexOf activity l = None <-> activity ∉ l.
Proof.
  induction l as [|x l IH]; simpl.
  - split; [intros _; apply not_elem_of_nil|done].
  - destruct (decide (x = activity)) as [->|Hne].
    + split; [done|]. intros H. exfalso. apply H. left.
    + rewrite not_elem_of_cons. destruct (indexOf activity l); simpl.
      * split; [done|]. intros [_ H]. by apply IH in H.
      * split; [|done]. intros _. split; [done|]. by apply IH.
Qed.

Lemma indexOf_Some activity l index :
  indexOf activity l = Some index ->
  exists l1 l2,
    l = l1 ++ activity :: l2 /\ length l1 = index /\ activity ∉ l1.
Proof.
  revert index. induction l as [|x l IH]; intros index; simpl; [done|].
  destruct (decide (x = activity)) as [->|Hne].
  - intros [= <-]. exists [], l. split; [done|]. split; [done|].
    apply not_elem_of_nil.
  - destruct (indexOf activity l) as [i|]; simpl; [|done].
    intros [= <-]. destruct (IH i eq_refl) as (l1 & l2 & -> & <- & Hn).
    exists (x :: l1), l2. split; [done|]. split; [done|].
    rewrite not_elem_of_cons. split; [done|]. exact Hn.
Qed.

Lemma indexOf_snoc activity l :
  activity ∉ l -> indexOf activity (l ++ [activity]) = Some (length l).
Proof.
  induction l as [|x l IH]; simpl.
  - intros _. by rewrite decide_True.
  - rewrite not_elem_of_cons. intros [Hne Hn].
    rewrite decide_False by done. by rewrite IH.
Qed.

(** What splicing out or pushing the activity does to a list. *)
Lemma spliced_or_pushed activity l :
  NoDup l ->
  let l' := match indexOf activity l with
            | Some index => delete index l
            | None => l ++ [activity]
            end in
  NoDup l' /\ (activity ∈ l' <-> activity ∉ l) /\
  forall x, x <> activity -> (x ∈ l' <-> x ∈ l).
Proof.
  intros Hnd. destruct (indexOf activity l) as [index|] eqn:E; simpl.
  - apply indexOf_Some in E as (l1 & l2 & -> & <- & Hn1).
    rewrite delete_middle.
    apply NoDup_app in Hnd as (Hnd1 & Hdisj & Hnd2).
    apply NoDup_cons in Hnd2 as (Hn2 & Hnd2).
    split; [|split].
    + apply NoDup_app. split; [done|]. split; [|done].
      intros x Hx Hx2. apply (Hdisj x Hx). by right.
    + rewrite elem_of_app. split.
      * intros [H|H]; contradiction.
      * intros H. exfalso. apply H. rewrite elem_of_app. right. left.
    + intros x Hx. rewrite !elem_of_app, elem_of_cons. tauto.
  - apply indexOf_None in E. split; [|split].
    + apply NoDup_app. split; [done|]. split; [|apply NoDup_singleton].
      intros x Hx ->%list_elem_of_singleton. contradiction.
    + rewrite elem_of_app, list_elem_of_singleton. naive_solver.
    + intros x Hx. rewrite elem_of_app, list_elem_of_singleton. tauto.
Qed.

Lemma load_store_users users b :
  Local.load_users (Local.store_users users b) = users.
Proof. reflexivity. Qed.

(** What the script reads as today's activities after a toggle. *)
Lemma local_toggle_today today activity b userData :
  Local.load_users b !! property_key (Local.currentUser b) = Some userData ->
  Local.currentUser (Local.toggleCheckin today activity b)
  = Local.currentUser b /\
  getTodayCheckin (Local.load_users (Local.toggleCheckin today activity b))
    (Local.currentUser b) today
  = match indexOf activity
            (getTodayCheckin (Local.load_users b) (Local.currentUser b) today)
    with
    | Some index =>
        delete index
          (getTodayCheckin (Local.load_users b) (Local.currentUser b) today)
    | None =>
        getTodayCheckin (Local.load_users b) (Local.currentUser b) today
        ++ [activity]
    end.
Proof.
  intros Hu. unfold Local.toggleCheckin, getTodayCheckin. rewrite Hu.
  split; [done|]. cbn [Local.load_users Local.store_users Local.item_users].
  rewrite lookup_insert_eq. cbn [checkins].
  set (before := match checkins userData !! today with
                 | Some (Legacy code) => [code]
                 | Some (Activities codes) => codes
                 | None => []
                 end).
  set (after := match indexOf activity before with
                | Some index => delete index before
                | None => before ++ [activity]
                end).
  case_bool_decide as Hlen.
  - rewrite lookup_delete_eq. by destruct after.
  - by rewrite lookup_insert_eq.
Qed.

(** X15. A toggle in the browser-local script flips exactly the
    activity that was clicked: when the logged-in user is stored and
    today's array lists no activity twice, then after [toggleCheckin]
    today's array still lists no activity twice, contains the activity
    exactly when it did not before, and contains any other activity
    exactly when it did before. *)
Theorem local_toggle_flips today activity b userData :
  Local.load_users b !! property_key (Local.currentUser b) = Some userData ->
  NoDup (getTodayCheckin (Local.load_users b) (Local.currentUser b) today) ->
  let before :=
    getTodayCheckin (Local.load_users b) (Local.currentUser b) today in
  let after :=
    getTodayCheckin (Local.load_users (Local.toggleCheckin today activity b))
      (Local.currentUser (Local.toggleCheckin today activity b)) today in
  NoDup after /\
  (activity ∈ after <-> activity ∉ before) /\
  forall x, x <> activity -> (x ∈ after <-> x ∈ before).
Proof.
  intros Hu Hnd before after.
  destruct (local_toggle_today today activity b userData Hu) as [Hcu Hday].
  subst after. rewrite Hcu, Hday. by apply spliced_or_pushed.
Qed.

Lemma local_toggle_flips_witness :
  let b := Local.Browser (Some mixed_case_users) (Some "Bob") (Some "Bob") in
  let after :=
    getTodayCheckin
      (Local.load_users (Local.toggleCheckin "2024-03-01" "paper" b))
      (Local.currentUser (Local.toggleCheckin "2024-03-01" "paper" b))
      "2024-03-01" in
  NoDup after /\
  ("paper" ∈ after <-> "paper" ∉ ["paper"; "quant"]) /\
  forall x, x <> "paper" -> (x ∈ after <-> x ∈ ["paper"; "quant"]).
Proof.
  apply (local_toggle_flips "2024-03-01" "paper"
           (Local.Browser (Some mixed_case_users) (Some "Bob") (Some "Bob"))
           (Data.UserData "2bb80d53"
              (<["2024-03-01" := Activities ["paper"; "quant"]]> ∅))).
  - vm_compute. reflexivity.
  - apply (bool_decide_unpack _). vm_compute. exact I.
Defined.

(** X16. What a toggle in the browser-local script touches: every
    other user is stored as before; the logged-in user keeps the password
    and the entries of all other days; when the logged-in user is not
    stored, nothing is written, and the script logs out unless the user is
    named like a property of [Object.prototype], where the function throws
    and the user stays logged in. *)
Theorem local_toggle_frame today activity b :
  (forall u, u <> property_key (Local.currentUser b) ->
     Local.load_users (Local.toggleCheckin today activity b) !! u
     = Local.load_users b !! u) /\
  (forall userData,
     Local.load_users b !! property_key (Local.currentUser b) = Some userData ->
     exists userData',
       Local.load_users (Local.toggleCheckin today activity b)
         !! property_key (Local.currentUser b) = Some userData' /\
       password userData' = password userData /\
       forall d, d <> today ->
         checkins userData' !! d = checkins userData !! d) /\
  (Local.load_users b !! property_key (Local.currentUser b) = None ->
     Local.load_users (Local.toggleCheckin today activity b)
     = Local.load_users b /\
     Local.item_users (Local.toggleCheckin today activity b)
     = Local.item_users b /\
     (inherited (property_key (Local.currentUser b)) = false ->
      Local.currentUser (Local.toggleCheckin today activity b) = None /\
      Local.item_currentUser (Local.toggleCheckin today activity b) = None) /\
     (inherited (property_key (Local.currentUser b)) = true ->
      Local.toggleCheckin today activity b = b)).
Proof.
  unfold Local.toggleCheckin.
  destruct (Local.load_users b !! property_key (Local.currentUser b))
    as [ud|] eqn:Hu.
  - split; [|split]; [| |done].
    + intros u Hne. cbn [Local.load_users Local.store_users Local.item_users].
      by rewrite lookup_insert_ne.
    + intros ? [= <-]. eexists.
      cbn [Local.load_users Local.store_users Local.item_users].
      split; [apply lookup_insert_eq|]. split; [done|].
      intros d Hd. cbn [checkins]. case_bool_decide.
      * by rewrite lookup_delete_ne.
      * by rewrite lookup_insert_ne.
  - destruct (inherited (property_key (Local.currentUser b))).
    + split; [done|]. split; [done|]. intros _. done.
    + split; [done|]. split; [done|]. intros _. done.
Qed.

(** A logged-in user named [constructor] whose entry an import has
    removed: the toggle throws and the user stays logged in. *)
Example local_toggle_constructor :
  let b := Local.Browser (Some ∅) (Some "constructor") (Some "constructor") in
  Local.toggleCheckin "2024-03-01" "paper" b = b.
Proof. reflexivity. Qed.

Lemma local_toggle_frame_witness :
  Local.load_users
    (Local.toggleCheckin "2024-03-01" "quant"
       (Local.Browser (Some mixed_case_users) (Some "alice") (Some "alice")))
    !! "Bob"
  = Local.load_users
      (Local.Browser (Some mixed_case_users) (Some "alice") (Some "alice"))
      !! "Bob".
Proof.
  apply (local_toggle_frame "2024-03-01" "quant"
           (Local.Browser (Some mixed_case_users) (Some "alice")
              (Some "alice"))).
  discriminate.
Defined.

(** X17. Toggling an activity on and off again in the browser-local
    script: when the logged-in user is stored and today's array does not
    contain the activity, two toggles leave the user logged in and give
    back today's array; when today's entry was absent or a non-empty
    array, the stored users object is exactly the one before. *)
Theorem local_toggle_twice today activity b userData :
  Local.load_users b !! property_key (Local.currentUser b) = Some userData ->
  activity ∉ getTodayCheckin (Local.load_users b) (Local.currentUser b) today ->
  let b2 :=
    Local.toggleCheckin today activity
      (Local.toggleCheckin today activity b) in
  Local.currentUser b2 = Local.currentUser b /\
  getTodayCheckin (Local.load_users b2) (Local.currentUser b2) today
  = getTodayCheckin (Local.load_users b) (Local.currentUser b) today /\
  ((checkins userData !! today = None \/
    exists code codes,
      checkins userData !! today = Some (Activities (code :: codes))) ->
   Local.load_users b2 = Local.load_users b).
Proof.
  intros Hu Hn b2.
  destruct (local_toggle_today today activity b userData Hu) as [Hcu1 Hday1].
  pose proof (proj2 (indexOf_None activity _) Hn) as Hidx.
  rewrite Hidx in Hday1.
  set (b1 := Local.toggleCheckin today activity b) in *.
  assert (Hu1 : exists ud1,
    Local.load_users b1 !! property_key (Local.currentUser b1) = Some ud1).
  { rewrite Hcu1. subst b1. unfold Local.toggleCheckin. rewrite Hu.
    cbn [Local.load_users Local.store_users Local.item_users].
    rewrite lookup_insert_eq. eauto. }
  destruct Hu1 as [ud1 Hu1].
  destruct (local_toggle_today today activity b1 ud1 Hu1) as [Hcu2 Hday2].
  rewrite Hcu1 in Hday2. rewrite Hday1, indexOf_snoc in Hday2 by done.
  rewrite delete_middle, app_nil_r in Hday2.
  split; [subst b2; congruence|].
  split; [subst b2; rewrite Hcu2, Hcu1; exact Hday2|].
  intros Hday. subst b2 b1.
  unfold getTodayCheckin in Hn. rewrite Hu in Hn.
  unfold Local.toggleCheckin at 2. rewrite Hu.
  assert (Hpush : forall l, activity ∉ l ->
    match indexOf activity l with
    | Some index => delete index l
    | None => l ++ [activity]
    end = l ++ [activity]).
  { intros l Hl. by rewrite (proj2 (indexOf_None activity l) Hl). }
  rewrite Hpush by exact Hn. clear Hpush.
  rewrite bool_decide_false
    by (rewrite length_app; simpl; lia).
  unfold Local.toggleCheckin.
  cbn [Local.load_users Local.store_users Local.item_users Local.currentUser].
  rewrite lookup_insert_eq. cbn [checkins password].
  rewrite lookup_insert_eq, indexOf_snoc by exact Hn.
  rewrite delete_middle, app_nil_r, insert_insert_eq.
  destruct userData as [pw days]. cbn [checkins password] in *.
  destruct Hday as [Hday | (code & codes & Hday)]; rewrite Hday.
  - rewrite bool_decide_true by done.
    rewrite delete_insert_id by done. rewrite load_store_users.
    by apply insert_id.
  - rewrite bool_decide_false by done.
    rewrite insert_insert_eq, (insert_id days) by done.
    rewrite load_store_users. by apply insert_id.
Qed.

Lemma local_toggle_twice_witness :
  let b := Local.Browser (Some mixed_case_users) (Some "alice") (Some "alice") in
  let b2 :=
    Local.toggleCheckin "2024-03-01" "paper"
      (Local.toggleCheckin "2024-03-01" "paper" b) in
  Local.currentUser b2 = Some "alice" /\
  getTodayCheckin (Local.load_users b2) (Local.currentUser b2) "2024-03-01"
  = ["fitness"] /\
  Local.load_users b2 = mixed_case_users.
Proof.
  pose proof (local_toggle_twice "2024-03-01" "paper"
           (Local.Browser (Some mixed_case_users) (Some "alice") (Some "alice"))
           (Data.UserData "5e884898"
              (<["2024-03-01" := Activities ["fitness"]]> ∅))) as H.
  destruct H as (H1 & H2 & H3).
  - vm_compute. reflexivity.
  - apply (bool_decide_unpack _). vm_compute. exact I.
  - split; [exact H1|]. split; [exact H2|]. apply H3. right.
    exists "fitness", []. vm_compute. reflexivity.
Defined.
(** ** The cache of the server-backed script *)

Lemma in_sync_lookup p :
  RemotePage.in_sync p <->
  forall u,
    Remote.usersData p !! u
    = (fun pw =>
         Data.UserData pw
           (Activities <$>
              by_date (filter (belongs_to u)
                         (Server.checkins (db (Remote.server p))))))
        <$> delete "__proto__" (Server.users (db (Remote.server p))) !! u.
Proof.
  unfold RemotePage.in_sync. split.
  - intros -> u. rewrite lookup_fmap, snapshot_of_lookup.
    by destruct (delete "__proto__" _ !! u).
  - intros H. apply map_eq. intros u.
    rewrite H, lookup_fmap, snapshot_of_lookup.
    by destruct (delete "__proto__" _ !! u).
Qed.

Lemma is_ok_success (r : response success) :
  Remote.is_ok r = true <-> r = Json Success.
Proof. destruct r as [[]| | | |e]; simpl; split; done. Qed.

Lemma delete_index_filter activity l index :
  NoDup l -> indexOf activity l = Some index ->
  delete index l = filter (fun x => x <> activity) l.
Proof.
  intros Hnd (l1 & l2 & -> & <- & Hn1)%indexOf_Some.
  rewrite delete_middle, filter_app.
  apply NoDup_app in Hnd as (_ & _ & Hnd2).
  apply NoDup_cons in Hnd2 as (Hn2 & _).
  rewrite filter_cons_False by (intros H; by apply H).
  rewrite !filter_all; [done| |].
  - intros x Hx ->. contradiction.
  - intros x Hx ->. contradiction.
Qed.

Lemma filter_belongs_not_matches u' u d a (rows : list checkin_row) :
  u' <> u ->
  filter (belongs_to u') (filter (fun r => ~ matches u d a r) rows)
  = filter (belongs_to u') rows.
Proof.
  intros Hne. induction rows as [|r rows IH]; [done|].
  destruct (decide (belongs_to u' r)) as [Hb|Hb].
  - rewrite (filter_cons_True (fun r => ~ matches u d a r))
      by (intros (Hu & _); unfold belongs_to in Hb; congruence).
    rewrite !(filter_cons_True (belongs_to u')) by done. by rewrite IH.
  - rewrite (filter_cons_False (belongs_to u') r rows) by done.
    destruct (decide (matches u d a r)).
    + rewrite filter_cons_False by tauto. done.
    + rewrite filter_cons_True by done.
      rewrite filter_cons_False by done. done.
Qed.

Lemma day_not_matches u d a d' (rows : list checkin_row) :
  activity <$>
    filter (fun r => date r = d')
      (filter (belongs_to u) (filter (fun r => ~ matches u d a r) rows))
  = if decide (d' = d)
    then filter (fun x => x <> a)
           (activity <$>
              filter (fun r => date r = d') (filter (belongs_to u) rows))
    else activity <$>
           filter (fun r => date r = d') (filter (belongs_to u) rows).
Proof.
  induction rows as [|r rows IH]; [by destruct (decide (d' = d))|].
  destruct (decide (belongs_to u r)) as [Hb|Hb].
  2:{ rewrite (filter_cons_False (belongs_to u) r rows) by done.
      rewrite (filter_cons_True (fun r => ~ matches u d a r))
        by (intros (Hu & _); by apply Hb).
      rewrite (filter_cons_False (belongs_to u)) by done. exact IH. }
  rewrite (filter_cons_True (belongs_to u) r rows) by done.
  destruct (decide (date r = d')) as [Hd|Hd].
  2:{ rewrite (filter_cons_False (fun r => date r = d') r) by done.
      destruct (decide (matches u d a r)).
      - rewrite (filter_cons_False (fun r => ~ matches u d a r)) by tauto.
        exact IH.
      - rewrite (filter_cons_True (fun r => ~ matches u d a r)) by done.
        rewrite (filter_cons_True (belongs_to u)) by done.
        rewrite (filter_cons_False (fun r => date r = d')) by done.
        exact IH. }
  rewrite (filter_cons_True (fun r => date r = d') r) by done.
  rewrite fmap_cons.
  destruct (decide (matches u d a r)) as [Hm|Hm].
  - rewrite (filter_cons_False (fun r => ~ matches u d a r)) by tauto.
    rewrite IH. destruct Hm as (_ & Hdd & Ha).
    destruct (decide (d' = d)) as [_|Hne]; [|congruence].
    rewrite (filter_cons_False (fun x => x <> a)) by tauto. done.
  - rewrite (filter_cons_True (fun r => ~ matches u d a r)) by done.
    rewrite (filter_cons_True (belongs_to u)) by done.
    rewrite (filter_cons_True (fun r => date r = d')) by done.
    rewrite fmap_cons, IH. destruct (decide (d' = d)) as [->|Hne]; [|done].
    rewrite (filter_cons_True (fun x => x <> a)); [done|].
    intros Ha. apply Hm. done.
Qed.

Lemma in_sync_same_tables p p' :
  Remote.usersData p' = Remote.usersData p ->
  db (Remote.server p') = db (Remote.server p) ->
  RemotePage.in_sync p -> RemotePage.in_sync p'.
Proof. unfold RemotePage.in_sync. by intros -> ->. Qed.

(** X18. The cache of the server-backed script follows the server:
    when the cache equals the snapshot [GET /api/users] would return, the
    logged-in user is in it and today's array lists no activity twice,
    then after [toggleCheckin] the cache again equals the snapshot of the
    server's tables, whatever the server answered and under every fault
    schedule. *)
Theorem remote_toggle_keeps_cache_in_sync today activity p u userData :
  RemotePage.in_sync p ->
  Remote.currentUser p = Some u ->
  Remote.usersData p !! u = Some userData ->
  NoDup (getTodayCheckin (Remote.usersData p) (Remote.currentUser p) today) ->
  RemotePage.in_sync (Remote.toggleCheckin today activity p).
Proof.
  intros Hsync Hcu Hu Hnd.
  pose proof (proj1 (in_sync_lookup p) Hsync) as Hl.
  unfold getTodayCheckin in Hnd. rewrite Hcu in Hnd. simpl in Hnd.
  rewrite Hu in Hnd.
  unfold Remote.toggleCheckin. rewrite Hcu. simpl. rewrite Hu.
  pose proof (Hl u) as Hlu. rewrite Hu in Hlu.
  destruct (delete "__proto__" (Server.users (db (Remote.server p))) !! u)
    as [pw|] eqn:Hpw; [|done].
  simpl in Hlu. injection Hlu as ->. cbn [checkins password] in *.
  set (rows := Server.checkins (db (Remote.server p))) in *.
  set (R := filter (belongs_to u) rows) in *.
  rewrite lookup_fmap in *.
  destruct (indexOf activity _) as [index|] eqn:Hidx.
  - (* the activity is there: DELETE *)
    destruct (delete_checkin_cases u today activity (Remote.server p))
      as (r & c' & E & Hcases).
    rewrite E. destruct Hcases as [(-> & _ & _ & _ & Hdb) | (Hr & Hdb)].
    2:{ destruct (negb (Remote.is_ok r)) eqn:Hok.
        - by apply (in_sync_same_tables p).
        - apply negb_false_iff, is_ok_success in Hok. contradiction. }
    simpl. apply in_sync_lookup. intros u'.
    cbn [Remote.usersData Remote.server]. rewrite Hdb.
    cbn [Server.users Server.checkins]. fold rows.
    destruct (decide (u' = u)) as [->|Hne].
    2:{ rewrite lookup_insert_ne by done.
        rewrite filter_belongs_not_matches by done. apply Hl. }
    rewrite lookup_insert_eq, Hpw. simpl. f_equal. f_equal.
    assert (Hday : exists codes,
      by_date R !! today = Some codes /\
      indexOf activity codes = Some index /\ NoDup codes).
    { destruct (by_date R !! today) as [codes|]; simpl in *; [|done].
      eauto. }
    destruct Hday as (codes & Hday & Hic & Hndc).
    rewrite Hday. simpl.
    pose proof (by_date_lookup R today) as Hbd. rewrite Hday in Hbd.
    apply map_eq. intros d'. rewrite lookup_fmap.
    rewrite (by_date_lookup (filter (belongs_to u) (filter _ rows)) d').
    rewrite day_not_matches. fold R.
    destruct (decide (d' = today)) as [->|Hd'].
    + assert (Hcodes : Server.activity <$> filter (fun r => date r = today) R = codes).
      { destruct (Server.activity <$> filter _ R); congruence. }
      rewrite Hcodes, <- (delete_index_filter activity codes index) by done.
      case_bool_decide as Hlen.
      * rewrite lookup_delete_eq.
        by destruct (delete index codes).
      * rewrite lookup_insert_eq. by destruct (delete index codes).
    + rewrite <- by_date_lookup. case_bool_decide.
      * by rewrite lookup_delete_ne, lookup_fmap.
      * by rewrite lookup_insert_ne, lookup_fmap.
  - (* the activity is not there: POST *)
    destruct (post_checkin_cases u today activity (Remote.server p))
      as (r & c' & E & Hcases).
    rewrite E. destruct Hcases as [(-> & Hdb) | (Hr & Hdb)].
    2:{ destruct (negb (Remote.is_ok r)) eqn:Hok.
        - by apply (in_sync_same_tables p).
        - apply negb_false_iff, is_ok_success in Hok. contradiction. }
    simpl.
    assert (G : RemotePage.in_sync
      (Remote.Page
         (<[u := UserData pw
                   (<[today :=
                        Activities (default [] (by_date R !! today)
                                    ++ [activity])]>
                      (Activities <$> by_date R))]> (Remote.usersData p))
         (Some u) c')).
    { apply in_sync_lookup. intros u'.
      cbn [Remote.usersData Remote.server]. rewrite Hdb.
      cbn [Server.users Server.checkins]. fold rows.
      rewrite filter_app.
      destruct (decide (u' = u)) as [->|Hne].
      - rewrite lookup_insert_eq, Hpw. simpl.
        rewrite (filter_cons_True (belongs_to u)) by done.
        rewrite filter_nil. fold R. rewrite by_date_snoc.
        unfold push_activity. simpl. by rewrite fmap_insert.
      - rewrite lookup_insert_ne by done.
        rewrite (filter_cons_False (belongs_to u'))
          by (unfold belongs_to; simpl; congruence).
        rewrite filter_nil, app_nil_r. apply Hl. }
    destruct (by_date R !! today) as [codes|]; simpl in *; exact G.
Qed.

Lemma remote_toggle_keeps_cache_in_sync_witness :
  RemotePage.in_sync
    (Remote.toggleCheckin "2024-03-01" "paper"
       (Remote.Page
          (to_json <$> Server.snapshot_of alice_tables)
          (Some "alice") (open alice_tables []))).
Proof.
  apply (remote_toggle_keeps_cache_in_sync "2024-03-01" "paper"
           (Remote.Page
              (to_json <$> Server.snapshot_of alice_tables)
              (Some "alice") (open alice_tables []))
           "alice"
           (to_json (Data.UserData "5e884898"
                       (<["2024-03-01" := ["paper"]]> ∅)))).
  - reflexivity.
  - reflexivity.
  - vm_compute. reflexivity.
  - apply (bool_decide_unpack _). vm_compute. exact I.
Defined.

(** Without the hypothesis on today's array the cache can go out of sync:
    after an import of an array that lists an activity twice, one toggle
    removes both rows on the server and one entry of the cache. *)
Example remote_toggle_duplicate_out_of_sync :
  let t := Tables (<["bob" := "2bb80d53"]> ∅)
             [Checkin "bob" "2024-01-02" "paper";
              Checkin "bob" "2024-01-02" "paper"] in
  let p := Remote.loadUsersData (Remote.Page ∅ (Some "bob") (open t [])) in
  let p' := Remote.toggleCheckin "2024-01-02" "paper" p in
  getTodayCheckin (Remote.usersData p') (Some "bob") "2024-01-02" = ["paper"]
  /\ Server.checkins (db (Remote.server p')) = [].
Proof. split; vm_compute; reflexivity. Qed.

(** ** Logging in and clearing from the server-backed script *)

Lemma get_users_cases c :
  exists r c', get_users c = (r, c') /\ db c' = db c /\
    (r = Json (Server.snapshot_of (db c)) \/ exists e, r = StoreFailure e).
Proof.
  destruct (get_users c) as [r c'] eqn:E. exists r, c'.
  split; [done|]. split.
  - pose proof (get_users_db c) as H. by rewrite E in H.
  - destruct r as [body| | | |e]; eauto.
    + left. by apply get_users_snapshot in E as ->.
    + exfalso. revert E.
      unfold get_users, handle, bind, query_users, query_checkins, bind,
        next_fault, get_tables, ret, throw.
      destruct c as [t sv [|[] [|[] fs]]]; simpl; try done;
        by destruct (assemble _ _).
    + exfalso. revert E.
      unfold get_users, handle, bind, query_users, query_checkins, bind,
        next_fault, get_tables, ret, throw.
      destruct c as [t sv [|[] [|[] fs]]]; simpl; try done;
        by destruct (assemble _ _).
    + exfalso. revert E.
      unfold get_users, handle, bind, query_users, query_checkins, bind,
        next_fault, get_tables, ret, throw.
      destruct c as [t sv [|[] [|[] fs]]]; simpl; try done;
        by destruct (assemble _ _).
Qed.

Lemma loadUsersData_cases p :
  Remote.currentUser (Remote.loadUsersData p) = Remote.currentUser p /\
  db (Remote.server (Remote.loadUsersData p)) = db (Remote.server p) /\
  (RemotePage.in_sync (Remote.loadUsersData p)
   \/ Remote.usersData (Remote.loadUsersData p) = ∅).
Proof.
  unfold Remote.loadUsersData.
  destruct (get_users_cases (Remote.server p))
    as (r & c' & -> & Hdb & [-> | [e ->]]).
  - split; [done|]. split; [done|]. left.
    unfold RemotePage.in_sync. cbn [Remote.usersData Remote.server].
    by rewrite Hdb.
  - split; [done|]. split; [done|]. by right.
Qed.

(** X19. The outcomes of [login] in the server-backed script, under
    every fault schedule: either the user is logged in, the account row on
    the server holds the hashed password, and the cache is the server's
    snapshot or (when loading it failed) empty; or the logged-in user, the
    cache and the server's tables are what they were. *)
Theorem remote_login_outcomes hashPassword username password p :
  let p' := RemotePage.login hashPassword username password p in
  (Remote.currentUser p' = Some username /\
   truthy username = true /\ truthy password = true /\
   Server.users (db (Remote.server p')) !! username
   = Some (hashPassword password) /\
   (RemotePage.in_sync p' \/ Remote.usersData p' = ∅))
  \/ (Remote.currentUser p' = Remote.currentUser p /\
      Remote.usersData p' = Remote.usersData p /\
      db (Remote.server p') = db (Remote.server p)).
Proof.
  unfold RemotePage.login.
  destruct (negb (truthy username) || negb (truthy password)) eqn:E;
    [by right|].
  assert (truthy username = true /\ truthy password = true) as [Hu Hp]
    by (destruct (truthy username), (truthy password); done).
  destruct (post_login_cases username (hashPassword password)
              (Remote.server p))
    as (r & c' & -> & [(-> & _ & _ & Hcase) | (Hr & Hdb)]).
  - left. cbn [Remote.is_ok].
    destruct (loadUsersData_cases
                (Remote.Page (Remote.usersData p) (Some username) c'))
      as (Hcu & Hdb' & Hcache).
    split; [exact Hcu|]. split; [done|]. split; [done|].
    split; [|exact Hcache]. rewrite Hdb'. cbn [Remote.server].
    destruct Hcase as [[Hs ->]|[_ ->]]; [done|]. apply lookup_insert_eq.
  - right. destruct (Remote.is_ok r) eqn:Hok.
    + apply is_ok_success in Hok. contradiction.
    + done.
Qed.

Lemma imported_empty : imported ∅ = empty_tables.
Proof.
  unfold imported, empty_tables. by rewrite omap_empty, map_to_list_empty.
Qed.

(** X20. [clearAllData] in the server-backed script is all or nothing:
    when the import of the empty object succeeds, the server's tables are
    empty, the cache is empty and no user with a non-empty name stays
    logged in; when it fails, the tables, the cache and the logged-in user
    are what they were. *)
Theorem remote_clearAllData_outcomes p :
  let p' := RemotePage.clearAllData p in
  let response := (post_import ∅ (Remote.server p)).1 in
  (Remote.is_ok response = true ->
   db (Remote.server p') = empty_tables /\
   Remote.usersData p' = ∅ /\
   forall u, Remote.currentUser p' = Some u -> truthy u = false)
  /\ (Remote.is_ok response = false ->
      db (Remote.server p') = db (Remote.server p) /\
      Remote.usersData p' = Remote.usersData p /\
      Remote.currentUser p' = Remote.currentUser p).
Proof.
  unfold RemotePage.clearAllData.
  destruct (post_import_cases ∅ (Remote.server p))
    as [(c' & -> & Hdb & _) | (e & c' & -> & Hdb)]; cbn [fst Remote.is_ok].
  - split; [intros _|done]. rewrite imported_empty in Hdb.
    destruct (loadUsersData_cases (Remote.Page ∅ (Remote.currentUser p) c'))
      as (Hcu & Hdb' & Hcache).
    set (p1 := Remote.loadUsersData _) in *.
    cbn [Remote.server] in Hdb'. rewrite Hdb in Hdb'.
    assert (Hempty : Remote.usersData p1 = ∅).
    { destruct Hcache as [Hsync|]; [|done].
      unfold RemotePage.in_sync in Hsync. rewrite Hsync, Hdb'.
      unfold Server.snapshot_of, Server.grouped, empty_tables; simpl.
      by rewrite map_imap_empty, delete_empty, fmap_empty. }
    destruct (Remote.currentUser p1) as [u|] eqn:Hu.
    + destruct (truthy u) eqn:Ht.
      * unfold Remote.logout. cbn [Remote.server Remote.usersData
          Remote.currentUser]. split; [done|]. split; [done|]. done.
      * split; [done|]. split; [done|]. rewrite Hu. by intros ? [= <-].
    + split; [done|]. split; [done|]. rewrite Hu. done.
  - split; [done|]. intros _. done.
Qed.

Lemma remote_clearAllData_outcomes_witness :
  db (Remote.server
        (RemotePage.clearAllData
           (Remote.Page ∅ (Some "alice") (open alice_tables []))))
  = empty_tables.
Proof.
  apply (remote_clearAllData_outcomes
           (Remote.Page ∅ (Some "alice") (open alice_tables []))).
  vm_compute. reflexivity.
Defined.

(** ** The admin panel *)

Lemma keys_elem_of {V} (o : gmap string V) k :
  k ∈ Admin.keys o <-> is_Some (o !! k).
Proof.
  unfold Admin.keys. rewrite list_elem_of_fmap. split.
  - intros ([k' v] & -> & Hin). apply elem_of_map_to_list in Hin. eauto.
  - intros [v Hv]. exists (k, v). split; [done|].
    by apply elem_of_map_to_list.
Qed.

Lemma keys_length {V} (o : gmap string V) : length (Admin.keys o) = size o.
Proof. unfold Admin.keys. by rewrite length_fmap, length_map_to_list. Qed.

Lemma array_sort_perm l : Admin.array_sort l ≡ₚ l.
Proof. apply merge_sort_Permutation. Qed.

Lemma array_sort_sorted l : StronglySorted String.le (Admin.array_sort l).
Proof. apply StronglySorted_merge_sort; apply _. Qed.

(** The element [pop()] takes off a sorted array is its greatest. *)
Lemma last_sorted_greatest (l : list string) m :
  StronglySorted String.le l -> last l = Some m ->
  m ∈ l /\ forall x, x ∈ l -> String.le x m.
Proof.
  intros Hs Hlast. apply last_Some in Hlast as [l' ->].
  split; [rewrite elem_of_app, list_elem_of_singleton; by right|].
  intros x [Hx| ->%list_elem_of_singleton]%elem_of_app; [|done].
  eapply StronglySorted_app_1_elem_of; [exact Hs|exact Hx|].
  by apply list_elem_of_singleton.
Qed.

Lemma count_user_foldl today l acc :
  foldl (Admin.count_user today) acc l
  = (acc.1 + sum_list ((fun user => size (checkins user)) <$> l),
     acc.2 + length (filter (fun user =>
                          Admin.truthy_day (checkins user !! today) = true) l)).
Proof.
  revert acc. induction l as [|user l IH]; intros [a b]; simpl.
  - f_equal; lia.
  - rewrite IH. unfold Admin.count_user. cbn [fst snd]. rewrite keys_length.
    destruct (Admin.truthy_day (checkins user !! today)) eqn:E.
    + rewrite filter_cons_True by done. simpl.
      f_equal; [by rewrite <- Nat.add_assoc|lia].
    + rewrite filter_cons_False by (rewrite E; done). simpl.
      f_equal. by rewrite <- Nat.add_assoc.
Qed.

Lemma todayEntry_length today entry :
  length (todayEntry today entry)
  <= (if Admin.truthy_day (checkins entry.2 !! today) then 1 else 0) /\
  (checkins entry.2 !! today <> Some (Activities []) ->
   length (todayEntry today entry)
   = if Admin.truthy_day (checkins entry.2 !! today) then 1 else 0).
Proof.
  unfold todayEntry.
  destruct (checkins entry.2 !! today) as [[code|codes]|]; simpl.
  - destruct (truthy code); simpl; split; done.
  - destruct codes; simpl; split; try done; lia.
  - split; done.
Qed.

Lemma feed_length_active today (l : list (string * user_data day_value)) :
  length (flat_map (todayEntry today) l)
  <= length (filter (fun user =>
               Admin.truthy_day (checkins user !! today) = true) l.*2) /\
  ((forall entry, entry ∈ l ->
      checkins entry.2 !! today <> Some (Activities [])) ->
   length (flat_map (todayEntry today) l)
   = length (filter (fun user =>
               Admin.truthy_day (checkins user !! today) = true) l.*2)).
Proof.
  induction l as [|entry l [IH1 IH2]]; [done|].
  rewrite fmap_cons. cbn [flat_map]. rewrite length_app.
  destruct (todayEntry_length today entry) as [H1 H2].
  assert (Htl : (forall e, e ∈ entry :: l ->
                   checkins e.2 !! today <> Some (Activities [])) ->
                checkins entry.2 !! today <> Some (Activities []) /\
                forall e, e ∈ l ->
                  checkins e.2 !! today <> Some (Activities [])).
  { intros Hne. split; [apply Hne; by left|].
    intros e He. apply Hne. by right. }
  destruct (Admin.truthy_day (checkins entry.2 !! today)) eqn:E.
  - rewrite filter_cons_True by done. cbn [length]. split; [lia|].
    intros [Hhd Hrest]%Htl. rewrite H2, IH2 by done. done.
  - rewrite filter_cons_False by (rewrite E; done). split; [lia|].
    intros [Hhd Hrest]%Htl. rewrite H2, IH2 by done. done.
Qed.

(** X21. The numbers of the admin panel: Total Users is the number of
    users; Total Check-ins is the sum over the users of the number of days
    with an entry; the number of users in today's feed is at most Active
    Today, which is at most Total Users; and when no user has a day with
    an empty array, Active Today is exactly the length of today's feed. *)
Theorem admin_statistics (localeCompare : string -> string -> Z)
    (users : gmap string (user_data day_value)) (today : string) :
  let stats := Admin.loadAdminData users today in
  Admin.totalUsers stats = size users /\
  Admin.totalCheckins stats
  = sum_list ((fun entry => size (checkins entry.2)) <$> map_to_list users) /\
  length (updateTodayActivity localeCompare users today)
  <= Admin.activeToday stats <= Admin.totalUsers stats /\
  (no_empty_day users ->
   Admin.activeToday stats
   = length (updateTodayActivity localeCompare users today)).
Proof.
  unfold Admin.loadAdminData. cbn zeta.
  cbn [Admin.totalUsers Admin.totalCheckins Admin.activeToday].
  rewrite count_user_foldl. cbn [fst snd]. rewrite keys_length.
  unfold updateTodayActivity. rewrite merge_sort_Permutation.
  destruct (feed_length_active today (map_to_list users)) as [H1 H2].
  split; [done|]. split; [|split].
  - simpl. f_equal. rewrite <- list_fmap_compose. done.
  - split; [simpl; exact H1|]. simpl.
    etrans; [apply length_filter|].
    by rewrite length_fmap, length_map_to_list.
  - intros Hinv. simpl. symmetry. apply H2.
    intros [u ud] Hin. apply elem_of_map_to_list in Hin.
    by apply (Hinv u ud today).
Qed.

Lemma admin_statistics_witness :
  Admin.activeToday (Admin.loadAdminData mixed_case_users "2024-03-01")
  = length (updateTodayActivity root_collation mixed_case_users "2024-03-01").
Proof.
  apply (admin_statistics root_collation mixed_case_users "2024-03-01").
  intros u ud d Hu. unfold mixed_case_users in Hu.
  apply lookup_insert_Some in Hu as [[_ <-]|[_ Hu]].
  - simpl. intros H. apply lookup_insert_Some in H as [[_ [=]]|[_ [=]]].
  - apply lookup_insert_Some in Hu as [[_ <-]|[_ [=]]].
    simpl. intros H. apply lookup_insert_Some in H as [[_ [=]]|[_ [=]]].
Defined.

(** An empty array left by an import counts as a check-in of today, though
    the feed shows nothing for it. *)
Example admin_counts_empty_day :
  Admin.activeToday (Admin.loadAdminData empty_day_users "2024-03-01") = 1 /\
  updateTodayActivity root_collation empty_day_users "2024-03-01" = [].
Proof. split; vm_compute; reflexivity. Qed.

Lemma lastCheckin_greatest (userData : user_data day_value) :
  (checkins userData = ∅ -> Admin.lastCheckin userData = "Never") /\
  (checkins userData <> ∅ ->
   exists date,
     is_Some (checkins userData !! date) /\
     (forall d, is_Some (checkins userData !! d) -> String.le d date) /\
     Admin.lastCheckin userData = if truthy date then date else "Never").
Proof.
  unfold Admin.lastCheckin. split.
  - intros ->. unfold Admin.keys. by rewrite map_to_list_empty.
  - intros Hne.
    destruct (last (Admin.array_sort (Admin.keys (checkins userData))))
      as [date|] eqn:Hlast.
    + destruct (last_sorted_greatest _ _ (array_sort_sorted _) Hlast)
        as [Hin Hmax].
      exists date. split; [|split; [|done]].
      * apply keys_elem_of. by rewrite <- (array_sort_perm _).
      * intros d Hd. apply Hmax. rewrite array_sort_perm.
        by apply keys_elem_of.
    + apply last_None in Hlast. exfalso. apply Hne.
      apply map_to_list_empty_iff.
      assert (Hk : Admin.keys (checkins userData) = []).
      { apply Permutation_nil_r. rewrite <- Hlast. symmetry.
        apply array_sort_perm. }
      unfold Admin.keys in Hk. by apply fmap_nil_inv in Hk.
Qed.

(** X22. The date the admin panel shows as last check-in: when the
    keys of a user's check-ins are the keys of a list of days with
    four-digit years, and [latest] is a day of the list that no day of the
    list is later than, then [lastCheckin] is the key of [latest]. *)
Theorem lastCheckin_latest (userData : user_data day_value)
    (dates : list Dates.Date) (latest : Dates.Date) :
  Forall Dates.valid dates ->
  (forall key, is_Some (checkins userData !! key) <->
     exists d, d ∈ dates /\ key = Dates.getTodayString d) ->
  latest ∈ dates ->
  (forall d, d ∈ dates -> Dates.chronological d latest <> Gt) ->
  Admin.lastCheckin userData = Dates.getTodayString latest.
Proof.
  intros Hvalid Hkeys Hin Hmax.
  rewrite Forall_forall in Hvalid.
  destruct (lastCheckin_greatest userData) as [_ H].
  destruct H as (date & Hdate & Hgreatest & ->).
  { intros Hempty.
    assert (Hs : is_Some (checkins userData !! Dates.getTodayString latest))
      by (apply Hkeys; eauto).
    rewrite Hempty, lookup_empty in Hs. by destruct Hs. }
  apply Hkeys in Hdate as (d & Hd & ->).
  assert (Hle : String.le (Dates.getTodayString latest)
                  (Dates.getTodayString d))
    by (apply Hgreatest, Hkeys; eauto).
  assert (Hge : Dates.chronological d latest <> Gt) by auto.
  rewrite <- (date_key_compare d latest) in Hge by auto.
  assert (Heq : Dates.getTodayString d = Dates.getTodayString latest).
  { apply (anti_symm String.le); [|done].
    unfold String.le, String.leb.
    by destruct (String.compare _ _). }
  rewrite Heq.
  pose proof (date_key_length latest (Hvalid _ Hin)) as Hlen.
  by destruct (Dates.getTodayString latest).
Qed.

Lemma lastCheckin_latest_witness :
  Admin.lastCheckin
    (UserData "5e884898"
       (<["2024-03-01" := Activities ["paper"]]>
          (<["2024-02-29" := Legacy "fitness"]> ∅)))
  = Dates.getTodayString (Dates.MkDate 2024 2 1).
Proof.
  apply (lastCheckin_latest
           (UserData "5e884898"
              (<["2024-03-01" := Activities ["paper"]]>
                 (<["2024-02-29" := Legacy "fitness"]> ∅)))
           [Dates.MkDate 2024 2 1; Dates.MkDate 2024 1 29]
           (Dates.MkDate 2024 2 1)).
  - apply Forall_cons. split; [repeat split; simpl; lia|].
    apply Forall_cons. split; [repeat split; simpl; lia|]. apply Forall_nil_2.
  - intros key. cbn [checkins].
    rewrite !lookup_insert_is_Some, lookup_empty. split.
    + intros [<-|[_ [<-|[_ []%is_Some_None]]]].
      * exists (Dates.MkDate 2024 2 1). split; [by left|]. reflexivity.
      * exists (Dates.MkDate 2024 1 29). split; [by right; left|].
        reflexivity.
    + intros (d & Hd & ->).
      apply elem_of_cons in Hd as [->|Hd]; [by left|].
      apply list_elem_of_singleton in Hd as ->. right.
      split; [by vm_compute|]. by left.
  - by left.
  - intros d Hd. apply elem_of_cons in Hd as [->|Hd]; [by vm_compute|].
    apply list_elem_of_singleton in Hd as ->. by vm_compute.
Defined.

Lemma history_dates userData :
  (Admin.history userData).*1
  = reverse (Admin.array_sort (Admin.keys (checkins userData))).
Proof.
  unfold Admin.history. rewrite <- list_fmap_compose.
  apply list_fmap_id.
Qed.

(** X23. The history [toggleUserDetail] lists: one row per day with an
    entry, no date twice, dates in descending order of code units, each
    row with the activities stored for its date (a string as a one-element
    array); and the date of the first row is the one the user list shows
    as last check-in. *)
Theorem admin_history (userData : user_data day_value) :
  let rows := Admin.history userData in
  NoDup rows.*1 /\
  StronglySorted (flip String.le) rows.*1 /\
  length rows = size (checkins userData) /\
  (forall date activities,
     (date, activities) ∈ rows <->
     exists value,
       checkins userData !! date = Some value /\
       activities = activityArray value) /\
  (forall date, head rows.*1 = Some date ->
     Admin.lastCheckin userData = if truthy date then date else "Never").
Proof.
  cbn zeta. rewrite history_dates.
  split; [|split; [|split; [|split]]].
  - rewrite reverse_Permutation, array_sort_perm.
    apply NoDup_fst_map_to_list.
  - apply Sorted_StronglySorted; [apply _|]. apply Sorted_reverse.
    apply Sorted_merge_sort. apply _.
  - unfold Admin.history.
    rewrite length_fmap, length_reverse, array_sort_perm. apply keys_length.
  - intros date activities. unfold Admin.history.
    rewrite list_elem_of_fmap. split.
    + intros (d & [= -> ->] & Hd).
      rewrite elem_of_reverse, array_sort_perm in Hd.
      apply keys_elem_of in Hd as [value Hv]. exists value.
      split; [done|]. unfold historyActivities. rewrite Hv.
      by destruct value.
    + intros (value & Hv & ->). exists date. split.
      * unfold historyActivities. rewrite Hv. by destruct value.
      * rewrite elem_of_reverse, array_sort_perm. apply keys_elem_of. eauto.
  - intros date Hhead. unfold Admin.lastCheckin.
    rewrite <- head_reverse. unfold Admin.array_sort in *.
    rewrite Hhead. done.
Qed.

Lemma admin_history_witness :
  ("2024-03-01", ["fitness"])
  ∈ Admin.history
      (UserData "5e884898" (<["2024-03-01" := Legacy "fitness"]> ∅)).
Proof.
  apply (admin_history
           (UserData "5e884898" (<["2024-03-01" := Legacy "fitness"]> ∅))).
  exists (Legacy "fitness"). split; [apply lookup_insert_eq|reflexivity].
Defined.

(** ** Logging in to the browser-local script *)

(** X24. The outcomes of [login] in the browser-local script, case by
    case.  No stored user is ever changed.  With an empty name or password
    nothing changes.  Otherwise: for a stored user whose stored hash is the
    hash of the password, the user is logged in, in the variable and in the
    localStorage item, and the stored users are untouched; for a stored
    user with another hash nothing changes; for a name that is not stored
    but is a property every object inherits nothing changes either (the
    password counts as incorrect); and any other name that is not stored is
    registered with the hash of the password and no check-ins, all other
    users as before, and is logged in, in the variable and in the item. *)
Theorem local_login_outcomes (hashPassword : string -> string)
    (username password : string) (b : Local.browser) :
  let b' := Local.login hashPassword username password b in
  (forall u userData,
     Local.load_users b !! u = Some userData ->
     Local.load_users b' !! u = Some userData) /\
  (truthy username = false \/ truthy password = false -> b' = b) /\
  (truthy username = true -> truthy password = true ->
   (forall userData,
      Local.load_users b !! username = Some userData ->
      (Data.password userData = hashPassword password ->
       Local.currentUser b' = Some username /\
       Local.item_currentUser b' = Some username /\
       Local.item_users b' = Local.item_users b) /\
      (Data.password userData <> hashPassword password -> b' = b)) /\
   (Local.load_users b !! username = None ->
    (inherited username = true -> b' = b) /\
    (inherited username = false ->
     Local.currentUser b' = Some username /\
     Local.item_currentUser b' = Some username /\
     Local.load_users b'
     = <[username := UserData (hashPassword password) ∅]>
         (Local.load_users b)))).
Proof.
  unfold Local.login.
  destruct (truthy username) eqn:Hu, (truthy password) eqn:Hp;
    cbn [negb orb];
    try (split; [done|]; split; [done|]; intros; done).
  split; [|split; [by intros [|]|intros _ _]].
  - destruct (Local.load_users b !! username) as [ud|] eqn:Hud.
    + by case_bool_decide.
    + destruct (inherited username); [done|].
      intros u userData Hl. cbn [Local.load_users Local.item_users].
      rewrite lookup_insert_ne; [done|]. congruence.
  - split.
    + intros userData ->. split; intros Hpw.
      * by rewrite bool_decide_true.
      * by rewrite bool_decide_false.
    + intros ->. split; intros ->; done.
Qed.

Lemma local_login_outcomes_witness :
  let b := Local.Browser (Some legacy_users) None None in
  let b' := Local.login (fun password => password) "bob" "opensesame" b in
  Local.currentUser b' = Some "bob" /\
  Local.item_currentUser b' = Some "bob" /\
  Local.load_users b'
  = <["bob" := UserData "opensesame" ∅]> (Local.load_users b).
Proof.
  refine (proj2 (proj2 (proj2 (proj2
            (local_login_outcomes (fun password => password)
               "bob" "opensesame"
               (Local.Browser (Some legacy_users) None None)))
            _ _) _) _); reflexivity.
Defined.

(** Logging in as [constructor], a name no stored user has: the lookup
    finds the property every object inherits, the password counts as
    incorrect and nothing is stored. *)
Example local_login_constructor :
  let b := Local.Browser (Some legacy_users) None None in
  Local.login (fun password => password) "constructor" "opensesame" b = b.
Proof. reflexivity. Qed.

(** ** The calendar *)

Lemma filter_fmap_seq_one {A} (P : A -> Prop) `{!forall x, Decision (P x)}
    (f : nat -> A) (k start len : nat) :
  (forall d, start <= d < start + len -> (P (f d) <-> d = k)) ->
  filter P (f <$> seq start len)
  = if bool_decide (start <= k < start + len) then [f k] else [].
Proof.
  revert start. induction len as [|len IH]; intros start Hone.
  - rewrite bool_decide_false by lia. done.
  - cbn [seq]. rewrite fmap_cons.
    destruct (decide (start = k)) as [->|Hne].
    + rewrite filter_cons_True by (apply Hone; lia).
      rewrite IH by (intros d Hd; apply Hone; lia).
      rewrite bool_decide_false by lia.
      rewrite bool_decide_true by lia. done.
    + rewrite filter_cons_False by (rewrite Hone; [done|lia]).
      rewrite IH by (intros d Hd; apply Hone; lia).
      destruct (decide (S start <= k < S start + len)).
      * rewrite !bool_decide_true by lia. done.
      * rewrite !bool_decide_false by lia. done.
Qed.

Lemma filter_fmap_none {A B} (P : B -> Prop) `{!forall x, Decision (P x)}
    (f : A -> B) (l : list A) :
  (forall x, ~ P (f x)) -> filter P (f <$> l) = [].
Proof.
  intros Hnone. induction l as [|x l IH]; [done|].
  rewrite fmap_cons, filter_cons_False by apply Hnone. exact IH.
Qed.

(** X25. The calendar grid: when the weekday offset of the first day
    and the number of days of the month are at most 42 together,
    [renderCalendar] produces 42 cells below the headers; the first cells
    are the last days of the previous month, ending with its last day; the
    day [day] of the month sits at the position of the offset plus
    [day - 1], with its mark for today and its icons; the remaining cells
    count the first days of the next month from 1. *)
Theorem calendar_grid (users : gmap string (user_data day_value))
    (currentUser : option string)
    (year month firstDayWeek daysInMonth prevMonthLastDay : nat)
    (todayString : string) :
  firstDayWeek + daysInMonth <= 42 ->
  let cells :=
    Calendar.renderCalendar users currentUser year month firstDayWeek
      daysInMonth prevMonthLastDay todayString in
  length cells = 42 /\
  (forall i, i < firstDayWeek ->
     cells !! i
     = Some (Calendar.OtherMonth (prevMonthLastDay - (firstDayWeek - 1 - i)))) /\
  (forall day, 1 <= day <= daysInMonth ->
     cells !! (firstDayWeek + (day - 1))
     = Some (Calendar.Day day
               (bool_decide (Dates.dateString year month day = todayString))
               (calendarActivities users currentUser
                  (Dates.dateString year month day)))) /\
  (forall day, 1 <= day <= 42 - (firstDayWeek + daysInMonth) ->
     cells !! (firstDayWeek + daysInMonth + (day - 1))
     = Some (Calendar.OtherMonth day)).
Proof.
  intros Hfit. cbn zeta. unfold Calendar.renderCalendar.
  split; [|split; [|split]].
  - rewrite !length_app, !length_fmap, length_reverse, !length_seq. lia.
  - intros i Hi.
    rewrite lookup_app_l by (rewrite length_fmap, length_reverse, length_seq; lia).
    rewrite list_lookup_fmap, reverse_lookup by (rewrite length_seq; lia).
    rewrite length_seq, lookup_seq_lt by lia. simpl. do 3 f_equal. lia.
  - intros day Hday.
    rewrite lookup_app_r by (rewrite length_fmap, length_reverse, length_seq; lia).
    rewrite length_fmap, length_reverse, length_seq.
    rewrite lookup_app_l by (rewrite length_fmap, length_seq; lia).
    rewrite list_lookup_fmap, lookup_seq_lt by lia. simpl.
    replace (S (firstDayWeek + (day - 1) - firstDayWeek)) with day by lia.
    done.
  - intros day Hday.
    rewrite lookup_app_r by (rewrite length_fmap, length_reverse, length_seq; lia).
    rewrite length_fmap, length_reverse, length_seq.
    rewrite lookup_app_r by (rewrite length_fmap, length_seq; lia).
    rewrite length_fmap, length_seq.
    rewrite list_lookup_fmap, lookup_seq_lt by lia. simpl.
    do 2 f_equal. lia.
Qed.

Lemma calendar_grid_witness :
  length (Calendar.renderCalendar mixed_case_users (Some "Bob") 2024 2 5 31 29
            "2024-03-01") = 42.
Proof.
  apply (calendar_grid mixed_case_users (Some "Bob") 2024 2 5 31 29
           "2024-03-01").
  lia.
Defined.

(** X26. The calendar marks today and nothing else: for a month with a
    four-digit year and at most 31 days, the cells with the mark for today
    are exactly the one cell of today's day with today's activities when
    the calendar shows the month of today and that day exists in it, and
    none otherwise. *)
Theorem calendar_marks_today (users : gmap string (user_data day_value))
    (currentUser : option string)
    (year month firstDayWeek daysInMonth prevMonthLastDay : nat)
    (now : Dates.Date) :
  Dates.valid now ->
  1000 <= year < 10 * 1000 -> month <= 11 -> daysInMonth <= 31 ->
  filter (fun c => Calendar.marked_today c = true)
    (Calendar.renderCalendar users currentUser year month firstDayWeek
       daysInMonth prevMonthLastDay (Dates.getTodayString now))
  = if bool_decide (year = Dates.getFullYear now /\
                    month = Dates.getMonth now /\
                    Dates.getDate now <= daysInMonth)
    then [Calendar.Day (Dates.getDate now) true
            (calendarActivities users currentUser
               (Dates.getTodayString now))]
    else [].
Proof.
  intros Hnow Hyear Hmonth Hdim. unfold Calendar.renderCalendar.
  rewrite !filter_app.
  rewrite (filter_fmap_none _ (fun i => Calendar.OtherMonth _)) by done.
  rewrite (filter_fmap_none _ Calendar.OtherMonth) by done.
  rewrite app_nil_l, app_nil_r.
  assert (Hkey : forall day, 1 <= day < 1 + daysInMonth ->
    Dates.dateString year month day = Dates.getTodayString now <->
    Dates.MkDate year month day = now).
  { intros day Hday. split.
    - intros Heq. apply chronological_eq.
      rewrite <- date_key_compare; [|repeat split; simpl; lia|done].
      unfold Dates.getTodayString at 1. simpl. rewrite Heq.
      apply compare_refl.
    - by intros <-. }
  destruct (decide (year = Dates.getFullYear now /\
                    month = Dates.getMonth now)) as [[-> ->]|Hother].
  - rewrite (filter_fmap_seq_one _ _ (Dates.getDate now)).
    + destruct Hnow as (_ & _ & Hd).
      destruct (decide (Dates.getDate now <= daysInMonth)).
      * rewrite !bool_decide_true by (repeat split; lia).
        reflexivity.
      * rewrite !bool_decide_false by lia. done.
    + intros d Hd. cbn [Calendar.marked_today].
      rewrite bool_decide_eq_true, (Hkey d Hd).
      destruct now as [y m dd]; simpl. split; [by intros [= ->]|by intros ->].
  - rewrite bool_decide_false by tauto.
    rewrite (filter_fmap_seq_one _ _ 0).
    + rewrite bool_decide_false by lia. done.
    + intros d Hd. cbn [Calendar.marked_today].
      rewrite bool_decide_eq_true, (Hkey d Hd). split; [|lia].
      intros <-. simpl in Hother. tauto.
Qed.

Lemma calendar_marks_today_witness :
  filter (fun c => Calendar.marked_today c = true)
    (Calendar.renderCalendar mixed_case_users (Some "Bob") 2024 2 5 31 29
       (Dates.getTodayString (Dates.MkDate 2024 2 1)))
  = [Calendar.Day 1 true ["paper"; "quant"]].
Proof.
  rewrite (calendar_marks_today mixed_case_users (Some "Bob") 2024 2 5 31 29
             (Dates.MkDate 2024 2 1)).
  - vm_compute. reflexivity.
  - repeat split; simpl; lia.
  - lia.
  - lia.
  - lia.
Defined.
